(** * Workflow engine of the MCP agent: a shallow embedding

    The development follows [src/agents/workflows/mcp_workflows.py]
    (class [WorkflowEngine]) and the pipeline ordering function of
    [src/agents/core/meta_agent_system.py]
    ([MetaAgentSystem._topological_sort]).

    Python objects that the engine mutates in place ([WorkflowStep]) live in
    an object store indexed by references; dictionaries are insertion-ordered
    association lists, as Python's are; [Any] values are a small universe of
    Python values. *)

From Stdlib Require Import ZArith QArith Ascii String.
From stdpp Require Import gmap strings list.

Set Warnings "-register-all".

Local Open Scope string_scope.
Local Open Scope list_scope.
Local Open Scope nat_scope.

(** ** Python values and dictionaries *)

(** The values of type [Any] that step parameters, variables and results
    carry. *)
Inductive PyVal : Type :=
| VNone
| VBool (b : bool)
| VInt (n : Z)
| VStr (s : string)
| VList (items : list PyVal)
| VDict (items : list (string * PyVal)).

(** A [Dict[str, V]]: association list in insertion order.  A dictionary
    built by Python has pairwise distinct keys. *)
Abbreviation PyDict V := (list (string * V)).

Fixpoint dict_get {V} (k : string) (d : PyDict V) : option V :=
  match d with
  | [] => None
  | (k', v) :: d' => if String.eqb k k' then Some v else dict_get k d'
  end.

(** [k in d] *)
Definition dict_mem {V} (k : string) (d : PyDict V) : bool :=
  match dict_get k d with Some _ => true | None => false end.

(** [d[k] = v]: an existing key keeps its position, a new key goes last. *)
Fixpoint dict_set {V} (k : string) (v : V) (d : PyDict V) : PyDict V :=
  match d with
  | [] => [(k, v)]
  | (k', v') :: d' =>
      if String.eqb k k' then (k, v) :: d' else (k', v') :: dict_set k v d'
  end.

(** [del d[k]] (for a key that is present; otherwise nothing changes). *)
Fixpoint dict_del {V} (k : string) (d : PyDict V) : PyDict V :=
  match d with
  | [] => []
  | (k', v') :: d' =>
      if String.eqb k k' then dict_del k d' else (k', v') :: dict_del k d'
  end.

(** [d.update(other)] and [{**d, **other}] *)
Definition dict_update {V} (d other : PyDict V) : PyDict V :=
  fold_left (fun acc kv => dict_set (fst kv) (snd kv) acc) other d.

Definition dict_keys {V} (d : PyDict V) : list string := map fst d.
Definition dict_values {V} (d : PyDict V) : list V := map snd d.

(** ** The pieces of [str] the engine uses *)

(** [s.startswith(c)] for a one-character prefix *)
Definition startswith (c : ascii) (s : string) : bool :=
  match s with
  | EmptyString => false
  | String c' _ => Ascii.eqb c' c
  end.

(** [s.endswith(c)] for a one-character suffix *)
Fixpoint endswith (c : ascii) (s : string) : bool :=
  match s with
  | EmptyString => false
  | String c' EmptyString => Ascii.eqb c' c
  | String _ s' => endswith c s'
  end.

(** [s[:-1]] *)
Fixpoint drop_last (s : string) : string :=
  match s with
  | EmptyString => EmptyString
  | String _ EmptyString => EmptyString
  | String c s' => String c (drop_last s')
  end.

(** [s[1:-1]] *)
Definition slice_1_m1 (s : string) : string :=
  match s with
  | EmptyString => EmptyString
  | String _ s' => drop_last s'
  end.

(** ** Data model of [mcp_workflows.py] *)

Inductive WorkflowStatus :=
| WF_PENDING | WF_RUNNING | WF_COMPLETED | WF_FAILED | WF_CANCELLED | WF_PAUSED.

Inductive StepStatus := WAITING | RUNNING | COMPLETED | FAILED | SKIPPED.

Global Instance StepStatus_eq_dec : EqDecision StepStatus.
Proof. solve_decision. Defined.
Global Instance WorkflowStatus_eq_dec : EqDecision WorkflowStatus.
Proof. solve_decision. Defined.

(** The [.value] of the two enumerations. *)
Definition WorkflowStatus_value (s : WorkflowStatus) : string :=
  match s with
  | WF_PENDING => "pending" | WF_RUNNING => "running"
  | WF_COMPLETED => "completed" | WF_FAILED => "failed"
  | WF_CANCELLED => "cancelled" | WF_PAUSED => "paused"
  end.

Definition StepStatus_value (s : StepStatus) : string :=
  match s with
  | WAITING => "waiting" | RUNNING => "running" | COMPLETED => "completed"
  | FAILED => "failed" | SKIPPED => "skipped"
  end.

(** A [datetime]; the clock is an oracle of the engine (see below). *)
Definition datetime := nat.

Record WorkflowContext := mkContext {
  variables : PyDict PyVal;
  step_results : PyDict PyVal;
  error_log : list string;
  start_time : option datetime;
  end_time : option datetime
}.

(** [WorkflowContext()] with its default factories. *)
Definition empty_context : WorkflowContext :=
  mkContext [] [] [] None None.

Record WorkflowStep := mkStep {
  step_id : string;
  tool : string;
  action : string;
  parameters : PyDict PyVal;
  dependencies : list string;
  conditions : list (PyDict PyVal);
  timeout : Z;
  retry_count : Z;
  on_success : option (PyDict PyVal);
  on_failure : option (PyDict PyVal);
  status : StepStatus;
  result : PyVal;
  error : option string;
  step_start_time : option datetime;
  step_end_time : option datetime
}.

(** ** Parameter resolution *)

(** The lookup of one [{name}] placeholder: variables first, then the
    results of earlier steps, otherwise the value is kept. *)
Definition resolve_placeholder (context : WorkflowContext) (value : PyVal)
    (var_name : string) : PyVal :=
  match dict_get var_name (variables context) with
  | Some v => v
  | None =>
      match dict_get var_name (step_results context) with
      | Some v => v
      | None => value
      end
  end.

(** [value.startswith('{') and value.endswith('}')] *)
Definition is_placeholder (s : string) : bool :=
  startswith "{"%char s && endswith "}"%char s.

(** The body of the loop of [_process_step_parameters]: what is stored under
    [key] for a given [value].  A nested dictionary is processed by the
    function itself; in a list only the items that are dictionaries are. *)
Fixpoint process_value (context : WorkflowContext) (value : PyVal) : PyVal :=
  match value with
  | VStr s =>
      if is_placeholder s
      then resolve_placeholder context value (slice_1_m1 s)
      else value
  | VDict d =>
      VDict (map (fun kv => let '(k, v) := kv in (k, process_value context v)) d)
  | VList l =>
      VList (map (fun item =>
                    match item with
                    | VDict d =>
                        VDict (map (fun kv =>
                                      let '(k, v) := kv in
                                      (k, process_value context v)) d)
                    | _ => item
                    end) l)
  | _ => value
  end.

Definition _process_step_parameters (params : PyDict PyVal)
    (context : WorkflowContext) : PyDict PyVal :=
  map (fun kv => let '(key, value) := kv in (key, process_value context value))
      params.

(** ** Exceptions and results *)

(** An exception: its class name and [str(e)]. *)
Record Exc := mkExc { exc_type : string; exc_msg : string }.

Definition str (e : Exc) : string := exc_msg e.

Inductive Result (A : Type) : Type :=
| Ok (a : A)
| Raise (e : Exc).
Arguments Ok {A} a.
Arguments Raise {A} e.

Definition is_ok {A} (r : Result A) : bool :=
  match r with Ok _ => true | Raise _ => false end.

(** ** Field updates of the mutable objects *)

Definition set_status (st : StepStatus) (s : WorkflowStep) : WorkflowStep :=
  mkStep (step_id s) (tool s) (action s) (parameters s) (dependencies s)
         (conditions s) (timeout s) (retry_count s) (on_success s)
         (on_failure s) st (result s) (error s) (step_start_time s)
         (step_end_time s).

Definition set_result (v : PyVal) (s : WorkflowStep) : WorkflowStep :=
  mkStep (step_id s) (tool s) (action s) (parameters s) (dependencies s)
         (conditions s) (timeout s) (retry_count s) (on_success s)
         (on_failure s) (status s) v (error s) (step_start_time s)
         (step_end_time s).

Definition set_error (e : option string) (s : WorkflowStep) : WorkflowStep :=
  mkStep (step_id s) (tool s) (action s) (parameters s) (dependencies s)
         (conditions s) (timeout s) (retry_count s) (on_success s)
         (on_failure s) (status s) (result s) e (step_start_time s)
         (step_end_time s).

Definition set_retry_count (n : Z) (s : WorkflowStep) : WorkflowStep :=
  mkStep (step_id s) (tool s) (action s) (parameters s) (dependencies s)
         (conditions s) (timeout s) n (on_success s)
         (on_failure s) (status s) (result s) (error s) (step_start_time s)
         (step_end_time s).

Definition set_step_start_time (t : option datetime) (s : WorkflowStep)
    : WorkflowStep :=
  mkStep (step_id s) (tool s) (action s) (parameters s) (dependencies s)
         (conditions s) (timeout s) (retry_count s) (on_success s)
         (on_failure s) (status s) (result s) (error s) t (step_end_time s).

Definition set_step_end_time (t : option datetime) (s : WorkflowStep)
    : WorkflowStep :=
  mkStep (step_id s) (tool s) (action s) (parameters s) (dependencies s)
         (conditions s) (timeout s) (retry_count s) (on_success s)
         (on_failure s) (status s) (result s) (error s) (step_start_time s) t.

Definition set_variables (vs : PyDict PyVal) (c : WorkflowContext)
    : WorkflowContext :=
  mkContext vs (step_results c) (error_log c) (start_time c) (end_time c).

Definition set_step_results (rs : PyDict PyVal) (c : WorkflowContext)
    : WorkflowContext :=
  mkContext (variables c) rs (error_log c) (start_time c) (end_time c).

(** [context.error_log.append(msg)] *)
Definition append_error_log (msg : string) (c : WorkflowContext)
    : WorkflowContext :=
  mkContext (variables c) (step_results c) (error_log c ++ [msg])
            (start_time c) (end_time c).

Definition set_start_time (t : option datetime) (c : WorkflowContext)
    : WorkflowContext :=
  mkContext (variables c) (step_results c) (error_log c) t (end_time c).

Definition set_end_time (t : option datetime) (c : WorkflowContext)
    : WorkflowContext :=
  mkContext (variables c) (step_results c) (error_log c) (start_time c) t.

(** ** The object store

    A [WorkflowStep] is a mutable object; lists of steps hold references.
    The store is a list of objects and a reference is a position in it;
    a new object goes to the end. *)
Abbreviation loc := nat.

Global Instance WorkflowStep_inhabited : Inhabited WorkflowStep :=
  populate (mkStep "" "" "" [] [] [] 0 0 None None WAITING VNone None None None).

Record Workflow := mkWorkflow {
  wf_id : string;
  name : string;
  description : string;
  steps : list loc;
  context : WorkflowContext;
  wf_status : WorkflowStatus;
  created_at : datetime;
  tags : list string;
  metadata : PyDict PyVal
}.

Definition set_wf_status (st : WorkflowStatus) (w : Workflow) : Workflow :=
  mkWorkflow (wf_id w) (name w) (description w) (steps w) (context w) st
             (created_at w) (tags w) (metadata w).

Definition set_context (c : WorkflowContext) (w : Workflow) : Workflow :=
  mkWorkflow (wf_id w) (name w) (description w) (steps w) c (wf_status w)
             (created_at w) (tags w) (metadata w).

(** The engine: its three dictionaries, and the store of the step objects
    its workflows refer to.  ([step_handlers] is never read.) *)
Record WorkflowEngine := mkEngine {
  active_workflows : PyDict Workflow;
  completed_workflows : PyDict Workflow;
  workflow_templates : PyDict Workflow;
  objects : list WorkflowStep
}.

(** ** [_copy_step] *)

(** [d.copy() if d else None]: an empty dictionary is falsy. *)
Definition copy_if_truthy (d : option (PyDict PyVal)) : option (PyDict PyVal) :=
  match d with
  | Some (kv :: d') => Some (kv :: d')
  | _ => None
  end.

(** The copy is built by the constructor: the fields that are not passed
    take their defaults ([status], [result], [error] and the two times). *)
Definition _copy_step (step : WorkflowStep) : WorkflowStep :=
  mkStep (step_id step) (tool step) (action step) (parameters step)
         (dependencies step) (conditions step) (timeout step)
         (retry_count step) (copy_if_truthy (on_success step))
         (copy_if_truthy (on_failure step))
         WAITING VNone None None None.

(** [[self._copy_step(step) for step in template.steps]]: every copy is a new
    object of the store. *)
Fixpoint copy_steps (template_steps : list loc) (h : list WorkflowStep)
    : list loc * list WorkflowStep :=
  match template_steps with
  | [] => ([], h)
  | l :: rest =>
      let '(ls, h') := copy_steps rest (h ++ [_copy_step (h !!! l)]) in
      (length h :: ls, h')
  end.

(** ** [_check_step_conditions] *)

(** The first condition of a known type decides.  [var_name in variables]
    raises [TypeError] when [var_name] is a list or a dictionary. *)
Fixpoint _check_step_conditions (conds : list (PyDict PyVal))
    (context : WorkflowContext) : Result bool :=
  match conds with
  | [] => Ok true
  | condition :: rest =>
      match dict_get "type" condition with
      | Some (VStr condition_type) =>
          if String.eqb condition_type "approval_required" then Ok true
          else if String.eqb condition_type "file_exists" then Ok true
          else if String.eqb condition_type "variable_exists" then
            match dict_get "variable" condition with
            | Some (VStr var_name) => Ok (dict_mem var_name (variables context))
            | Some (VList _) => Raise (mkExc "TypeError" "unhashable type: 'list'")
            | Some (VDict _) => Raise (mkExc "TypeError" "unhashable type: 'dict'")
            | _ => Ok false
            end
          else _check_step_conditions rest context
      | _ => _check_step_conditions rest context
      end
  end.

(** ** The engine

    The collaborators of the engine are oracles over a state of the outside
    world: the capability invoker (in the repository the mock
    [_simulate_mcp_call], which sleeps and answers from a table), the clock
    [datetime.now] and [uuid.uuid4].  [repr_list] is Python's rendering of a
    list of strings inside an f-string.  Log lines are not modelled. *)
Section Engine.

Context {World : Type}.
Variable invoke : string -> string -> PyDict PyVal -> World -> Result PyVal * World.
Variable now : World -> datetime * World.
Variable uuid4 : World -> string * World.
Variable repr_list : list string -> string.

(** What one run works on: the store, the context of the running workflow
    and the world. *)
Record RunState := mkRun {
  rs_heap : list WorkflowStep;
  rs_context : WorkflowContext;
  rs_world : World
}.

(** *** [_execute_step] *)
Definition _execute_step (l : loc) (σ : RunState) : Result PyVal * RunState :=
  let '(t0, w0) := now (rs_world σ) in
  let h0 := alter (fun s => set_step_start_time (Some t0) (set_status RUNNING s))
                  l (rs_heap σ) in
  let step := h0 !!! l in
  match _check_step_conditions (conditions step) (rs_context σ) with
  | Ok false =>
      (Ok VNone, mkRun (alter (set_status SKIPPED) l h0) (rs_context σ) w0)
  | Ok true =>
      let processed_params :=
        _process_step_parameters (parameters step) (rs_context σ) in
      let '(r, w1) := invoke (tool step) (action step) processed_params w0 in
      let '(t1, w2) := now w1 in
      (r, mkRun (alter (set_step_end_time (Some t1)) l h0) (rs_context σ) w2)
  | Raise e =>
      let '(t1, w1) := now w0 in
      (Raise e,
       mkRun (alter (set_step_end_time (Some t1)) l h0) (rs_context σ) w1)
  end.

(** *** [asyncio.gather] with [return_exceptions=True]

    The tasks of a batch are run one after the other, in the order of
    [ready_steps]; an exception of a task becomes its result. *)
Fixpoint gather (ready_steps : list loc) (σ : RunState)
    : list (Result PyVal) * RunState :=
  match ready_steps with
  | [] => ([], σ)
  | l :: rest =>
      let '(r, σ1) := _execute_step l σ in
      let '(rs, σ2) := gather rest σ1 in
      (r :: rs, σ2)
  end.

(** *** [_execute_workflow_steps] *)

(** The test of the first [for] loop. *)
Definition is_ready (h : list WorkflowStep) (completed_steps : gset string)
    (l : loc) : bool :=
  let step := h !!! l in
  negb (bool_decide (step_id step ∈ completed_steps))
  && bool_decide (status step = WAITING)
  && forallb (fun dep => bool_decide (dep ∈ completed_steps))
             (dependencies step).

Definition ready_steps_of (wsteps : list loc) (h : list WorkflowStep)
    (completed_steps : gset string) : list loc :=
  List.filter (is_ready h completed_steps) wsteps.

(** [[s for s in workflow.steps if s.id not in completed_steps]] *)
Definition remaining_steps_of (wsteps : list loc) (h : list WorkflowStep)
    (completed_steps : gset string) : list loc :=
  List.filter (fun l => negb (bool_decide (step_id (h !!! l) ∈ completed_steps)))
              wsteps.

Definition deadlock_message (h : list WorkflowStep) (remaining : list loc)
    : string :=
  "데드락 감지: 실행할 수 없는 단계들 - "
  +:+ repr_list (map (fun l => step_id (h !!! l)) remaining).

(** The last [for] loop, over the steps of the batch and their results.  It
    yields the new [completed_steps], or the exception it raises. *)
Fixpoint process_results (ready_steps : list loc) (results : list (Result PyVal))
    (completed_steps : gset string) (σ : RunState)
    : Result (gset string) * RunState :=
  match ready_steps, results with
  | l :: ready', r :: results' =>
      match r with
      | Raise e =>
          let h1 := alter (fun s => set_error (Some (str e)) (set_status FAILED s))
                          l (rs_heap σ) in
          let step := h1 !!! l in
          let c1 := append_error_log
                      ("Step " +:+ step_id step +:+ ": " +:+ str e)
                      (rs_context σ) in
          if (0 <? retry_count step)%Z then
            let h2 := alter (fun s => set_status WAITING
                                        (set_retry_count (retry_count s - 1)%Z s))
                            l h1 in
            process_results ready' results' completed_steps
                            (mkRun h2 c1 (rs_world σ))
          else
            (Raise e, mkRun h1 c1 (rs_world σ))
      | Ok v =>
          let h1 := alter (fun s => set_result v (set_status COMPLETED s))
                          l (rs_heap σ) in
          let step := h1 !!! l in
          let c1 := set_step_results
                      (dict_set (step_id step) v (step_results (rs_context σ)))
                      (rs_context σ) in
          process_results ready' results' (completed_steps ∪ {[step_id step]})
                          (mkRun h1 c1 (rs_world σ))
      end
  | _, _ => (Ok completed_steps, σ)
  end.

(** One turn of the [while] loop. *)
Inductive Turn :=
| Continue (completed_steps : gset string) (σ : RunState)
| Break (σ : RunState)
| Raised (e : Exc) (σ : RunState).

Definition loop_body (wsteps : list loc) (completed_steps : gset string)
    (σ : RunState) : Turn :=
  match ready_steps_of wsteps (rs_heap σ) completed_steps with
  | [] =>
      match remaining_steps_of wsteps (rs_heap σ) completed_steps with
      | [] => Break σ
      | remaining =>
          Raised (mkExc "RuntimeError" (deadlock_message (rs_heap σ) remaining)) σ
      end
  | ready_steps =>
      let '(results, σ1) := gather ready_steps σ in
      match process_results ready_steps results completed_steps σ1 with
      | (Ok completed', σ2) => Continue completed' σ2
      | (Raise e, σ2) => Raised e σ2
      end
  end.

(** The [while] loop; [None] when [fuel] turns were not enough. *)
Fixpoint _execute_workflow_steps (fuel : nat) (wsteps : list loc)
    (completed_steps : gset string) (σ : RunState)
    : option (Result unit * RunState) :=
  if size completed_steps <? length wsteps then
    match fuel with
    | O => None
    | S fuel' =>
        match loop_body wsteps completed_steps σ with
        | Continue completed' σ' =>
            _execute_workflow_steps fuel' wsteps completed' σ'
        | Break σ' => Some (Ok tt, σ')
        | Raised e σ' => Some (Raise e, σ')
        end
    end
  else Some (Ok tt, σ).

(** A number of turns that is always enough: every turn that goes on either
    completes a step or uses up one retry. *)
Definition attempts_left (s : WorkflowStep) : nat :=
  S (Z.to_nat (retry_count s)).

Definition run_fuel (wsteps : list loc) (h : list WorkflowStep) : nat :=
  S (list_sum (map (fun l => attempts_left (h !!! l)) wsteps)).

(** *** [execute_workflow] *)

(** The variables of a new run: [if parameters: variables.update(parameters)]
    on an empty dictionary. *)
Definition run_variables (parameters : option (PyDict PyVal)) : PyDict PyVal :=
  match parameters with
  | Some ps => dict_update [] ps
  | None => []
  end.

(** The part before [try]: the new instance with its copied steps, its
    variables and its start time; the store with the copies in it. *)
Definition instantiate (template : Workflow)
    (parameters : option (PyDict PyVal)) (h : list WorkflowStep) (w : World)
    : Workflow * list WorkflowStep * World :=
  let '(uid, w1) := uuid4 w in
  let '(isteps, h1) := copy_steps (steps template) h in
  let '(created, w2) := now w1 in
  let '(t0, w3) := now w2 in
  let c0 := set_start_time (Some t0)
              (set_variables (run_variables parameters) empty_context) in
  (mkWorkflow uid (name template) (description template) isteps c0
              WF_RUNNING created (tags template) (metadata template),
   h1, w3).

Definition execute_workflow (workflow_id : string)
    (parameters : option (PyDict PyVal)) (engine : WorkflowEngine) (w : World)
    : option (Result string * WorkflowEngine * World) :=
  match dict_get workflow_id (workflow_templates engine) with
  | None =>
      Some (Raise (mkExc "ValueError"
                     ("워크플로우 템플릿 '" +:+ workflow_id
                      +:+ "'를 찾을 수 없습니다")),
            engine, w)
  | Some template =>
      let '(instance, h1, w3) :=
        instantiate template parameters (objects engine) w in
      let uid := wf_id instance in
      let active1 := dict_set uid instance (active_workflows engine) in
      match _execute_workflow_steps (run_fuel (steps instance) h1)
              (steps instance) ∅ (mkRun h1 (context instance) w3) with
      | None => None
      | Some (r, σ) =>
          let '(st, c1) :=
            match r with
            | Ok _ => (WF_COMPLETED, rs_context σ)
            | Raise e => (WF_FAILED, append_error_log (str e) (rs_context σ))
            end in
          let '(t1, w4) := now (rs_world σ) in
          let final := set_wf_status st (set_context (set_end_time (Some t1) c1)
                                                     instance) in
          Some (Ok uid,
                mkEngine (dict_del uid active1)
                         (dict_set uid final (completed_workflows engine))
                         (workflow_templates engine)
                         (rs_heap σ),
                w4)
      end
  end.

(** The state at the head of the [while] loop after [n] full turns, when the
    loop gets that far. *)
Fixpoint loop_head (n : nat) (wsteps : list loc) (completed_steps : gset string)
    (σ : RunState) : option (gset string * RunState) :=
  match n with
  | O => Some (completed_steps, σ)
  | S n' =>
      if size completed_steps <? length wsteps then
        match loop_body wsteps completed_steps σ with
        | Continue completed' σ' => loop_head n' wsteps completed' σ'
        | _ => None
        end
      else None
  end.

End Engine.

(** ** Status queries *)

(** [sum(1 for s in workflow.steps if s.status == st)] *)
Definition count_status (st : StepStatus) (h : list WorkflowStep)
    (wsteps : list loc) : nat :=
  length (List.filter (fun l => bool_decide (status (h !!! l) = st)) wsteps).

Record StepDetail := mkStepDetail {
  sd_id : string;
  sd_tool : string;
  sd_action : string;
  sd_status : string;
  sd_error : option string
}.

(** The dictionary that [get_workflow_status] returns.  Times stand for
    their [isoformat()] rendering. *)
Record StatusReport := mkStatusReport {
  sr_id : string;
  sr_name : string;
  sr_status : string;
  sr_created_at : datetime;
  sr_start_time : option datetime;
  sr_end_time : option datetime;
  sr_total_steps : nat;
  sr_completed_steps : nat;
  sr_failed_steps : nat;
  sr_step_details : list StepDetail;
  sr_error_log : list string
}.

(** [a.get(k) or b.get(k)]: a [Workflow] object is always truthy. *)
Definition get_or {V} (k : string) (a b : PyDict V) : option V :=
  match dict_get k a with
  | Some v => Some v
  | None => dict_get k b
  end.

Definition get_workflow_status (engine : WorkflowEngine) (workflow_id : string)
    : option StatusReport :=
  match get_or workflow_id (active_workflows engine)
               (completed_workflows engine) with
  | None => None
  | Some workflow =>
      let h := objects engine in
      Some (mkStatusReport
              (wf_id workflow) (name workflow)
              (WorkflowStatus_value (wf_status workflow))
              (created_at workflow)
              (start_time (context workflow))
              (end_time (context workflow))
              (length (steps workflow))
              (count_status COMPLETED h (steps workflow))
              (count_status FAILED h (steps workflow))
              (map (fun l =>
                      let step := h !!! l in
                      mkStepDetail (step_id step) (tool step) (action step)
                                   (StepStatus_value (status step)) (error step))
                   (steps workflow))
              (error_log (context workflow)))
  end.

Record Listing := mkListing {
  li_id : string;
  li_name : string;
  li_status : string;
  li_created_at : datetime;
  li_tags : list string;
  li_progress : Q
}.

(** [a / b] on two [int]s: the quotient, or [ZeroDivisionError]. *)
Definition true_div (a b : nat) : Result Q :=
  match b with
  | O => Raise (mkExc "ZeroDivisionError" "division by zero")
  | S _ => Ok (Qmake (Z.of_nat a) (Pos.of_nat b))
  end.

(** The loop of [list_workflows] over [all_workflows.values()]. *)
Fixpoint list_entries (status_filter : option WorkflowStatus)
    (h : list WorkflowStep) (workflows : list Workflow)
    : Result (list Listing) :=
  match workflows with
  | [] => Ok []
  | workflow :: rest =>
      if match status_filter with
         | None => true
         | Some f => bool_decide (wf_status workflow = f)
         end
      then
        match true_div (count_status COMPLETED h (steps workflow))
                       (length (steps workflow)) with
        | Raise e => Raise e
        | Ok progress =>
            match list_entries status_filter h rest with
            | Raise e => Raise e
            | Ok entries =>
                Ok (mkListing (wf_id workflow) (name workflow)
                              (WorkflowStatus_value (wf_status workflow))
                              (created_at workflow) (tags workflow) progress
                    :: entries)
            end
        end
      else list_entries status_filter h rest
  end.

(** [sorted(workflows, key=created_at, reverse=True)]: stable, latest first. *)
Fixpoint insert_latest_first (x : Listing) (l : list Listing) : list Listing :=
  match l with
  | [] => [x]
  | y :: l' =>
      if li_created_at y <=? li_created_at x then x :: y :: l'
      else y :: insert_latest_first x l'
  end.

Definition sorted_latest_first (l : list Listing) : list Listing :=
  fold_right insert_latest_first [] l.

Definition list_workflows (engine : WorkflowEngine)
    (status_filter : option WorkflowStatus) : Result (list Listing) :=
  let all_workflows :=
    dict_update (active_workflows engine) (completed_workflows engine) in
  match list_entries status_filter (objects engine)
                     (dict_values all_workflows) with
  | Raise e => Raise e
  | Ok workflows => Ok (sorted_latest_first workflows)
  end.

(** ** Pipeline ordering: [MetaAgentSystem._topological_sort] *)

(** [s.split(sep)] for a one-character separator *)
Fixpoint str_split (sep : ascii) (s : string) : list string :=
  match s with
  | EmptyString => [EmptyString]
  | String c s' =>
      if Ascii.eqb c sep then EmptyString :: str_split sep s'
      else match str_split sep s' with
           | [] => [String c EmptyString]
           | w :: ws => String c w :: ws
           end
  end.

Definition KeyError (k : string) : Exc := mkExc "KeyError" k.

Section TopologicalSort.

(** Python's [str.strip]. *)
Variable strip : string -> string.

(** The inner loop of the graph construction, over the targets of one
    source. *)
Fixpoint add_targets (agents : list string) (source : string)
    (targets : list string)
    (graph : gmap string (list string)) (in_degree : gmap string Z)
    : Result (gmap string (list string) * gmap string Z) :=
  match targets with
  | [] => Ok (graph, in_degree)
  | target0 :: rest =>
      let target := strip target0 in
      if bool_decide (target ∈ agents) then
        match graph !! source with
        | None => Raise (KeyError source)
        | Some out =>
            match in_degree !! target with
            | None => Raise (KeyError target)
            | Some d =>
                add_targets agents source rest
                            (<[source := out ++ [target]]> graph)
                            (<[target := (d + 1)%Z]> in_degree)
            end
        end
      else add_targets agents source rest graph in_degree
  end.

(** The loop over [data_flow.items()]. *)
Fixpoint build_graph (agents : list string) (data_flow : PyDict string)
    (graph : gmap string (list string)) (in_degree : gmap string Z)
    : Result (gmap string (list string) * gmap string Z) :=
  match data_flow with
  | [] => Ok (graph, in_degree)
  | (source, targets) :: rest =>
      if bool_decide (source ∈ agents) then
        match add_targets agents source (str_split ","%char targets) graph in_degree with
        | Raise e => Raise e
        | Ok (graph', in_degree') => build_graph agents rest graph' in_degree'
        end
      else build_graph agents rest graph in_degree
  end.

(** The loop [for neighbor in graph[current]]. *)
Fixpoint visit_neighbors (neighbors : list string) (in_degree : gmap string Z)
    (queue : list string) : Result (gmap string Z * list string) :=
  match neighbors with
  | [] => Ok (in_degree, queue)
  | neighbor :: rest =>
      match in_degree !! neighbor with
      | None => Raise (KeyError neighbor)
      | Some d =>
          let in_degree' := <[neighbor := (d - 1)%Z]> in_degree in
          if (d - 1 =? 0)%Z
          then visit_neighbors rest in_degree' (queue ++ [neighbor])
          else visit_neighbors rest in_degree' queue
      end
  end.

(** The loop [while queue]; [None] when [fuel] turns were not enough. *)
Fixpoint sort_loop (fuel : nat) (graph : gmap string (list string))
    (in_degree : gmap string Z) (queue result : list string)
    : option (Result (list string)) :=
  match queue with
  | [] => Some (Ok result)
  | current :: queue' =>
      match fuel with
      | O => None
      | S fuel' =>
          match graph !! current with
          | None => Some (Raise (KeyError current))
          | Some neighbors =>
              match visit_neighbors neighbors in_degree queue' with
              | Raise e => Some (Raise e)
              | Ok (in_degree', queue'') =>
                  sort_loop fuel' graph in_degree' queue'' (result ++ [current])
              end
          end
      end
  end.

(** [[agent for agent in agents if in_degree[agent] == 0]] *)
Fixpoint initial_queue (agents : list string) (in_degree : gmap string Z)
    : Result (list string) :=
  match agents with
  | [] => Ok []
  | agent :: rest =>
      match in_degree !! agent with
      | None => Raise (KeyError agent)
      | Some d =>
          match initial_queue rest in_degree with
          | Raise e => Raise e
          | Ok queue => Ok (if (d =? 0)%Z then agent :: queue else queue)
          end
      end
  end.

Definition _topological_sort (agents : list string) (data_flow : PyDict string)
    : option (Result (list string)) :=
  let in_degree : gmap string Z := list_to_map (map (fun agent => (agent, 0%Z)) agents) in
  let graph : gmap string (list string) :=
    list_to_map (map (fun agent => (agent, [])) agents) in
  match build_graph agents data_flow graph in_degree with
  | Raise e => Some (Raise e)
  | Ok (graph, in_degree) =>
      match initial_queue agents in_degree with
      | Raise e => Some (Raise e)
      | Ok queue =>
          match sort_loop (length agents) graph in_degree queue [] with
          | None => None
          | Some (Raise e) => Some (Raise e)
          | Some (Ok result) =>
              Some (Ok (if length result =? length agents then result else agents))
          end
      end
  end.

End TopologicalSort.

(** ** The resolver as the specification words it

    "Nested mappings and sequences are resolved recursively": every
    placeholder string is replaced, at any depth, also as an item of a
    list.  Compared below with [_process_step_parameters]. *)
Fixpoint resolve_deep (context : WorkflowContext) (value : PyVal) : PyVal :=
  match value with
  | VStr s =>
      if is_placeholder s
      then resolve_placeholder context value (slice_1_m1 s)
      else value
  | VDict d =>
      VDict (map (fun kv => let '(k, v) := kv in (k, resolve_deep context v)) d)
  | VList l => VList (map (resolve_deep context) l)
  | _ => value
  end.

Definition resolve_parameters_spec (params : PyDict PyVal)
    (context : WorkflowContext) : PyDict PyVal :=
  map (fun kv => let '(key, value) := kv in (key, resolve_deep context value))
      params.

(** What [_process_step_parameters] does to an item of a list. *)
Definition process_item (context : WorkflowContext) (item : PyVal) : PyVal :=
  match item with
  | VDict d => VDict (_process_step_parameters d context)
  | _ => item
  end.

(** A value that the resolver passes through: not a dictionary, not a list,
    not a placeholder string. *)
Definition passes_through (value : PyVal) : bool :=
  match value with
  | VStr s => negb (is_placeholder s)
  | VDict _ | VList _ => false
  | _ => true
  end.

(** * Properties *)

(** ** Dictionaries *)

Lemma dict_get_map_values {V W} (f : V -> W) (k : string) (d : PyDict V) :
  dict_get k (map (fun kv => let '(k', v) := kv in (k', f v)) d)
  = f <$> dict_get k d.
Proof.
  induction d as [|[k' v] d IH]; simpl; [done|].
  destruct (String.eqb k k'); [done|apply IH].
Qed.

Lemma dict_get_set_eq {V} (k : string) (v : V) (d : PyDict V) :
  dict_get k (dict_set k v d) = Some v.
Proof.
  induction d as [|[k' v'] d IH]; simpl.
  - by rewrite String.eqb_refl.
  - destruct (String.eqb k k') eqn:E; simpl; rewrite ?E, ?String.eqb_refl; done.
Qed.

Lemma dict_get_set_ne {V} (k k0 : string) (v : V) (d : PyDict V) :
  k0 <> k -> dict_get k0 (dict_set k v d) = dict_get k0 d.
Proof.
  intros Hne. induction d as [|[k' v'] d IH]; simpl.
  - apply String.eqb_neq in Hne. by rewrite Hne.
  - destruct (String.eqb k k') eqn:E; simpl.
    + apply String.eqb_eq in E. subst k'.
      apply String.eqb_neq in Hne. by rewrite Hne.
    + by rewrite IH.
Qed.

Lemma dict_get_del_eq {V} (k : string) (d : PyDict V) :
  dict_get k (dict_del k d) = None.
Proof.
  induction d as [|[k' v'] d IH]; simpl; [done|].
  destruct (String.eqb k k') eqn:E; simpl; [done|]. by rewrite E.
Qed.

Lemma dict_mem_set {V} (k k0 : string) (v : V) (d : PyDict V) :
  dict_mem k0 (dict_set k v d) = true <-> k0 = k \/ dict_mem k0 d = true.
Proof.
  unfold dict_mem. destruct (decide (k0 = k)) as [->|Hne].
  - rewrite dict_get_set_eq. tauto.
  - rewrite dict_get_set_ne by done. split; [tauto|]. by intros [?|?].
Qed.

(** ** Placeholder strings *)

Lemma endswith_app_char (c : ascii) (s : string) :
  endswith c (s +:+ String c EmptyString) = true.
Proof.
  induction s as [|a s IH]; simpl.
  - apply Ascii.eqb_refl.
  - rewrite IH. destruct (s +:+ String c ""); [|done].
    simpl in IH. discriminate.
Qed.

Lemma drop_last_app_char (c : ascii) (s : string) :
  drop_last (s +:+ String c EmptyString) = s.
Proof.
  induction s as [|a s IH]; simpl; [done|].
  rewrite IH. destruct s; simpl; done.
Qed.

Lemma is_placeholder_braces (name : string) :
  is_placeholder ("{" +:+ name +:+ "}") = true.
Proof.
  unfold is_placeholder. simpl.
  apply endswith_app_char with (s := String "{" name).
Qed.

Lemma slice_braces (name : string) :
  slice_1_m1 ("{" +:+ name +:+ "}") = name.
Proof. simpl. apply drop_last_app_char. Qed.

(** ** The parameter resolver *)

Lemma process_value_str (context : WorkflowContext) (s : string) :
  process_value context (VStr s)
  = if is_placeholder s
    then resolve_placeholder context (VStr s) (slice_1_m1 s)
    else VStr s.
Proof. reflexivity. Qed.

Lemma process_value_dict (context : WorkflowContext) (d : PyDict PyVal) :
  process_value context (VDict d) = VDict (_process_step_parameters d context).
Proof. reflexivity. Qed.

Lemma process_value_list (context : WorkflowContext) (l : list PyVal) :
  process_value context (VList l) = VList (map (process_item context) l).
Proof.
  reflexivity.
Qed.

Lemma process_value_passes (context : WorkflowContext) (v : PyVal) :
  passes_through v = true -> process_value context v = v.
Proof.
  destruct v; simpl; try done.
  by intros ->%negb_true_iff.
Qed.

Lemma process_parameters_get (params : PyDict PyVal)
    (context : WorkflowContext) (key : string) :
  dict_get key (_process_step_parameters params context)
  = process_value context <$> dict_get key params.
Proof. apply dict_get_map_values. Qed.

(** C4.  A parameter whose value is the string [{name}] is stored, under the
    same key, as the variable [name] when there is one, otherwise as the
    result of the step [name] when there is one, otherwise as the string
    itself; the resolver is a total function, it has no error result. *)
Theorem placeholder_resolution (params : PyDict PyVal)
    (context : WorkflowContext) (key name : string) :
  dict_get key params = Some (VStr ("{" +:+ name +:+ "}")) ->
  dict_get key (_process_step_parameters params context)
  = Some match dict_get name (variables context) with
         | Some v => v
         | None =>
             match dict_get name (step_results context) with
             | Some v => v
             | None => VStr ("{" +:+ name +:+ "}")
             end
         end.
Proof.
  intros Hget. rewrite process_parameters_get, Hget.
  cbn [fmap option_fmap option_map]. f_equal.
  rewrite process_value_str, is_placeholder_braces, slice_braces. reflexivity.
Qed.

(** The three cases of C4 on the example of the specification: a variable,
    a step result shadowed by no variable, and a name that is neither. *)
Lemma placeholder_resolution_witness :
  let context :=
    mkContext [("town", VStr "Seoul"); ("n", VInt 3)]
              [("search_repo", VList [VInt 1]); ("town", VStr "Busan")]
              [] None None in
  let params :=
    [("q", VStr "{town}"); ("r", VStr "{search_repo}");
     ("m", VStr "{missing}"); ("k", VStr "{n}")] in
  dict_get "q" (_process_step_parameters params context) = Some (VStr "Seoul")
  /\ dict_get "r" (_process_step_parameters params context)
     = Some (VList [VInt 1])
  /\ dict_get "m" (_process_step_parameters params context)
     = Some (VStr "{missing}")
  /\ dict_get "k" (_process_step_parameters params context) = Some (VInt 3).
Proof.
  intros context params. refine (conj _ (conj _ (conj _ _))).
  - exact (placeholder_resolution params context "q" "town" eq_refl).
  - exact (placeholder_resolution params context "r" "search_repo" eq_refl).
  - exact (placeholder_resolution params context "m" "missing" eq_refl).
  - exact (placeholder_resolution params context "k" "n" eq_refl).
Defined.




(** ** The object store *)

(** A field that an update [f] of one object leaves alone is the same in the
    whole store. *)
Lemma alter_field {A} (g : WorkflowStep -> A) (f : WorkflowStep -> WorkflowStep)
    (l l' : loc) (h : list WorkflowStep) :
  (forall s, g (f s) = g s) -> g (alter f l h !!! l') = g (h !!! l').
Proof.
  intros Hf. rewrite list_lookup_total_alter.
  destruct (decide _) as [[-> _]|_]; [apply Hf|done].
Qed.

(** The fields of a step that no code of the engine assigns. *)
Definition fixed_fields (s : WorkflowStep) :=
  (step_id s, dependencies s, (tool s, action s, parameters s, conditions s)).

(** Closes the goals that say that updates of objects with [alter] leave
    alone the size of the store, a field, or another object. *)
Ltac store_frame :=
  simpl;
  first [ by rewrite ?length_alter
        | intros ?; by rewrite ?alter_field
        | intros ? ?; by rewrite ?list_lookup_alter_ne by done ].

Lemma lookup_total_eq (h h' : list WorkflowStep) (l : loc) :
  h' !! l = h !! l -> h' !!! l = h !!! l.
Proof. intros H. by rewrite !list_lookup_total_alt, H. Qed.

(** The entry that a failed attempt of a step leaves in the error log. *)
Definition step_error_entry (id : string) (e : Exc) : string :=
  "Step " +:+ id +:+ ": " +:+ str e.

Lemma list_sum_map_lt {A} (f g : A -> nat) (l : list A) :
  (forall x, x ∈ l -> f x <= g x) ->
  (exists x, x ∈ l /\ f x < g x) ->
  list_sum (map f l) < list_sum (map g l).
Proof.
  intros Hle (x & Hx & Hlt).
  assert (Hall : forall k : list A, (forall y, y ∈ k -> f y <= g y) ->
                   list_sum (map f k) <= list_sum (map g k)).
  { induction k as [|y k IH]; intros Hk; simpl; [lia|].
    specialize (Hk y (list_elem_of_here _ _)) as Hy.
    specialize (IH (fun z Hz => Hk z (list_elem_of_further _ _ _ Hz))). lia. }
  induction l as [|y l IH]; [by apply elem_of_nil in Hx|].
  simpl. apply elem_of_cons in Hx as [->|Hx].
  - specialize (Hall l (fun z Hz => Hle z (list_elem_of_further _ _ _ Hz))). lia.
  - specialize (Hle y (list_elem_of_here _ _)) as Hy.
    specialize (IH (fun z Hz => Hle z (list_elem_of_further _ _ _ Hz)) Hx). lia.
Qed.

Lemma size_lt_length (c : gset string) (ids : list string) :
  (forall x, x ∈ c -> x ∈ ids) ->
  (exists x, x ∈ ids /\ x ∉ c) ->
  size c < length ids.
Proof.
  intros Hsub (x & Hx & Hnx).
  assert (Hm : elements c ⊆+ ids).
  { apply NoDup_submseteq; [apply NoDup_elements|].
    intros y Hy. apply Hsub. by apply elem_of_elements. }
  pose proof (submseteq_length _ _ Hm) as Hlen.
  unfold size, set_size. simpl.
  destruct (decide (length (elements c) = length ids)) as [Heq|]; [|lia].
  exfalso. apply Hnx. apply elem_of_elements.
  apply submseteq_length_Permutation in Hm; [|lia]. by rewrite Hm.
Qed.

(** ** Copies of steps *)

Lemma copy_steps_spec (ts : list loc) (h : list WorkflowStep)
    (ls : list loc) (h' : list WorkflowStep) :
  copy_steps ts h = (ls, h') ->
  ls = seq (length h) (length ts)
  /\ length h' = length h + length ts
  /\ (forall l, l < length h -> h' !! l = h !! l)
  /\ (forall l, l ∈ ls -> status (h' !!! l) = WAITING)
  /\ ((forall l, l ∈ ts -> l < length h) ->
      forall i lt, ts !! i = Some lt ->
        h' !!! (length h + i) = _copy_step (h !!! lt)).
Proof.
  revert h ls h'. induction ts as [|t ts IH]; intros h ls h'; simpl.
  { intros [= <- <-]. split; [done|]. split; [lia|]. split; [done|].
    split; [by intros l ?%elem_of_nil|]. intros _ i lt. by rewrite lookup_nil. }
  destruct (copy_steps ts _) as [ls0 h0] eqn:E. intros [= <- <-].
  apply IH in E as (-> & Hlen & Hpre & Hst & Hcopy).
  rewrite length_app in *. simpl in *.
  assert (Hnew : h0 !!! length h = _copy_step (h !!! t)).
  { rewrite (lookup_total_eq _ _ _ (Hpre (length h) ltac:(lia))).
    by rewrite list_lookup_total_middle. }
  split; [by rewrite Nat.add_1_r|]. split; [lia|]. split; [|split].
  - intros l Hl. rewrite Hpre by lia. by apply lookup_app_l.
  - intros l [->|Hl]%elem_of_cons; [by rewrite Hnew|by apply Hst].
  - intros Hb [|i] lt; simpl.
    + intros [= <-]. by rewrite Nat.add_0_r.
    + intros Hi. replace (length h + S i) with (length h + 1 + i) by lia.
      rewrite (Hcopy (fun l Hl => Nat.lt_lt_add_r _ _ 1
                                    (Hb l (list_elem_of_further _ _ _ Hl)))
                     i lt Hi).
      f_equal. apply lookup_total_app_l. apply Hb.
      right. by eapply list_elem_of_lookup_2.
Qed.

Section EngineProperties.

Context {World : Type}.
Variable invoke : string -> string -> PyDict PyVal -> World -> Result PyVal * World.
Variable now : World -> datetime * World.
Variable uuid4 : World -> string * World.
Variable repr_list : list string -> string.

Local Abbreviation RunState := (@RunState World).

(** What a run leaves alone between two states: the size of the store, the
    fixed fields of every object. *)
Definition same_shape (σ σ' : RunState) : Prop :=
  length (rs_heap σ') = length (rs_heap σ)
  /\ forall l, fixed_fields (rs_heap σ' !!! l) = fixed_fields (rs_heap σ !!! l).

Lemma same_shape_refl σ : same_shape σ σ.
Proof. by split. Qed.

Lemma same_shape_trans σ1 σ2 σ3 :
  same_shape σ1 σ2 -> same_shape σ2 σ3 -> same_shape σ1 σ3.
Proof.
  intros [H1 H2] [H3 H4]. split; [congruence|].
  intros l. by rewrite H4, H2.
Qed.

Lemma execute_step_spec (l : loc) (σ σ' : RunState) (r : Result PyVal) :
  _execute_step invoke now l σ = (r, σ') ->
  rs_context σ' = rs_context σ
  /\ same_shape σ σ'
  /\ (forall l', l' <> l -> rs_heap σ' !! l' = rs_heap σ !! l')
  /\ (forall l', retry_count (rs_heap σ' !!! l') = retry_count (rs_heap σ !!! l')).
Proof.
  unfold _execute_step. destruct (now (rs_world σ)) as [t0 w0].
  destruct (_check_step_conditions _ _) as [[|]|e];
    [destruct (invoke _ _ _ _) as [r1 w1]; destruct (now w1) as [t1 w2]
    | | destruct (now w0) as [t1 w1]];
    intros [= <- <-]; simpl;
    (split; [done|split; [split|split]]); store_frame.
Qed.



Lemma gather_spec (ready : list loc) (σ σ' : RunState)
    (results : list (Result PyVal)) :
  gather invoke now ready σ = (results, σ') ->
  rs_context σ' = rs_context σ
  /\ same_shape σ σ'
  /\ (forall l', l' ∉ ready -> rs_heap σ' !! l' = rs_heap σ !! l')
  /\ (forall l', retry_count (rs_heap σ' !!! l') = retry_count (rs_heap σ !!! l'))
  /\ length results = length ready.
Proof.
  revert σ σ' results. induction ready as [|l ready IH]; intros σ σ' results.
  - intros [= <- <-]. by repeat split.
  - simpl. destruct (_execute_step _ _ l σ) as [r σ1] eqn:E1.
    destruct (gather _ _ ready σ1) as [rs σ2] eqn:E2.
    intros [= <- <-].
    apply execute_step_spec in E1 as (Hc1 & Hs1 & Hf1 & Hr1).
    apply IH in E2 as (Hc2 & Hs2 & Hf2 & Hr2 & Hlen).
    split; [congruence|]. split; [by eapply same_shape_trans|].
    split; [|split].
    + intros l' [Hne Hnin]%not_elem_of_cons. by rewrite Hf2, Hf1.
    + intros l'. by rewrite Hr2, Hr1.
    + simpl. by rewrite Hlen.
Qed.

(** What the last loop of a batch leaves alone, whatever its outcome. *)
Lemma process_results_frame (ready : list loc) (results : list (Result PyVal))
    (c : gset string) (σ σ' : RunState) (out : Result (gset string)) :
  process_results ready results c σ = (out, σ') ->
  same_shape σ σ'
  /\ rs_world σ' = rs_world σ
  /\ variables (rs_context σ') = variables (rs_context σ)
  /\ (forall l', l' ∉ ready -> rs_heap σ' !! l' = rs_heap σ !! l')
  /\ (forall k, dict_mem k (step_results (rs_context σ)) = true ->
             dict_mem k (step_results (rs_context σ')) = true)
  /\ (forall m, m ∈ error_log (rs_context σ) -> m ∈ error_log (rs_context σ')).
Proof.
  revert results c σ. induction ready as [|l ready IH]; intros results c σ.
  - simpl. intros [= <- <-]. split; [apply same_shape_refl|]. done.
  - destruct results as [|r results].
    { simpl. intros [= <- <-]. split; [apply same_shape_refl|]. done. }
    simpl. destruct r as [v|e].
    + intros (Hs & Hw & Hv & Hf & Hk & Hm)%IH. simpl in *.
      split; [|split; [done|split; [done|split; [|split; [|done]]]]].
      * eapply same_shape_trans; [|exact Hs]. split; store_frame.
      * intros l' [Hne Hnin]%not_elem_of_cons.
        rewrite Hf by done. simpl. by rewrite list_lookup_alter_ne.
      * intros k Hk0. apply Hk. apply dict_mem_set. by right.
    + destruct (_ <? _)%Z.
      * intros (Hs & Hw & Hv & Hf & Hk & Hm)%IH. simpl in *.
        split; [|split; [done|split; [done|split; [|split; [done|]]]]].
        -- eapply same_shape_trans; [|exact Hs]. split; store_frame.
        -- intros l' [Hne Hnin]%not_elem_of_cons.
           rewrite Hf by done. simpl. by rewrite !list_lookup_alter_ne.
        -- intros m Hm0. apply Hm. apply elem_of_app. by left.
      * intros [= <- <-]. simpl.
        split; [|split; [done|split; [done|split; [|split; [done|]]]]].
        -- split; store_frame.
        -- intros l' [Hne Hnin]%not_elem_of_cons.
           by rewrite !list_lookup_alter_ne.
        -- intros m Hm0. apply elem_of_app. by left.
Qed.



(** The last loop of a batch when it raises nothing: a step whose result is
    a value is completed, a step whose result is an exception had a retry
    left and waits again. *)
Lemma process_results_ok (ready : list loc) (results : list (Result PyVal))
    (c c' : gset string) (σ σ' : RunState) :
  NoDup ready ->
  (forall l, l ∈ ready -> l < length (rs_heap σ)) ->
  process_results ready results c σ = (Ok c', σ') ->
  c ⊆ c'
  /\ (forall i l r, ready !! i = Some l -> results !! i = Some r ->
        let s := rs_heap σ !!! l in
        let s' := rs_heap σ' !!! l in
        match r with
        | Ok v =>
            status s' = COMPLETED /\ step_id s ∈ c'
            /\ dict_mem (step_id s) (step_results (rs_context σ')) = true
            /\ retry_count s' = retry_count s
        | Raise e =>
            status s' = WAITING /\ (0 < retry_count s)%Z
            /\ retry_count s' = (retry_count s - 1)%Z
            /\ step_error_entry (step_id s) e ∈ error_log (rs_context σ')
        end)
  /\ (forall id, id ∈ c' ->
        id ∈ c \/ exists i l v, ready !! i = Some l /\ results !! i = Some (Ok v)
                              /\ id = step_id (rs_heap σ !!! l)).
Proof.
  revert results c σ. induction ready as [|l ready IH]; intros results c σ Hnd Hb.
  { simpl. intros [= <- <-]. split; [done|]. split; [|by left].
    intros i l r Hi. by rewrite lookup_nil in Hi. }
  destruct results as [|r results].
  { simpl. intros [= <- <-]. split; [done|]. split; [|by left].
    intros i l0 r _ Hi. by rewrite lookup_nil in Hi. }
  apply NoDup_cons in Hnd as [Hnin Hnd].
  assert (Hl : l < length (rs_heap σ)) by (apply Hb; left).
  simpl. destruct r as [v|e].
  - intros Hpr.
    pose proof (process_results_frame _ _ _ _ _ _ Hpr)
      as (Hs & Hw & Hv & Hf & Hk & Hm).
    apply IH in Hpr as (Hsub & Hidx & Hnew); [|done|]; cycle 1.
    { simpl. intros l0 Hl0. rewrite length_alter. apply Hb. by right. }
    simpl in *. rewrite alter_field in * by done.
    split; [etrans; [apply union_subseteq_l|exact Hsub]|]. split.
    + intros [|i] l0 r; simpl.
      * intros [= <-] [= <-].
        rewrite (lookup_total_eq _ _ _ (Hf l Hnin)).
        rewrite list_lookup_total_alter_eq by done. simpl.
        split; [done|].
        split; [apply Hsub, elem_of_union; right; by apply elem_of_singleton|].
        split; [|done].
        apply Hk. apply dict_mem_set. by left.
      * intros Hi Hr. specialize (Hidx i l0 r Hi Hr).
        assert (l ≠ l0) by (intros ->; apply Hnin; by eapply list_elem_of_lookup_2).
        by rewrite list_lookup_total_alter_ne in Hidx.
    + intros id [Hid|(i & l0 & v0 & Hi & Hr & ->)]%Hnew.
      * apply elem_of_union in Hid as [?|Hid]; [by left|].
        apply elem_of_singleton in Hid as ->.
        right. by exists 0, l, v.
      * right. exists (S i), l0, v0. split; [done|]. split; [done|].
        assert (l ≠ l0) by (intros ->; apply Hnin; by eapply list_elem_of_lookup_2).
        by rewrite list_lookup_total_alter_ne.
  - destruct (0 <? _)%Z eqn:Hretry; [|done].
    intros Hpr.
    pose proof (process_results_frame _ _ _ _ _ _ Hpr)
      as (Hs & Hw & Hv & Hf & Hk & Hm).
    apply IH in Hpr as (Hsub & Hidx & Hnew); [|done|]; cycle 1.
    { simpl. intros l0 Hl0. rewrite !length_alter. apply Hb. by right. }
    simpl in *. rewrite alter_field in Hretry by done.
    apply Z.ltb_lt in Hretry.
    split; [done|]. split.
    + intros [|i] l0 r; simpl.
      * intros [= <-] [= <-].
        rewrite (lookup_total_eq _ _ _ (Hf l Hnin)).
        rewrite !list_lookup_total_alter_eq by (by rewrite ?length_alter).
        simpl. split; [done|]. split; [done|]. split; [done|].
        apply Hm. apply elem_of_app. right.
        rewrite alter_field by done. by left.
      * intros Hi Hr. specialize (Hidx i l0 r Hi Hr).
        assert (l ≠ l0) by (intros ->; apply Hnin; by eapply list_elem_of_lookup_2).
        by rewrite !list_lookup_total_alter_ne in Hidx.
    + intros id [Hid|(i & l0 & v0 & Hi & Hr & ->)]%Hnew; [by left|].
      right. exists (S i), l0, v0. split; [done|]. split; [done|].
      assert (l ≠ l0) by (intros ->; apply Hnin; by eapply list_elem_of_lookup_2).
      by rewrite !list_lookup_total_alter_ne.
Qed.



(** The last loop of a batch when it raises: the exception is the result of
    a step of the batch that has no retry left, and it is in the log. *)
Lemma process_results_raise (ready : list loc) (results : list (Result PyVal))
    (c : gset string) (σ σ' : RunState) (e : Exc) :
  NoDup ready ->
  process_results ready results c σ = (Raise e, σ') ->
  exists i l, ready !! i = Some l /\ results !! i = Some (Raise e)
    /\ (retry_count (rs_heap σ !!! l) <= 0)%Z
    /\ step_error_entry (step_id (rs_heap σ !!! l)) e
        ∈ error_log (rs_context σ').
Proof.
  revert results c σ. induction ready as [|l ready IH]; intros results c σ Hnd.
  { done. }
  destruct results as [|r results]; [done|].
  apply NoDup_cons in Hnd as [Hnin Hnd].
  simpl. destruct r as [v|e0].
  - intros (i & l0 & Hi & Hr & Hretry & Hlog)%IH; [|done].
    exists (S i), l0. simpl in *.
    assert (l ≠ l0) by (intros ->; apply Hnin; by eapply list_elem_of_lookup_2).
    by rewrite list_lookup_total_alter_ne in Hretry, Hlog.
  - destruct (0 <? _)%Z eqn:Hretry.
    + intros (i & l0 & Hi & Hr & Hretry' & Hlog)%IH; [|done].
      exists (S i), l0. simpl in *.
      assert (l ≠ l0) by (intros ->; apply Hnin; by eapply list_elem_of_lookup_2).
      by rewrite !list_lookup_total_alter_ne in Hretry', Hlog.
    + clear IH. intros [= <- <-]. exists 0, l. simpl.
      rewrite (alter_field step_id) by done.
      rewrite (alter_field retry_count) in Hretry by done.
      apply Z.ltb_ge in Hretry.
      split; [done|]. split; [done|]. split; [done|].
      apply elem_of_app. right. by left.
Qed.

Lemma same_shape_id (σ σ' : RunState) (l : loc) :
  same_shape σ σ' -> step_id (rs_heap σ' !!! l) = step_id (rs_heap σ !!! l).
Proof. intros [_ H]. specialize (H l). unfold fixed_fields in H. congruence. Qed.

Lemma same_shape_dependencies (σ σ' : RunState) (l : loc) :
  same_shape σ σ' ->
  dependencies (rs_heap σ' !!! l) = dependencies (rs_heap σ !!! l).
Proof. intros [_ H]. specialize (H l). unfold fixed_fields in H. congruence. Qed.

Lemma same_shape_call (σ σ' : RunState) (l : loc) :
  same_shape σ σ' ->
  tool (rs_heap σ' !!! l) = tool (rs_heap σ !!! l)
  /\ action (rs_heap σ' !!! l) = action (rs_heap σ !!! l)
  /\ parameters (rs_heap σ' !!! l) = parameters (rs_heap σ !!! l)
  /\ conditions (rs_heap σ' !!! l) = conditions (rs_heap σ !!! l).
Proof.
  intros [_ H]. specialize (H l). unfold fixed_fields in H.
  repeat split; congruence.
Qed.

Lemma elem_of_ready_steps (wsteps : list loc) (h : list WorkflowStep)
    (c : gset string) (l : loc) :
  l ∈ ready_steps_of wsteps h c <-> l ∈ wsteps /\ is_ready h c l = true.
Proof.
  unfold ready_steps_of. rewrite !list_elem_of_In. apply filter_In.
Qed.

Lemma NoDup_ready_steps (wsteps : list loc) (h : list WorkflowStep)
    (c : gset string) :
  NoDup wsteps -> NoDup (ready_steps_of wsteps h c).
Proof.
  rewrite !NoDup_ListNoDup. apply List.NoDup_filter.
Qed.

(** The store of a run is in order for the steps [wsteps] of its workflow:
    they are distinct objects of the store. *)
Definition steps_allocated (wsteps : list loc) (σ : RunState) : Prop :=
  NoDup wsteps /\ forall l, l ∈ wsteps -> l < length (rs_heap σ).

(** The two halves of a turn. *)
Lemma loop_body_unfold (wsteps : list loc) (c : gset string) (σ : RunState) :
  loop_body invoke now repr_list wsteps c σ
  = let ready := ready_steps_of wsteps (rs_heap σ) c in
    if decide (ready = []) then
      match remaining_steps_of wsteps (rs_heap σ) c with
      | [] => Break σ
      | remaining =>
          Raised (mkExc "RuntimeError"
                        (deadlock_message repr_list (rs_heap σ) remaining)) σ
      end
    else
      let '(results, σ1) := gather invoke now ready σ in
      match process_results ready results c σ1 with
      | (Ok c', σ2) => Continue c' σ2
      | (Raise e, σ2) => Raised e σ2
      end.
Proof.
  unfold loop_body. by destruct (ready_steps_of wsteps (rs_heap σ) c).
Qed.

(** A turn of the loop that goes on. *)
Lemma turn_spec (wsteps : list loc) (c c' : gset string) (σ σ' : RunState) :
  steps_allocated wsteps σ ->
  loop_body invoke now repr_list wsteps c σ = Continue c' σ' ->
  same_shape σ σ'
  /\ variables (rs_context σ') = variables (rs_context σ)
  /\ c ⊆ c'
  /\ (forall l, l ∈ wsteps -> is_ready (rs_heap σ) c l = false ->
            rs_heap σ' !! l = rs_heap σ !! l)
  /\ (forall l, l ∈ wsteps -> is_ready (rs_heap σ) c l = true ->
        let s := rs_heap σ !!! l in
        let s' := rs_heap σ' !!! l in
        (status s' = COMPLETED /\ step_id s ∈ c'
         /\ dict_mem (step_id s) (step_results (rs_context σ')) = true
         /\ retry_count s' = retry_count s)
        \/ (status s' = WAITING /\ (0 < retry_count s)%Z
            /\ retry_count s' = (retry_count s - 1)%Z))
  /\ (forall id, id ∈ c' ->
        id ∈ c \/ exists l, l ∈ wsteps /\ is_ready (rs_heap σ) c l = true
                         /\ id = step_id (rs_heap σ !!! l)
                         /\ status (rs_heap σ' !!! l) = COMPLETED)
  /\ (forall k, dict_mem k (step_results (rs_context σ)) = true ->
             dict_mem k (step_results (rs_context σ')) = true)
  /\ (exists l, l ∈ wsteps /\ is_ready (rs_heap σ) c l = true).
Proof.
  intros [Hnd Hb]. rewrite loop_body_unfold. simpl.
  destruct (decide _) as [|Hready].
  { by destruct (remaining_steps_of _ _ _). }
  destruct (gather _ _ _ σ) as [results σ1] eqn:Hg.
  destruct (process_results _ _ _ _) as [[c1|e] σ2] eqn:Hp; [|done].
  intros [= <- <-].
  apply gather_spec in Hg as (Hc1 & Hs1 & Hf1 & Hr1 & Hlen).
  pose proof (process_results_frame _ _ _ _ _ _ Hp)
    as (Hs2 & Hw2 & Hv2 & Hf2 & Hk2 & Hm2).
  apply process_results_ok in Hp as (Hsub & Hidx & Hnew); cycle 1.
  { by apply NoDup_ready_steps. }
  { intros l [Hl _]%elem_of_ready_steps. destruct Hs1 as [-> _]. by apply Hb. }
  split; [by eapply same_shape_trans|]. split; [congruence|]. split; [done|].
  split; [|split; [|split; [|split]]].
  - intros l Hl Hnr.
    assert (l ∉ ready_steps_of wsteps (rs_heap σ) c).
    { rewrite elem_of_ready_steps. intros [_ ?]. congruence. }
    by rewrite Hf2, Hf1.
  - intros l Hl Hr.
    assert (Hin : l ∈ ready_steps_of wsteps (rs_heap σ) c)
      by (by apply elem_of_ready_steps).
    apply list_elem_of_lookup in Hin as [i Hi].
    destruct (lookup_lt_is_Some_2 results i) as [r Hri].
    { rewrite Hlen. by eapply lookup_lt_Some. }
    specialize (Hidx i l r Hi Hri). simpl in Hidx.
    rewrite (same_shape_id _ _ _ Hs1), Hr1 in Hidx.
    destruct r as [v|e]; [left|right]; tauto.
  - intros id [?|(i & l & v & Hi & Hri & ->)]%Hnew; [by left|]. right.
    exists l. apply list_elem_of_lookup_2 in Hi as Hin.
    apply elem_of_ready_steps in Hin as [Hl Hr].
    specialize (Hidx i l _ Hi Hri). simpl in Hidx.
    rewrite (same_shape_id _ _ _ Hs1). tauto.
  - intros k Hk. apply Hk2. by rewrite Hc1.
  - destruct (ready_steps_of wsteps (rs_heap σ) c) as [|l0 ?] eqn:E; [done|].
    exists l0. apply elem_of_ready_steps. rewrite E. by left.
Qed.



(** ** The loop invariant *)

(** Every id of [completed_steps] is the id of a step whose status is
    [COMPLETED] and whose result is stored; every other step waits. *)
Definition loop_inv (wsteps : list loc) (c : gset string) (σ : RunState)
    : Prop :=
  steps_allocated wsteps σ
  /\ (forall id, id ∈ c ->
        exists l, l ∈ wsteps /\ step_id (rs_heap σ !!! l) = id
                  /\ status (rs_heap σ !!! l) = COMPLETED
                  /\ dict_mem id (step_results (rs_context σ)) = true)
  /\ (forall l, l ∈ wsteps -> step_id (rs_heap σ !!! l) ∉ c ->
        status (rs_heap σ !!! l) = WAITING).

Lemma is_ready_spec (h : list WorkflowStep) (c : gset string) (l : loc) :
  is_ready h c l = true <->
  (step_id (h !!! l) ∉ c) /\ status (h !!! l) = WAITING
  /\ forall dep, dep ∈ dependencies (h !!! l) -> dep ∈ c.
Proof.
  unfold is_ready. rewrite !andb_true_iff, negb_true_iff.
  rewrite bool_decide_eq_false, bool_decide_eq_true, forallb_forall.
  setoid_rewrite bool_decide_eq_true. setoid_rewrite <- list_elem_of_In.
  tauto.
Qed.

Lemma steps_allocated_shape (wsteps : list loc) (σ σ' : RunState) :
  same_shape σ σ' -> steps_allocated wsteps σ -> steps_allocated wsteps σ'.
Proof. intros [Hlen _] [? Hb]. split; [done|]. rewrite Hlen. done. Qed.

Lemma loop_inv_turn (wsteps : list loc) (c c' : gset string) (σ σ' : RunState) :
  loop_inv wsteps c σ ->
  loop_body invoke now repr_list wsteps c σ = Continue c' σ' ->
  loop_inv wsteps c' σ'.
Proof.
  intros (Ha & Hdone & Hwait) Hturn.
  destruct (turn_spec _ _ _ _ _ Ha Hturn)
    as (Hs & Hv & Hsub & Hframe & Hready & Hnew & Hk & _).
  split; [by eapply steps_allocated_shape|]. split.
  - intros id [Hid|(l & Hl & Hr & -> & Hst)]%Hnew.
    + destruct (Hdone id Hid) as (l & Hl & Hidl & Hst & Hres).
      exists l. split; [done|].
      assert (Hnr : is_ready (rs_heap σ) c l = false).
      { apply not_true_is_false. rewrite is_ready_spec, Hidl. tauto. }
      rewrite (lookup_total_eq _ _ _ (Hframe l Hl Hnr)). auto.
    + exists l. split; [done|]. split; [by apply same_shape_id|].
      split; [done|].
      destruct (Hready l Hl Hr) as [(_ & _ & ? & _)|(Hw & _)]; [done|].
      congruence.
  - intros l Hl Hnc. rewrite (same_shape_id _ _ _ Hs) in Hnc.
    destruct (is_ready (rs_heap σ) c l) eqn:Hr.
    + destruct (Hready l Hl Hr) as [(_ & ? & _)|(Hw & _)]; done.
    + rewrite (lookup_total_eq _ _ _ (Hframe l Hl Hr)).
      apply Hwait; [done|]. set_solver.
Qed.

(** ** Termination of the loop *)

(** The attempts that the steps not yet completed still have. *)
Definition pending_attempts (wsteps : list loc) (c : gset string)
    (h : list WorkflowStep) : nat :=
  list_sum (map (fun l => if bool_decide (step_id (h !!! l) ∈ c) then 0
                          else attempts_left (h !!! l)) wsteps).

Lemma turn_measure (wsteps : list loc) (c c' : gset string) (σ σ' : RunState) :
  steps_allocated wsteps σ ->
  loop_body invoke now repr_list wsteps c σ = Continue c' σ' ->
  pending_attempts wsteps c' (rs_heap σ') < pending_attempts wsteps c (rs_heap σ).
Proof.
  intros Ha Hturn.
  destruct (turn_spec _ _ _ _ _ Ha Hturn)
    as (Hs & Hv & Hsub & Hframe & Hready & Hnew & Hk & l0 & Hl0 & Hr0).
  assert (Hstep : forall l, l ∈ wsteps -> is_ready (rs_heap σ) c l = true ->
            (if bool_decide (step_id (rs_heap σ' !!! l) ∈ c') then 0
             else attempts_left (rs_heap σ' !!! l))
            < (if bool_decide (step_id (rs_heap σ !!! l) ∈ c) then 0
               else attempts_left (rs_heap σ !!! l))).
  { intros l Hl Hr. pose proof Hr as (Hnc & _)%is_ready_spec.
    rewrite (bool_decide_eq_false_2 _ Hnc), (same_shape_id _ _ _ Hs).
    unfold attempts_left.
    destruct (Hready l Hl Hr) as [(_ & Hin & _)|(_ & Hpos & ->)].
    - rewrite (bool_decide_eq_true_2 _ Hin). lia.
    - case_bool_decide; lia. }
  apply list_sum_map_lt; [|by eauto].
  intros l Hl. destruct (is_ready (rs_heap σ) c l) eqn:Hr.
  - specialize (Hstep l Hl Hr). lia.
  - rewrite (lookup_total_eq _ _ _ (Hframe l Hl Hr)).
    repeat case_bool_decide; try lia. set_solver.
Qed.

Lemma loop_total (fuel : nat) (wsteps : list loc) (c : gset string)
    (σ : RunState) :
  steps_allocated wsteps σ ->
  pending_attempts wsteps c (rs_heap σ) < fuel ->
  exists r σ',
    _execute_workflow_steps invoke now repr_list fuel wsteps c σ = Some (r, σ').
Proof.
  revert c σ. induction fuel as [|fuel IH]; intros c σ Ha Hlt; [lia|].
  simpl. destruct (_ <? _); [|by eauto].
  destruct (loop_body _ _ _ _ _ _) as [c' σ'|σ'|e σ'] eqn:Hturn; [|by eauto..].
  pose proof (turn_measure _ _ _ _ _ Ha Hturn).
  apply IH; [|lia].
  apply turn_spec in Hturn as (Hs & _); [|done].
  by eapply steps_allocated_shape.
Qed.

(** ** The turns of a run *)

Lemma loop_head_inv (n : nat) (wsteps : list loc) (c cn : gset string)
    (σ σn : RunState) :
  loop_inv wsteps c σ ->
  loop_head invoke now repr_list n wsteps c σ = Some (cn, σn) ->
  loop_inv wsteps cn σn
  /\ same_shape σ σn
  /\ variables (rs_context σn) = variables (rs_context σ)
  /\ n + pending_attempts wsteps cn (rs_heap σn)
     <= pending_attempts wsteps c (rs_heap σ).
Proof.
  revert c σ. induction n as [|n IH]; intros c σ Hinv; simpl.
  - intros [= <- <-]. split; [done|]. split; [apply same_shape_refl|].
    split; [done|lia].
  - destruct (_ <? _); [|done].
    destruct (loop_body _ _ _ _ _ _) as [c' σ'|σ'|e σ'] eqn:Hturn; [|done..].
    intros Hn.
    pose proof (loop_inv_turn _ _ _ _ _ Hinv Hturn) as Hinv'.
    destruct Hinv as [Ha _].
    pose proof (turn_measure _ _ _ _ _ Ha Hturn).
    apply turn_spec in Hturn as (Hs & Hv & _); [|done].
    destruct (IH _ _ Hinv' Hn) as (? & Hs' & Hv' & ?).
    split; [done|]. split; [by eapply same_shape_trans|].
    split; [congruence|lia].
Qed.

Lemma loop_head_run (n fuel : nat) (wsteps : list loc) (c cn : gset string)
    (σ σn : RunState) :
  loop_head invoke now repr_list n wsteps c σ = Some (cn, σn) ->
  _execute_workflow_steps invoke now repr_list (n + fuel) wsteps c σ
  = _execute_workflow_steps invoke now repr_list fuel wsteps cn σn.
Proof.
  revert c σ. induction n as [|n IH]; intros c σ; simpl.
  - by intros [= <- <-].
  - destruct (_ <? _); [|done].
    destruct (loop_body _ _ _ _ _ _) as [c' σ'|σ'|e σ']; [|done..].
    apply IH.
Qed.



(** ** The start of a run *)

Lemma instantiate_spec (template instance : Workflow)
    (parameters : option (PyDict PyVal)) (h h1 : list WorkflowStep)
    (w w3 : World) :
  instantiate now uuid4 template parameters h w = (instance, h1, w3) ->
  copy_steps (steps template) h = (steps instance, h1)
  /\ step_results (context instance) = []
  /\ error_log (context instance) = []
  /\ variables (context instance) = run_variables parameters
  /\ wf_id instance = (uuid4 w).1
  /\ w3 = (now (now (uuid4 w).2).2).2.
Proof.
  unfold instantiate. destruct (uuid4 w) as [uid w1]. simpl.
  destruct (copy_steps _ _) as [isteps h0].
  destruct (now w1) as [created w2]. simpl.
  destruct (now w2) as [t0 w3']. intros [= <- <- <-]. by repeat split.
Qed.

Lemma instantiate_inv (template instance : Workflow)
    (parameters : option (PyDict PyVal)) (h h1 : list WorkflowStep)
    (w w3 : World) :
  instantiate now uuid4 template parameters h w = (instance, h1, w3) ->
  loop_inv (steps instance) ∅ (mkRun h1 (context instance) w3).
Proof.
  intros (Hcopy & _)%instantiate_spec.
  apply copy_steps_spec in Hcopy as (Hls & Hlen & _ & Hst & _).
  split; [split|split]; simpl.
  - rewrite Hls. apply NoDup_seq.
  - intros l. rewrite Hls, elem_of_seq. lia.
  - intros id Hid. by apply not_elem_of_empty in Hid.
  - intros l Hl _. by apply Hst.
Qed.

(** ** What a run does not touch *)

Lemma loop_body_frame (wsteps : list loc) (c : gset string) (σ : RunState) :
  let σ' := match loop_body invoke now repr_list wsteps c σ with
            | Continue _ σ' | Break σ' | Raised _ σ' => σ'
            end in
  same_shape σ σ'
  /\ (forall l, l ∉ wsteps -> rs_heap σ' !! l = rs_heap σ !! l)
  /\ (forall m, m ∈ error_log (rs_context σ) -> m ∈ error_log (rs_context σ')).
Proof.
  rewrite loop_body_unfold. simpl. destruct (decide _) as [|Hready].
  { destruct (remaining_steps_of _ _ _); (split; [apply same_shape_refl|done]). }
  destruct (gather _ _ _ σ) as [results σ1] eqn:Hg.
  destruct (process_results _ _ _ _) as [out σ2] eqn:Hp.
  apply gather_spec in Hg as (Hc1 & Hs1 & Hf1 & _).
  apply process_results_frame in Hp as (Hs2 & _ & _ & Hf2 & _ & Hm2).
  assert (same_shape σ σ2
          /\ (forall l, l ∉ wsteps -> rs_heap σ2 !! l = rs_heap σ !! l)
          /\ (forall m, m ∈ error_log (rs_context σ) ->
                        m ∈ error_log (rs_context σ2))) as Hgoal.
  { split; [by eapply same_shape_trans|]. split.
    - intros l Hl.
      assert (l ∉ ready_steps_of wsteps (rs_heap σ) c)
        by (rewrite elem_of_ready_steps; tauto).
      by rewrite Hf2, Hf1.
    - intros m Hm. apply Hm2. by rewrite Hc1. }
  by destruct out.
Qed.

Lemma run_frame (fuel : nat) (wsteps : list loc) (c : gset string)
    (σ σ' : RunState) (r : Result unit) :
  _execute_workflow_steps invoke now repr_list fuel wsteps c σ = Some (r, σ') ->
  same_shape σ σ'
  /\ (forall l, l ∉ wsteps -> rs_heap σ' !! l = rs_heap σ !! l)
  /\ (forall m, m ∈ error_log (rs_context σ) -> m ∈ error_log (rs_context σ')).
Proof.
  revert c σ. induction fuel as [|fuel IH]; intros c σ; simpl.
  { destruct (_ <? _); [done|]. intros [= <- <-].
    split; [apply same_shape_refl|done]. }
  destruct (_ <? _); cycle 1.
  { intros [= <- <-]. split; [apply same_shape_refl|done]. }
  pose proof (loop_body_frame wsteps c σ) as Hframe. simpl in Hframe.
  destruct (loop_body _ _ _ _ _ _) as [c1 σ1|σ1|e σ1].
  - intros (Hs & Hf & Hm)%IH. destruct Hframe as (Hs1 & Hf1 & Hm1).
    split; [by eapply same_shape_trans|]. split.
    + intros l Hl. by rewrite Hf, Hf1.
    + auto.
  - by intros [= <- <-].
  - by intros [= <- <-].
Qed.

(** A run that ends without an exception has completed every step. *)
Lemma run_ok_completed (fuel : nat) (wsteps : list loc) (c : gset string)
    (σ σ' : RunState) :
  loop_inv wsteps c σ ->
  _execute_workflow_steps invoke now repr_list fuel wsteps c σ
  = Some (Ok tt, σ') ->
  exists c', loop_inv wsteps c' σ'
             /\ forall l, l ∈ wsteps -> step_id (rs_heap σ' !!! l) ∈ c'.
Proof.
  revert c σ. induction fuel as [|fuel IH]; intros c σ Hinv; simpl.
  - destruct (_ <? _) eqn:Hlt; [done|]. intros [= <-]. exists c. split; [done|].
    apply Nat.ltb_ge in Hlt. intros l Hl.
    destruct (decide (step_id (rs_heap σ !!! l) ∈ c)) as [|Hn]; [done|].
    exfalso. apply Nat.lt_nge in Hlt; [done|].
    rewrite <- (length_map (fun l => step_id (rs_heap σ !!! l)) wsteps).
    apply size_lt_length.
    + intros id (l0 & ? & <- & _)%Hinv. apply list_elem_of_fmap. eauto.
    + exists (step_id (rs_heap σ !!! l)). split; [|done].
      apply list_elem_of_fmap. eauto.
  - destruct (_ <? _) eqn:Hlt.
    + destruct (loop_body _ _ _ _ _ _) as [c1 σ1|σ1|e σ1] eqn:Hturn; [| |done].
      * apply IH. by eapply loop_inv_turn.
      * intros [= <-]. exists c.
        rewrite loop_body_unfold in Hturn. simpl in Hturn.
        destruct (decide _); cycle 1.
        { destruct (gather _ _ _ _). by destruct (process_results _ _ _ _) as [[] ?]. }
        destruct (remaining_steps_of _ _ _) as [|] eqn:Hrem; [|done].
        injection Hturn as <-. split; [done|]. intros l Hl.
        destruct (decide (step_id (rs_heap σ !!! l) ∈ c)) as [|Hn]; [done|].
        assert (l ∈ remaining_steps_of wsteps (rs_heap σ) c).
        { unfold remaining_steps_of. rewrite list_elem_of_In, filter_In.
          rewrite <- list_elem_of_In. split; [done|].
          by rewrite negb_true_iff, bool_decide_eq_false. }
        rewrite Hrem in *. by apply elem_of_nil in H.
    + intros [= <-]. exists c. split; [done|].
      apply Nat.ltb_ge in Hlt. intros l Hl.
      destruct (decide (step_id (rs_heap σ !!! l) ∈ c)) as [|Hn]; [done|].
      exfalso. apply Nat.lt_nge in Hlt; [done|].
      rewrite <- (length_map (fun l => step_id (rs_heap σ !!! l)) wsteps).
      apply size_lt_length.
      * intros id (l0 & ? & <- & _)%Hinv. apply list_elem_of_fmap. eauto.
      * exists (step_id (rs_heap σ !!! l)). split; [|done].
        apply list_elem_of_fmap. eauto.
Qed.



Lemma pending_attempts_empty (wsteps : list loc) (h : list WorkflowStep) :
  run_fuel wsteps h = S (pending_attempts wsteps ∅ h).
Proof. reflexivity. Qed.

(** [execute_workflow] for a known template, once the outcome of the loop
    is known. *)
Lemma execute_workflow_known (workflow_id : string)
    (parameters : option (PyDict PyVal)) (engine : WorkflowEngine) (w : World)
    (template instance : Workflow) (h1 : list WorkflowStep) (w3 : World)
    (r : Result unit) (σ : RunState) :
  dict_get workflow_id (workflow_templates engine) = Some template ->
  instantiate now uuid4 template parameters (objects engine) w
  = (instance, h1, w3) ->
  _execute_workflow_steps invoke now repr_list (run_fuel (steps instance) h1)
    (steps instance) ∅ (mkRun h1 (context instance) w3) = Some (r, σ) ->
  execute_workflow invoke now uuid4 repr_list workflow_id parameters engine w
  = Some (Ok (wf_id instance),
          mkEngine
            (dict_del (wf_id instance)
               (dict_set (wf_id instance) instance (active_workflows engine)))
            (dict_set (wf_id instance)
               (set_wf_status
                  match r with Ok _ => WF_COMPLETED | Raise _ => WF_FAILED end
                  (set_context
                     (set_end_time (Some (now (rs_world σ)).1)
                        match r with
                        | Ok _ => rs_context σ
                        | Raise e => append_error_log (str e) (rs_context σ)
                        end)
                     instance))
               (completed_workflows engine))
            (workflow_templates engine)
            (rs_heap σ),
          (now (rs_world σ)).2).
Proof.
  intros Ht Hi Hrun. unfold execute_workflow. rewrite Ht, Hi, Hrun.
  destruct (now (rs_world σ)) as [t1 w4]. by destruct r.
Qed.

(** The loop of a run always comes to an end within [run_fuel] turns. *)
Lemma run_total (template instance : Workflow)
    (parameters : option (PyDict PyVal)) (h h1 : list WorkflowStep)
    (w w3 : World) :
  instantiate now uuid4 template parameters h w = (instance, h1, w3) ->
  exists r σ,
    _execute_workflow_steps invoke now repr_list (run_fuel (steps instance) h1)
      (steps instance) ∅ (mkRun h1 (context instance) w3) = Some (r, σ).
Proof.
  intros [Ha _]%instantiate_inv. apply loop_total; [done|].
  rewrite pending_attempts_empty. simpl. lia.
Qed.

(** C1.  In a run of any template, take any turn of the loop and any step
    [l] of its batch, and the state [σl] in which [_execute_step], which
    sets the status to [RUNNING], is applied to [l]: the step still waits
    there, and every one of its dependencies is in [completed_steps] and is
    the id of a step of the workflow whose status is [COMPLETED].  (For a
    chain A, B, C: B is started only when A is completed, C only when B
    is.) *)
Theorem dependency_gating (template instance : Workflow)
    (parameters : option (PyDict PyVal)) (h h1 : list WorkflowStep)
    (w w3 : World) (n : nat) (c : gset string) (σ : RunState)
    (pre post : list loc) (l : loc) :
  instantiate now uuid4 template parameters h w = (instance, h1, w3) ->
  loop_head invoke now repr_list n (steps instance) ∅
            (mkRun h1 (context instance) w3) = Some (c, σ) ->
  ready_steps_of (steps instance) (rs_heap σ) c = pre ++ l :: post ->
  let σl := (gather invoke now pre σ).2 in
  status (rs_heap σl !!! l) = WAITING
  /\ forall dep, dep ∈ dependencies (rs_heap σl !!! l) ->
       dep ∈ c
       /\ exists l', l' ∈ steps instance
                     /\ step_id (rs_heap σl !!! l') = dep
                     /\ status (rs_heap σl !!! l') = COMPLETED.
Proof.
  intros Hinst Hhead Hready σl.
  pose proof (instantiate_inv _ _ _ _ _ _ _ Hinst) as Hinv0.
  destruct (loop_head_inv _ _ _ _ _ _ Hinv0 Hhead)
    as (([Hnd Hb] & Hdone & Hwait) & _).
  destruct (gather invoke now pre σ) as [rs σ1] eqn:Hg. subst σl. simpl.
  apply gather_spec in Hg as (_ & Hs & Hf & _).
  assert (Hl : l ∈ ready_steps_of (steps instance) (rs_heap σ) c)
    by (rewrite Hready; apply elem_of_app; right; left).
  apply elem_of_ready_steps in Hl as [Hl (Hnc & Hw & Hdeps)%is_ready_spec].
  assert (Hpre : forall l', l' ∈ pre -> is_ready (rs_heap σ) c l' = true).
  { intros l' Hl'.
    assert (l' ∈ ready_steps_of (steps instance) (rs_heap σ) c)
      by (rewrite Hready; apply elem_of_app; by left).
    by apply elem_of_ready_steps in H as [_ ?]. }
  assert (Hnpre : l ∉ pre).
  { pose proof (NoDup_ready_steps _ (rs_heap σ) c Hnd) as Hnd'.
    rewrite Hready in Hnd'. apply NoDup_app in Hnd' as (_ & Hdisj & _).
    intros Hin. apply (Hdisj l Hin). left. }
  split.
  - by rewrite (lookup_total_eq _ _ _ (Hf l Hnpre)).
  - intros dep Hdep. rewrite (same_shape_dependencies _ _ _ Hs) in Hdep.
    split; [by apply Hdeps|].
    destruct (Hdone dep (Hdeps dep Hdep)) as (l' & Hl' & Hid & Hst & _).
    exists l'. split; [done|].
    assert (l' ∉ pre).
    { intros (Hc' & _)%Hpre%is_ready_spec. apply Hc'. rewrite Hid. by apply Hdeps. }
    by rewrite (lookup_total_eq _ _ _ (Hf l' H)).
Qed.


(** C7.  For a known template, [execute_workflow] returns the id of the
    run, whatever the loop over the steps does: when the loop ends
    normally the run is [COMPLETED]; when it raises (a step failure or a
    deadlock) the run is [FAILED] and [str(e)] is appended to its error
    log.  In both cases the end time is set, the run is no longer among the
    active workflows, it is among the completed ones, and
    [get_workflow_status] finds it under the returned id. *)
Theorem failure_containment (workflow_id : string)
    (parameters : option (PyDict PyVal)) (engine : WorkflowEngine) (w : World)
    (template : Workflow) :
  dict_get workflow_id (workflow_templates engine) = Some template ->
  exists instance h1 w3 r σ uid engine' w' final report,
    instantiate now uuid4 template parameters (objects engine) w
    = (instance, h1, w3)
    /\ _execute_workflow_steps invoke now repr_list
         (run_fuel (steps instance) h1) (steps instance) ∅
         (mkRun h1 (context instance) w3) = Some (r, σ)
    /\ execute_workflow invoke now uuid4 repr_list workflow_id parameters
         engine w = Some (Ok uid, engine', w')
    /\ uid = wf_id instance
    /\ dict_get uid (active_workflows engine') = None
    /\ dict_get uid (completed_workflows engine') = Some final
    /\ match r with
       | Ok _ =>
           wf_status final = WF_COMPLETED
           /\ error_log (context final) = error_log (rs_context σ)
       | Raise e =>
           wf_status final = WF_FAILED
           /\ error_log (context final) = error_log (rs_context σ) ++ [str e]
       end
    /\ is_Some (end_time (context final))
    /\ get_workflow_status engine' uid = Some report
    /\ sr_id report = uid
    /\ sr_status report = WorkflowStatus_value (wf_status final)
    /\ sr_error_log report = error_log (context final).
Proof.
  intros Ht.
  destruct (instantiate now uuid4 template parameters (objects engine) w)
    as [[instance h1] w3] eqn:Hinst.
  destruct (run_total _ _ _ _ _ _ _ Hinst) as (r & σ & Hrun).
  pose proof (execute_workflow_known _ _ _ _ _ _ _ _ _ _ Ht Hinst Hrun) as Hex.
  eexists instance, h1, w3, r, σ, _, _, _, _, _.
  split; [done|]. split; [done|]. split; [exact Hex|]. split; [done|].
  split; [apply dict_get_del_eq|]. split; [apply dict_get_set_eq|].
  split; [by destruct r|]. split; [by eexists|].
  unfold get_workflow_status, get_or. simpl.
  rewrite dict_get_del_eq, dict_get_set_eq. done.
Qed.

(** C8.  A run changes no step object that was in the store before it: the
    steps of the run are new objects, and the loop updates only them.  So
    every step of every template has, after the run, the status, result,
    error, retry count, parameters and dependencies it had before; the
    dictionary of templates is the same too. *)
Theorem template_immutability (workflow_id : string)
    (parameters : option (PyDict PyVal)) (engine engine' : WorkflowEngine)
    (w w' : World) (res : Result string) :
  execute_workflow invoke now uuid4 repr_list workflow_id parameters engine w
  = Some (res, engine', w') ->
  workflow_templates engine' = workflow_templates engine
  /\ (forall l, l < length (objects engine) ->
        objects engine' !! l = objects engine !! l)
  /\ (forall key template l,
        dict_get key (workflow_templates engine) = Some template ->
        l ∈ steps template -> l < length (objects engine) ->
        objects engine' !!! l = objects engine !!! l)
  /\ (forall uid run l,
        res = Ok uid ->
        dict_get uid (completed_workflows engine') = Some run ->
        l ∈ steps run -> length (objects engine) <= l).
Proof.
  intros Hex.
  assert (workflow_templates engine' = workflow_templates engine
          /\ (forall l, l < length (objects engine) ->
                objects engine' !! l = objects engine !! l)
          /\ (forall uid run l, res = Ok uid ->
                dict_get uid (completed_workflows engine') = Some run ->
                l ∈ steps run -> length (objects engine) <= l)) as (H1 & H2 & H3).
  { destruct (dict_get workflow_id (workflow_templates engine))
      as [template|] eqn:Ht; cycle 1.
    { unfold execute_workflow in Hex. rewrite Ht in Hex.
      injection Hex as <- <- <-. done. }
    destruct (instantiate now uuid4 template parameters (objects engine) w)
      as [[instance h1] w3] eqn:Hinst.
    destruct (run_total _ _ _ _ _ _ _ Hinst) as (r & σ & Hrun).
    rewrite (execute_workflow_known _ _ _ _ _ _ _ _ _ _ Ht Hinst Hrun) in Hex.
    injection Hex as <- <- <-. simpl.
    apply instantiate_spec in Hinst as (Hcopy & _).
    apply copy_steps_spec in Hcopy as (Hls & _ & Hpre & _).
    apply run_frame in Hrun as (_ & Hf & _). simpl in Hf.
    split; [done|]. split.
    - intros l Hl. rewrite Hf; [by apply Hpre|].
      rewrite Hls, elem_of_seq. lia.
    - intros uid run l [= <-]. rewrite dict_get_set_eq. intros [= <-]. simpl.
      rewrite Hls, elem_of_seq. lia. }
  split; [done|]. split; [done|]. split; [|done].
  intros key template l _ _ Hl. by apply lookup_total_eq, H2.
Qed.

(** ** Copies and ids *)

Lemma NoDup_fmap_inj {A B} (f : A -> B) (l : list A) (x y : A) :
  NoDup (f <$> l) -> x ∈ l -> y ∈ l -> f x = f y -> x = y.
Proof.
  induction l as [|a l IH]; [by intros _ ?%elem_of_nil|].
  rewrite fmap_cons, NoDup_cons. intros [Hnin Hnd].
  intros [->|Hx]%elem_of_cons [->|Hy]%elem_of_cons Heq; [done| | |by apply IH].
  - exfalso. apply Hnin. rewrite Heq. by apply list_elem_of_fmap_2.
  - exfalso. apply Hnin. rewrite <- Heq. by apply list_elem_of_fmap_2.
Qed.

(** The steps of an instance are the copies of the steps of the template,
    in the same order. *)
Lemma copy_steps_Forall2 (ts : list loc) (h : list WorkflowStep)
    (ls : list loc) (h' : list WorkflowStep) :
  copy_steps ts h = (ls, h') ->
  (forall l, l ∈ ts -> l < length h) ->
  Forall2 (fun lt li => h' !!! li = _copy_step (h !!! lt)) ts ls.
Proof.
  intros (-> & _ & _ & _ & Hcopy)%copy_steps_spec Hb.
  apply Forall2_same_length_lookup_2; [by rewrite length_seq|].
  intros i lt li Hlt [-> _]%lookup_seq. by apply Hcopy.
Qed.

Lemma copy_steps_ids (ts : list loc) (h : list WorkflowStep)
    (ls : list loc) (h' : list WorkflowStep) :
  copy_steps ts h = (ls, h') ->
  (forall l, l ∈ ts -> l < length h) ->
  (fun l => step_id (h' !!! l)) <$> ls = (fun l => step_id (h !!! l)) <$> ts.
Proof.
  intros Hc Hb. pose proof (copy_steps_Forall2 _ _ _ _ Hc Hb) as HF.
  clear Hc Hb. induction HF as [|lt li ts' ls' Heq _ IH]; [done|].
  rewrite !fmap_cons, IH, Heq. done.
Qed.

(** ** Retries

    One step, of id [sid], calls a capability that fails a number of times;
    all other capabilities work.  [calls] counts the calls of the failing
    capability in a state of the world. *)
Section Retry.

Variable calls : World -> nat.
Variables (sid target_tool target_action : string).
Variable k : nat.
Variable vars : PyDict PyVal.
Variable wsteps : list loc.
Variable rank : string -> nat.
Variable r0 : Z.

Hypothesis other_calls_work :
  forall t a p w,
    (t, a) <> (target_tool, target_action) ->
    is_ok (invoke t a p w).1 = true /\ calls (invoke t a p w).2 = calls w.

Hypothesis target_call_fails_k_times :
  forall p w,
    calls (invoke target_tool target_action p w).2 = S (calls w)
    /\ (calls w < k -> is_ok (invoke target_tool target_action p w).1 = false)
    /\ (calls w = k -> is_ok (invoke target_tool target_action p w).1 = true).

Hypothesis clock_makes_no_call : forall w, calls (now w).2 = calls w.

(** What the scenario asks of the steps [wsteps] in a store: distinct ids;
    dependencies that are ids of the workflow and go down along [rank];
    the step [sid] is there and is the only one to call the failing
    capability; no condition raises, and those of [sid] hold. *)
Definition scenario (h : list WorkflowStep) : Prop :=
  NoDup ((fun l => step_id (h !!! l)) <$> wsteps)
  /\ (exists l, l ∈ wsteps /\ step_id (h !!! l) = sid)
  /\ forall l, l ∈ wsteps ->
       (forall d, d ∈ dependencies (h !!! l) ->
          (exists l', l' ∈ wsteps /\ step_id (h !!! l') = d)
          /\ rank d < rank (step_id (h !!! l)))
       /\ (step_id (h !!! l) <> sid ->
           (tool (h !!! l), action (h !!! l)) <> (target_tool, target_action))
       /\ (step_id (h !!! l) = sid ->
           tool (h !!! l) = target_tool /\ action (h !!! l) = target_action)
       /\ (forall ctx, variables ctx = vars ->
             is_ok (_check_step_conditions (conditions (h !!! l)) ctx) = true
             /\ (step_id (h !!! l) = sid ->
                 _check_step_conditions (conditions (h !!! l)) ctx = Ok true)).

Lemma scenario_shape (σ σ' : RunState) :
  same_shape σ σ' -> scenario (rs_heap σ) -> scenario (rs_heap σ').
Proof.
  intros Hs (Hnd & (ls & Hls & Hid) & Hall).
  assert (Hids : forall l, step_id (rs_heap σ' !!! l) = step_id (rs_heap σ !!! l))
    by (intros l; by apply same_shape_id).
  split; [|split].
  - erewrite list_fmap_ext; [exact Hnd|]. intros ? l _. apply Hids.
  - exists ls. by rewrite Hids.
  - intros l Hl.
    destruct (same_shape_call _ _ l Hs) as (-> & -> & _ & ->).
    rewrite (same_shape_dependencies _ _ l Hs), Hids.
    destruct (Hall l Hl) as (Hd & ? & ? & ?). split; [|done].
    intros d Hdin. destruct (Hd d Hdin) as [(l' & ? & ?) ?]. split; [|done].
    exists l'. by rewrite Hids.
Qed.

(** A step other than [sid] yields a value and makes no call. *)
Lemma execute_step_other (l : loc) (σ σ1 : RunState) (res : Result PyVal) :
  l ∈ wsteps -> scenario (rs_heap σ) -> variables (rs_context σ) = vars ->
  step_id (rs_heap σ !!! l) <> sid ->
  _execute_step invoke now l σ = (res, σ1) ->
  is_ok res = true /\ calls (rs_world σ1) = calls (rs_world σ).
Proof.
  intros Hl (_ & _ & Hall) Hv Hne.
  destruct (Hall l Hl) as (_ & Hcall & _ & Hcond).
  specialize (Hcall Hne). destruct (Hcond _ Hv) as [Hok _].
  unfold _execute_step.
  pose proof (clock_makes_no_call (rs_world σ)) as Hn0.
  destruct (now (rs_world σ)) as [t0 w0]. simpl in Hn0.
  rewrite (alter_field conditions), (alter_field tool), (alter_field action),
    (alter_field parameters) by done.
  destruct (_check_step_conditions _ _) as [[|]|e]; [| |done].
  - destruct (other_calls_work _ _
                (_process_step_parameters (parameters (rs_heap σ !!! l))
                   (rs_context σ)) w0 Hcall) as [Hres Hw].
    destruct (invoke _ _ _ w0) as [r1 w1]. simpl in Hres, Hw.
    pose proof (clock_makes_no_call w1) as Hn1.
    destruct (now w1) as [t1 w2]. simpl in Hn1.
    intros [= <- <-]. simpl. split; [done|congruence].
  - intros [= <- <-]. simpl. done.
Qed.

(** The step [sid] makes one call, which fails when fewer than [k] calls
    were made before and works when exactly [k] were. *)
Lemma execute_step_target (l : loc) (σ σ1 : RunState) (res : Result PyVal) :
  l ∈ wsteps -> scenario (rs_heap σ) -> variables (rs_context σ) = vars ->
  step_id (rs_heap σ !!! l) = sid ->
  _execute_step invoke now l σ = (res, σ1) ->
  calls (rs_world σ1) = S (calls (rs_world σ))
  /\ (calls (rs_world σ) < k -> is_ok res = false)
  /\ (calls (rs_world σ) = k -> is_ok res = true).
Proof.
  intros Hl (_ & _ & Hall) Hv Heq.
  destruct (Hall l Hl) as (_ & _ & Hcall & Hcond).
  destruct (Hcall Heq) as [Ht Ha]. destruct (Hcond _ Hv) as [_ Hok].
  specialize (Hok Heq).
  unfold _execute_step.
  pose proof (clock_makes_no_call (rs_world σ)) as Hn0.
  destruct (now (rs_world σ)) as [t0 w0]. simpl in Hn0.
  rewrite (alter_field conditions), (alter_field tool), (alter_field action),
    (alter_field parameters) by done.
  rewrite Hok, Ht, Ha.
  destruct (target_call_fails_k_times
              (_process_step_parameters (parameters (rs_heap σ !!! l))
                 (rs_context σ)) w0) as (Hw & Hfail & Hwork).
  destruct (invoke _ _ _ w0) as [r1 w1]. simpl in Hw, Hfail, Hwork.
  pose proof (clock_makes_no_call w1) as Hn1.
  destruct (now w1) as [t1 w2]. simpl in Hn1.
  intros [= <- <-]. simpl. rewrite <- Hn0.
  split; [congruence|]. split; auto.
Qed.

(** The results of a batch: values for all steps but [sid]. *)
Lemma gather_oracle (ready : list loc) (σ σ1 : RunState)
    (results : list (Result PyVal)) :
  (forall l, l ∈ ready -> l ∈ wsteps) ->
  NoDup ((fun l => step_id (rs_heap σ !!! l)) <$> ready) ->
  scenario (rs_heap σ) -> variables (rs_context σ) = vars ->
  gather invoke now ready σ = (results, σ1) ->
  calls (rs_world σ1)
  = calls (rs_world σ)
    + (if bool_decide (sid ∈ (fun l => step_id (rs_heap σ !!! l)) <$> ready)
       then 1 else 0)
  /\ forall i l res, ready !! i = Some l -> results !! i = Some res ->
       if decide (step_id (rs_heap σ !!! l) = sid)
       then (calls (rs_world σ) < k -> is_ok res = false)
            /\ (calls (rs_world σ) = k -> is_ok res = true)
       else is_ok res = true.
Proof.
  revert σ results. induction ready as [|l ready IH]; intros σ results Hin Hnd Hsc Hv.
  { simpl. intros [= <- <-]. split; [simpl; lia|]. intros i l res.
    by rewrite lookup_nil. }
  simpl. destruct (_execute_step _ _ l σ) as [r σa] eqn:E1.
  destruct (gather _ _ ready σa) as [rs σb] eqn:E2. intros [= <- <-].
  pose proof (execute_step_spec _ _ _ _ E1) as (Hca & Hsa & _ & _).
  assert (Hids : forall l', step_id (rs_heap σa !!! l') = step_id (rs_heap σ !!! l'))
    by (intros l'; by apply same_shape_id).
  rewrite fmap_cons in Hnd. apply NoDup_cons in Hnd as [Hnin Hnd].
  apply IH in E2 as [Hcalls Hres]; cycle 1.
  { intros l' Hl'. apply Hin. by right. }
  { erewrite list_fmap_ext; [exact Hnd|]. intros ? l' _. apply Hids. }
  { by eapply scenario_shape. }
  { congruence. }
  erewrite (list_fmap_ext _ (fun l => step_id (rs_heap σ !!! l))) in Hcalls;
    [|intros ? l' _; apply Hids].
  assert (Hlw : l ∈ wsteps) by (apply Hin; left).
  destruct (decide (step_id (rs_heap σ !!! l) = sid)) as [Heq|Hne].
  - destruct (execute_step_target _ _ _ _ Hlw Hsc Hv Heq E1) as (Hw & Hf & Hk).
    rewrite Heq in Hnin.
    rewrite (bool_decide_eq_false_2 _ Hnin) in Hcalls.
    split.
    + rewrite Hcalls, Hw. rewrite bool_decide_eq_true_2; [lia|].
      rewrite Heq. left.
    + intros [|i] l' res; simpl.
      * intros [= <-] [= <-]. by rewrite decide_True.
      * intros Hi Hr. specialize (Hres i l' res Hi Hr). rewrite Hids in Hres.
        rewrite decide_False in Hres |- *; [done| |].
        -- intros Heq'. apply Hnin. rewrite <- Heq'.
           apply list_elem_of_fmap_2' with l'; [|done].
           by eapply list_elem_of_lookup_2.
        -- intros Heq'. apply Hnin. rewrite <- Heq'.
           apply list_elem_of_fmap_2' with l'; [|done].
           by eapply list_elem_of_lookup_2.
  - destruct (execute_step_other _ _ _ _ Hlw Hsc Hv Hne E1) as (Hok & Hw).
    split.
    + rewrite Hcalls, Hw. f_equal. symmetry.
      erewrite (bool_decide_ext (sid ∈ _ :: _)); [reflexivity|].
      rewrite elem_of_cons. split; [|by right].
      intros [Heq'|?]; [by symmetry in Heq'|done].
    + intros [|i] l' res; simpl.
      * intros [= <-] [= <-]. by rewrite decide_False.
      * intros Hi Hr. specialize (Hres i l' res Hi Hr).
        rewrite Hids, Hw in Hres. done.
Qed.

(** Under the scenario, some step is ready as long as some step is not
    completed: there is no deadlock. *)
Lemma some_step_ready (c : gset string) (σ : RunState) :
  loop_inv wsteps c σ -> scenario (rs_heap σ) ->
  (exists l, l ∈ wsteps /\ step_id (rs_heap σ !!! l) ∉ c) ->
  exists l, l ∈ wsteps /\ is_ready (rs_heap σ) c l = true.
Proof.
  intros (_ & _ & Hwait) (_ & _ & Hall) (l & Hl & Hnc).
  remember (rank (step_id (rs_heap σ !!! l))) as n eqn:Hn.
  revert l Hl Hnc Hn. induction (lt_wf n) as [n _ IH]. intros l Hl Hnc ->.
  destruct (decide (Forall (fun d => d ∈ c) (dependencies (rs_heap σ !!! l))))
    as [Hdeps|Hdeps].
  - exists l. split; [done|]. apply is_ready_spec.
    split; [done|]. split; [by apply Hwait|].
    by apply Forall_forall.
  - apply not_Forall_Exists in Hdeps; [|apply _].
    apply Exists_exists in Hdeps as (d & Hd & Hdc). simpl in Hdc.
    destruct (Hall l Hl) as (Hdep & _).
    destruct (Hdep d Hd) as [(l' & Hl' & Hid') Hrank].
    apply (IH (rank d) Hrank l'); [done| |]; by rewrite Hid'.
Qed.

Lemma NoDup_fmap_List_filter {A B} (f : A -> B) (g : A -> bool) (l : list A) :
  NoDup (f <$> l) -> NoDup (f <$> List.filter g l).
Proof.
  induction l as [|a l IH]; simpl; [done|].
  rewrite NoDup_cons. intros [Hnin Hnd]. destruct (g a); [|by apply IH].
  rewrite fmap_cons, NoDup_cons. split; [|by apply IH].
  intros (b & Hb & Hin)%list_elem_of_fmap. apply Hnin.
  rewrite Hb. apply list_elem_of_fmap_2.
  apply list_elem_of_In, filter_In in Hin as [Hin _]. by apply list_elem_of_In.
Qed.

Lemma exit_all_completed (c : gset string) (σ : RunState) :
  loop_inv wsteps c σ -> ~ size c < length wsteps ->
  forall l, l ∈ wsteps -> step_id (rs_heap σ !!! l) ∈ c.
Proof.
  intros (_ & Hdone & _) Hge l Hl.
  destruct (decide (step_id (rs_heap σ !!! l) ∈ c)) as [|Hn]; [done|].
  exfalso. apply Hge.
  rewrite <- (length_map (fun l => step_id (rs_heap σ !!! l)) wsteps).
  apply size_lt_length.
  - intros id (l0 & ? & <- & _)%Hdone. apply list_elem_of_fmap. eauto.
  - exists (step_id (rs_heap σ !!! l)). split; [|done].
    apply list_elem_of_fmap. eauto.
Qed.

Lemma elem_of_remaining_steps (h : list WorkflowStep) (c : gset string)
    (l : loc) :
  l ∈ remaining_steps_of wsteps h c <-> l ∈ wsteps /\ step_id (h !!! l) ∉ c.
Proof.
  unfold remaining_steps_of.
  rewrite list_elem_of_In, filter_In, <- list_elem_of_In.
  by rewrite negb_true_iff, bool_decide_eq_false.
Qed.

(** The invariant of the scenario: as long as [sid] is not completed its
    retry count is its budget [r0] minus the calls made, and no more than
    [k] calls were made; when it is completed, [k] failures were within the
    budget. *)
Definition retry_inv (c : gset string) (σ : RunState) : Prop :=
  loop_inv wsteps c σ
  /\ scenario (rs_heap σ)
  /\ variables (rs_context σ) = vars
  /\ (sid ∈ c -> (Z.of_nat k <= r0)%Z)
  /\ (sid ∉ c ->
      calls (rs_world σ) <= k
      /\ (Z.of_nat (calls (rs_world σ)) <= r0)%Z
      /\ forall l, l ∈ wsteps -> step_id (rs_heap σ !!! l) = sid ->
           retry_count (rs_heap σ !!! l)
           = (r0 - Z.of_nat (calls (rs_world σ)))%Z).

(** A batch of the scenario: it either keeps the invariant or raises the
    failure of [sid], whose budget is then smaller than [k]. *)
Lemma retry_batch (c : gset string) (σ σ1 σ2 : RunState)
    (results : list (Result PyVal)) (out : Result (gset string)) :
  retry_inv c σ ->
  gather invoke now (ready_steps_of wsteps (rs_heap σ) c) σ = (results, σ1) ->
  process_results (ready_steps_of wsteps (rs_heap σ) c) results c σ1
  = (out, σ2) ->
  match out with
  | Ok c' => retry_inv c' σ2
  | Raise e =>
      (r0 < Z.of_nat k)%Z
      /\ step_error_entry sid e ∈ error_log (rs_context σ2)
  end.
Proof.
  intros (Hinv & Hsc & Hv & Hin_c & Hnin_c) Hg Hp.
  pose proof Hinv as ([Hnd Hb] & Hdone & Hwait).
  pose proof Hsc as (Hndid & _ & _).
  set (ready := ready_steps_of wsteps (rs_heap σ) c) in *.
  assert (Hready : forall l, l ∈ ready ->
            l ∈ wsteps /\ is_ready (rs_heap σ) c l = true)
    by (intros l; apply elem_of_ready_steps).
  assert (Hndr : NoDup ready) by (by apply NoDup_ready_steps).
  pose proof (gather_spec _ _ _ _ Hg) as (Hc1 & Hs1 & Hf1 & Hr1 & Hlen).
  destruct (gather_oracle _ _ _ _ (fun l Hl => proj1 (Hready l Hl))
              (NoDup_fmap_List_filter _ _ _ Hndid) Hsc Hv Hg)
    as [Hcalls Hres].
  pose proof (process_results_frame _ _ _ _ _ _ Hp)
    as (Hs2 & Hw2 & Hv2 & Hf2 & Hk2 & Hm2).
  assert (Hids1 : forall l, step_id (rs_heap σ1 !!! l) = step_id (rs_heap σ !!! l))
    by (intros l; by apply same_shape_id).
  assert (Hids2 : forall l, step_id (rs_heap σ2 !!! l) = step_id (rs_heap σ !!! l))
    by (intros l; rewrite <- Hids1; by apply same_shape_id).
  assert (Huniq : forall l l', l ∈ wsteps -> l' ∈ wsteps ->
            step_id (rs_heap σ !!! l) = sid ->
            step_id (rs_heap σ !!! l') = sid -> l = l').
  { intros l l' Hl Hl' Hi Hi'.
    apply (NoDup_fmap_inj (fun l => step_id (rs_heap σ !!! l)) wsteps);
      [done..|congruence]. }
  destruct (decide (ready = [])) as [Hnil|Hnnil].
  { rewrite Hnil in Hg, Hp. simpl in Hg. injection Hg as <- <-.
    simpl in Hp. injection Hp as <- <-. done. }
  destruct out as [c'|e].
  - (* the batch goes through *)
    assert (Hturn : loop_body invoke now repr_list wsteps c σ = Continue c' σ2).
    { rewrite loop_body_unfold. simpl. fold ready.
      rewrite decide_False by done. by rewrite Hg, Hp. }
    pose proof (loop_inv_turn _ _ _ _ _ Hinv Hturn) as Hinv'.
    destruct (turn_spec _ _ _ _ _ (conj Hnd Hb) Hturn)
      as (_ & _ & _ & Hframe & _).
    apply process_results_ok in Hp as (Hsub & Hidx & Hnew); [|done|]; cycle 1.
    { intros l [Hl _]%Hready. destruct Hs1 as [-> _]. by apply Hb. }
    split; [done|]. split; [by eapply scenario_shape, scenario_shape|].
    split; [congruence|]. split.
    + intros Hin. destruct (decide (sid ∈ c)) as [|Hnc]; [by apply Hin_c|].
      destruct (Hnew sid Hin) as [|(i & l & v & Hi & Hri & Hsid)]; [done|].
      destruct (Hnin_c Hnc) as (Hk & Hr & _).
      specialize (Hres i l _ Hi Hri). rewrite Hids1 in Hsid.
      rewrite decide_True in Hres by done. destruct Hres as [Hfail _].
      destruct (decide (calls (rs_world σ) < k)) as [Hlt|]; [|lia].
      by specialize (Hfail Hlt).
    + intros Hnc'. assert (Hnc : sid ∉ c) by (intros ?; by apply Hnc', Hsub).
      destruct (Hnin_c Hnc) as (Hk & Hr & Hretry).
      destruct Hsc as (_ & (tl & Htl & Htid) & _).
      rewrite Hw2.
      destruct (is_ready (rs_heap σ) c tl) eqn:Hrtl.
      * assert (Hin : tl ∈ ready) by (by apply elem_of_ready_steps).
        apply list_elem_of_lookup in Hin as [i Hi].
        destruct (lookup_lt_is_Some_2 results i) as [res Hri].
        { rewrite Hlen. by eapply lookup_lt_Some. }
        rewrite bool_decide_eq_true_2 in Hcalls; cycle 1.
        { rewrite <- Htid.
          apply (list_elem_of_fmap_2 (fun l => step_id (rs_heap σ !!! l))).
          by eapply list_elem_of_lookup_2. }
        specialize (Hres i tl _ Hi Hri).
        rewrite decide_True in Hres by done. destruct Hres as [_ Hwork].
        specialize (Hidx i tl _ Hi Hri). simpl in Hidx.
        rewrite Hids1, Hr1, Htid in Hidx.
        destruct res as [v|e].
        { by destruct Hidx as (_ & ? & _). }
        destruct Hidx as (_ & Hpos & Hdec & _).
        rewrite (Hretry tl Htl Htid) in Hpos, Hdec.
        assert (calls (rs_world σ) <> k)
          by (intros Heq; by specialize (Hwork Heq)).
        rewrite Hcalls. split; [lia|]. split; [lia|].
        intros l Hl Hlid. rewrite Hids2 in Hlid.
        rewrite (Huniq l tl Hl Htl Hlid Htid). rewrite Hdec. lia.
      * rewrite bool_decide_eq_false_2 in Hcalls; cycle 1.
        { intros (l' & Hl'id & Hl')%list_elem_of_fmap.
          apply Hready in Hl' as [Hl' Hrl'].
          rewrite (Huniq l' tl Hl' Htl (eq_sym Hl'id) Htid) in Hrl'. congruence. }
        rewrite Hcalls, Nat.add_0_r. split; [done|]. split; [done|].
        intros l Hl Hlid. rewrite Hids2 in Hlid.
        rewrite (Huniq l tl Hl Htl Hlid Htid).
        rewrite (lookup_total_eq _ _ _ (Hframe tl Htl Hrtl)). by apply Hretry.
  - (* the batch raises *)
    apply process_results_raise in Hp as (i & l & Hi & Hri & Hretry1 & Hlog);
      [|done].
    specialize (Hres i l _ Hi Hri).
    apply list_elem_of_lookup_2, Hready in Hi as [Hl Hrl].
    apply is_ready_spec in Hrl as (Hnc & _).
    rewrite Hids1 in Hlog. rewrite Hr1 in Hretry1.
    destruct (decide (step_id (rs_heap σ !!! l) = sid)) as [Hsid|]; [|done].
    rewrite Hsid in Hnc, Hlog. destruct Hres as [_ Hwork].
    destruct (Hnin_c Hnc) as (Hk & Hr & Hretry).
    rewrite (Hretry l Hl Hsid) in Hretry1.
    assert (calls (rs_world σ) <> k)
      by (intros Heq; by specialize (Hwork Heq)).
    split; [lia|done].
Qed.

(** The loop of the scenario: it ends normally when the [k] failures are
    within the budget of [sid], and otherwise raises the failure of [sid],
    which is in the error log. *)
Lemma retry_run (fuel : nat) (c : gset string) (σ : RunState) :
  retry_inv c σ ->
  pending_attempts wsteps c (rs_heap σ) < fuel ->
  exists r σ',
    _execute_workflow_steps invoke now repr_list fuel wsteps c σ = Some (r, σ')
    /\ ((Z.of_nat k <= r0)%Z -> r = Ok tt)
    /\ ((r0 < Z.of_nat k)%Z ->
        exists e, r = Raise e
                  /\ step_error_entry sid e ∈ error_log (rs_context σ')).
Proof.
  revert c σ. induction fuel as [|fuel IH]; intros c σ Hri Hfuel; [lia|].
  pose proof Hri as (Hinv & Hsc & Hv & Hin_c & _).
  pose proof Hsc as (_ & (tl & Htl & Htid) & _).
  assert (Hexit : (forall l, l ∈ wsteps -> step_id (rs_heap σ !!! l) ∈ c) ->
            exists r σ', Some (Ok tt, σ) = Some (r, σ')
              /\ ((Z.of_nat k <= r0)%Z -> r = Ok tt)
              /\ ((r0 < Z.of_nat k)%Z ->
                  exists e, r = Raise e
                    /\ step_error_entry sid e ∈ error_log (rs_context σ'))).
  { intros Hall. eexists _, _. split; [done|]. split; [done|].
    intros Hlt. specialize (Hall tl Htl). rewrite Htid in Hall.
    specialize (Hin_c Hall). lia. }
  simpl. destruct (_ <? _) eqn:Hlt; cycle 1.
  { apply Hexit. apply exit_all_completed; [done|].
    apply Nat.ltb_ge in Hlt. lia. }
  rewrite loop_body_unfold. simpl.
  destruct (decide _) as [Hnil|Hnnil].
  { destruct (remaining_steps_of _ _ _) as [|l rest] eqn:Hrem.
    - apply Hexit. intros l Hl.
      destruct (decide (step_id (rs_heap σ !!! l) ∈ c)) as [|Hn]; [done|].
      assert (Hin : l ∈ remaining_steps_of wsteps (rs_heap σ) c)
        by (by apply elem_of_remaining_steps).
      rewrite Hrem in Hin. by apply elem_of_nil in Hin.
    - exfalso.
      assert (Hin : l ∈ remaining_steps_of wsteps (rs_heap σ) c)
        by (rewrite Hrem; left).
      apply elem_of_remaining_steps in Hin.
      destruct (some_step_ready _ _ Hinv Hsc (ex_intro _ l Hin)) as (l' & Hl').
      apply elem_of_ready_steps in Hl'.
      rewrite Hnil in Hl'. by apply elem_of_nil in Hl'. }
  destruct (gather _ _ _ σ) as [results σ1] eqn:Hg.
  destruct (process_results _ _ _ _) as [out σ2] eqn:Hp.
  pose proof (retry_batch _ _ _ _ _ _ Hri Hg Hp) as Hbatch.
  destruct out as [c'|e].
  - apply IH; [done|].
    assert (Hturn : loop_body invoke now repr_list wsteps c σ = Continue c' σ2).
    { rewrite loop_body_unfold. simpl.
      rewrite decide_False by done. by rewrite Hg, Hp. }
    destruct Hinv as [Ha _].
    pose proof (turn_measure _ _ _ _ _ Ha Hturn). lia.
  - destruct Hbatch as [Hlt' Hlog]. eexists _, _. split; [done|].
    split; [lia|eauto].
Qed.

End Retry.

Lemma copy_steps_corr (ts : list loc) (h : list WorkflowStep)
    (ls : list loc) (h' : list WorkflowStep) :
  copy_steps ts h = (ls, h') ->
  (forall l, l ∈ ts -> l < length h) ->
  (forall li, li ∈ ls ->
     exists lt, lt ∈ ts /\ h' !!! li = _copy_step (h !!! lt))
  /\ (forall lt, lt ∈ ts ->
        exists li, li ∈ ls /\ h' !!! li = _copy_step (h !!! lt)).
Proof.
  intros Hc Hb. pose proof (copy_steps_Forall2 _ _ _ _ Hc Hb) as HF. split.
  - intros li [i Hi]%list_elem_of_lookup.
    destruct (Forall2_lookup_r _ _ _ _ _ HF Hi) as (lt & Hlt & Heq).
    exists lt. split; [by eapply list_elem_of_lookup_2|done].
  - intros lt [i Hi]%list_elem_of_lookup.
    destruct (Forall2_lookup_l _ _ _ _ _ HF Hi) as (li & Hli & Heq).
    exists li. split; [by eapply list_elem_of_lookup_2|done].
Qed.

(** The outcome of a run in which one step, [s], calls a capability that
    fails [k] times and then works, and nothing else goes wrong. *)
Lemma retry_outcome (calls : World -> nat) (k : nat) (rank : string -> nat)
    (workflow_id : string) (parameters : option (PyDict PyVal))
    (engine : WorkflowEngine) (w : World) (template : Workflow) (s : loc) :
  let h := objects engine in
  dict_get workflow_id (workflow_templates engine) = Some template ->
  (forall l, l ∈ steps template -> l < length h) ->
  s ∈ steps template ->
  (0 <= retry_count (h !!! s))%Z ->
  NoDup ((fun l => step_id (h !!! l)) <$> steps template) ->
  (forall l, l ∈ steps template ->
     forall d, d ∈ dependencies (h !!! l) ->
       (exists l', l' ∈ steps template /\ step_id (h !!! l') = d)
       /\ rank d < rank (step_id (h !!! l))) ->
  (forall l, l ∈ steps template -> l <> s ->
     (tool (h !!! l), action (h !!! l)) <> (tool (h !!! s), action (h !!! s))) ->
  (forall l ctx, l ∈ steps template ->
     variables ctx = run_variables parameters ->
     is_ok (_check_step_conditions (conditions (h !!! l)) ctx) = true) ->
  (forall ctx, variables ctx = run_variables parameters ->
     _check_step_conditions (conditions (h !!! s)) ctx = Ok true) ->
  (forall t a p w0,
     (t, a) <> (tool (h !!! s), action (h !!! s)) ->
     is_ok (invoke t a p w0).1 = true /\ calls (invoke t a p w0).2 = calls w0) ->
  (forall p w0,
     calls (invoke (tool (h !!! s)) (action (h !!! s)) p w0).2 = S (calls w0)
     /\ (calls w0 < k ->
         is_ok (invoke (tool (h !!! s)) (action (h !!! s)) p w0).1 = false)
     /\ (calls w0 = k ->
         is_ok (invoke (tool (h !!! s)) (action (h !!! s)) p w0).1 = true)) ->
  (forall w0, calls (now w0).2 = calls w0) ->
  (forall w0, calls (uuid4 w0).2 = calls w0) ->
  calls w = 0 ->
  exists uid engine' w' run,
    execute_workflow invoke now uuid4 repr_list workflow_id parameters engine w
    = Some (Ok uid, engine', w')
    /\ dict_get uid (completed_workflows engine') = Some run
    /\ ((Z.of_nat k <= retry_count (h !!! s))%Z ->
        wf_status run = WF_COMPLETED)
    /\ ((retry_count (h !!! s) < Z.of_nat k)%Z ->
        wf_status run = WF_FAILED
        /\ exists e, step_error_entry (step_id (h !!! s)) e
                     ∈ error_log (context run)).
Proof.
  intros h Ht Hb Hs Hr0 Hids Hdeps Huniq Hcond Hconds Hother Htarget Hnow
         Huuid Hw0. unfold h in *. clear h.
  destruct (instantiate now uuid4 template parameters (objects engine) w)
    as [[instance h1] w3] eqn:Hinst.
  pose proof (instantiate_inv _ _ _ _ _ _ _ Hinst) as Hinv0.
  pose proof (instantiate_spec _ _ _ _ _ _ _ Hinst)
    as (Hcopy & _ & _ & Hvars & _ & Hw3).
  destruct (copy_steps_corr _ _ _ _ Hcopy Hb) as [Hit Hti].
  pose proof (copy_steps_ids _ _ _ _ Hcopy Hb) as Hcids.
  assert (Hinj : forall lt, lt ∈ steps template ->
            step_id (objects engine !!! lt) = step_id (objects engine !!! s) -> lt = s).
  { intros lt Hlt Heq.
    by apply (NoDup_fmap_inj (fun l => step_id (objects engine !!! l)) (steps template)). }
  assert (Hsc : scenario (step_id (objects engine !!! s)) (tool (objects engine !!! s)) (action (objects engine !!! s))
                  (run_variables parameters) (steps instance) rank h1).
  { split; [by rewrite Hcids|]. split.
    { destruct (Hti s Hs) as (li & Hli & Heq). exists li. by rewrite Heq. }
    intros li Hli. destruct (Hit li Hli) as (lt & Hlt & ->). simpl.
    split; [|split; [|split]].
    - intros d Hd. destruct (Hdeps lt Hlt d Hd) as [(lt' & Hlt' & Hid) Hrank].
      split; [|done]. destruct (Hti lt' Hlt') as (li' & Hli' & Heq).
      exists li'. by rewrite Heq.
    - intros Hne. apply Huniq; [done|]. by intros ->.
    - intros Heq. by rewrite (Hinj lt Hlt Heq).
    - intros ctx Hctx. split; [by apply Hcond|].
      intros Heq. rewrite (Hinj lt Hlt Heq). by apply Hconds. }
  assert (Hcalls3 : calls w3 = 0).
  { rewrite Hw3, !Hnow, Huuid. done. }
  assert (Hri : retry_inv calls (step_id (objects engine !!! s)) (tool (objects engine !!! s))
                  (action (objects engine !!! s)) k (run_variables parameters)
                  (steps instance) rank (retry_count (objects engine !!! s)) ∅
                  (mkRun h1 (context instance) w3)).
  { split; [done|]. split; [done|]. split; [done|]. split.
    { by intros ?%not_elem_of_empty. }
    intros _. simpl. rewrite Hcalls3. split; [lia|]. split; [lia|].
    intros li Hli. destruct (Hit li Hli) as (lt & Hlt & ->). simpl.
    intros Heq. rewrite (Hinj lt Hlt Heq). lia. }
  destruct (retry_run calls _ _ _ k _ _ rank _ Hother Htarget Hnow
              (run_fuel (steps instance) h1) ∅ _ Hri)
    as (r & σ & Hrun & Hok & Hfail).
  { rewrite pending_attempts_empty. simpl. lia. }
  eexists _, _, _, _.
  split; [by eapply execute_workflow_known|]. simpl.
  split; [apply dict_get_set_eq|]. simpl. split.
  - intros Hle. by rewrite (Hok Hle).
  - intros Hlt. destruct (Hfail Hlt) as (e & -> & Hlog). split; [done|].
    exists e. simpl. apply elem_of_app. by left.
Qed.

(** C3.  Take a step [s] of a template, with retry count [r >= 0], whose
    capability fails [k] times in a row and then works, in a run where
    nothing else goes wrong (the step ids are distinct, the dependencies are
    steps of the workflow and have no cycle, the conditions raise nothing
    and those of [s] hold, the other capabilities work).  When [k >= r+1]
    the run is stored with status [FAILED] and its error log has an entry
    [Step <id of s>: ...]; when [k < r] the run is stored with status
    [COMPLETED]. *)
Theorem retry_semantics (calls : World -> nat) (k : nat)
    (rank : string -> nat)
    (workflow_id : string) (parameters : option (PyDict PyVal))
    (engine : WorkflowEngine) (w : World) (template : Workflow) (s : loc) :
  let h := objects engine in
  dict_get workflow_id (workflow_templates engine) = Some template ->
  (forall l, l ∈ steps template -> l < length h) ->
  s ∈ steps template ->
  (0 <= retry_count (h !!! s))%Z ->
  NoDup ((fun l => step_id (h !!! l)) <$> steps template) ->
  (forall l, l ∈ steps template ->
     forall d, d ∈ dependencies (h !!! l) ->
       (exists l', l' ∈ steps template /\ step_id (h !!! l') = d)
       /\ rank d < rank (step_id (h !!! l))) ->
  (forall l, l ∈ steps template -> l <> s ->
     (tool (h !!! l), action (h !!! l)) <> (tool (h !!! s), action (h !!! s))) ->
  (forall l ctx, l ∈ steps template ->
     variables ctx = run_variables parameters ->
     is_ok (_check_step_conditions (conditions (h !!! l)) ctx) = true) ->
  (forall ctx, variables ctx = run_variables parameters ->
     _check_step_conditions (conditions (h !!! s)) ctx = Ok true) ->
  (forall t a p w0,
     (t, a) <> (tool (h !!! s), action (h !!! s)) ->
     is_ok (invoke t a p w0).1 = true /\ calls (invoke t a p w0).2 = calls w0) ->
  (forall p w0,
     calls (invoke (tool (h !!! s)) (action (h !!! s)) p w0).2 = S (calls w0)
     /\ (calls w0 < k ->
         is_ok (invoke (tool (h !!! s)) (action (h !!! s)) p w0).1 = false)
     /\ (calls w0 = k ->
         is_ok (invoke (tool (h !!! s)) (action (h !!! s)) p w0).1 = true)) ->
  (forall w0, calls (now w0).2 = calls w0) ->
  (forall w0, calls (uuid4 w0).2 = calls w0) ->
  calls w = 0 ->
  exists uid engine' w' run,
    execute_workflow invoke now uuid4 repr_list workflow_id parameters engine w
    = Some (Ok uid, engine', w')
    /\ dict_get uid (completed_workflows engine') = Some run
    /\ ((retry_count (h !!! s) + 1 <= Z.of_nat k)%Z ->
        wf_status run = WF_FAILED
        /\ exists e, step_error_entry (step_id (h !!! s)) e
                     ∈ error_log (context run))
    /\ ((Z.of_nat k < retry_count (h !!! s))%Z ->
        wf_status run = WF_COMPLETED).
Proof.
  intros h Ht Hb Hs Hr0 Hids Hdeps Huniq Hcond Hconds Hother Htarget Hnow
         Huuid Hw0. unfold h in *. clear h.
  destruct (retry_outcome calls k rank workflow_id parameters engine w
              template s Ht Hb Hs Hr0 Hids Hdeps Huniq Hcond Hconds Hother
              Htarget Hnow Huuid Hw0)
    as (uid & engine' & w' & run & Hex & Hrun & Hok & Hfail).
  exists uid, engine', w', run. split; [done|]. split; [done|]. split.
  - intros Hle. apply Hfail. lia.
  - intros Hlt. apply Hok. lia.
Qed.

End EngineProperties.

(** * The theorems at concrete workflows *)

(** ** Sample collaborators

    A world is a clock and the number of calls made to the capability
    [flaky.call], which fails on its first [k] calls. *)
Definition sample_world : Type := nat * nat.

Definition sample_now (w : sample_world) : datetime * sample_world :=
  (w.1, (S w.1, w.2)).

Definition sample_uuid4 (w : sample_world) : string * sample_world :=
  ("run-1", w).

Definition sample_calls (w : sample_world) : nat := w.2.

Definition sample_invoke (k : nat) (t a : string) (p : PyDict PyVal)
    (w : sample_world) : Result PyVal * sample_world :=
  if String.eqb t "flaky" && String.eqb a "call" then
    (if w.2 <? k then Raise (mkExc "ConnectionError" "connection refused")
     else Ok (VStr "pong"),
     (w.1, S w.2))
  else (Ok (VDict [("tool", VStr t); ("action", VStr a);
                   ("parameters", VDict p)]), w).

(** The rendering of a list of plain strings. *)
Definition sample_repr_list (l : list string) : string :=
  "[" +:+ String.concat ", " (map (fun s => "'" +:+ s +:+ "'") l) +:+ "]".

(** A step as the constructor of [WorkflowStep] builds it. *)
Definition new_step (id t a : string) (ps : PyDict PyVal)
    (deps : list string) (conds : list (PyDict PyVal)) (retries : Z)
    : WorkflowStep :=
  mkStep id t a ps deps conds 30 retries None None WAITING VNone None None None.

Definition new_template (id : string) (ss : list loc) : Workflow :=
  mkWorkflow id id "" ss empty_context WF_PENDING 0 [] [].

(** A chain: B depends on A, C depends on B; B calls the failing
    capability and has two retries. *)
Definition chain_engine : WorkflowEngine :=
  mkEngine [] []
    [("chain", new_template "chain" [0; 1; 2])]
    [new_step "A" "fetch" "get" [("q", VStr "{town}")] [] [] 3;
     new_step "B" "flaky" "call" [] ["A"] [] 2;
     new_step "C" "store" "put" [("v", VStr "{B}")] ["B"] [] 3].

(** Two steps that wait for each other. *)
Definition deadlock_engine : WorkflowEngine :=
  mkEngine [] []
    [("knot", new_template "knot" [0; 1])]
    [new_step "A" "fetch" "get" [] ["B"] [] 3;
     new_step "B" "store" "put" [] ["A"] [] 3].

(** The chain runs to the end when the capability of B fails once. *)
Example chain_run_one_failure :
  match execute_workflow (sample_invoke 1) sample_now sample_uuid4
          sample_repr_list "chain" (Some [("town", VStr "Seoul")])
          chain_engine (0, 0) with
  | Some (Ok uid, engine', _) =>
      uid = "run-1"
      /\ (wf_status <$> dict_get uid (completed_workflows engine'))
         = Some WF_COMPLETED
      /\ (error_log ∘ context <$> dict_get uid (completed_workflows engine'))
         = Some ["Step B: connection refused"]
      /\ (dict_keys ∘ step_results ∘ context
          <$> dict_get uid (completed_workflows engine'))
         = Some ["A"; "B"; "C"]
      /\ map status (objects engine')
         = [WAITING; WAITING; WAITING; COMPLETED; COMPLETED; COMPLETED]
  | _ => False
  end.
Proof. vm_compute. repeat split. Qed.

(** The two steps that wait for each other: the run fails with the
    deadlock message, which names both. *)
Example deadlock_run :
  match execute_workflow (sample_invoke 0) sample_now sample_uuid4
          sample_repr_list "knot" None deadlock_engine (0, 0) with
  | Some (Ok uid, engine', _) =>
      (wf_status <$> dict_get uid (completed_workflows engine'))
      = Some WF_FAILED
      /\ (error_log ∘ context <$> dict_get uid (completed_workflows engine'))
         = Some ["데드락 감지: 실행할 수 없는 단계들 - ['A', 'B']"]
  | _ => False
  end.
Proof. vm_compute. repeat split. Qed.

(** C1 on the chain: at the second turn the batch is the copy of B alone;
    when it is started, A is completed. *)
Lemma dependency_gating_witness :
  exists instance h1 w3 c σ,
    instantiate sample_now sample_uuid4 (new_template "chain" [0; 1; 2])
                None (objects chain_engine) (0, 0) = (instance, h1, w3)
    /\ loop_head (sample_invoke 0) sample_now sample_repr_list 1
                 (steps instance) ∅ (mkRun h1 (context instance) w3)
       = Some (c, σ)
    /\ ready_steps_of (steps instance) (rs_heap σ) c = [] ++ 4 :: []
    /\ let σl := (gather (sample_invoke 0) sample_now [] σ).2 in
       status (rs_heap σl !!! 4) = WAITING
       /\ forall dep, dep ∈ dependencies (rs_heap σl !!! 4) ->
            dep ∈ c
            /\ exists l', l' ∈ steps instance
                          /\ step_id (rs_heap σl !!! l') = dep
                          /\ status (rs_heap σl !!! l') = COMPLETED.
Proof.
  eexists _, _, _, _, _.
  split; [vm_compute; reflexivity|].
  split; [vm_compute; reflexivity|].
  split; [vm_compute; reflexivity|].
  eapply (dependency_gating (sample_invoke 0) sample_now sample_uuid4
            sample_repr_list (new_template "chain" [0; 1; 2]) _ None
            (objects chain_engine) _ (0, 0) _ 1 _ _ [] [] 4);
    vm_compute; reflexivity.
Defined.


(** C7 on the same workflow. *)
Lemma failure_containment_witness :
  exists uid engine' w' report,
    execute_workflow (sample_invoke 0) sample_now sample_uuid4
      sample_repr_list "knot" None deadlock_engine (0, 0)
    = Some (Ok uid, engine', w')
    /\ dict_get uid (active_workflows engine') = None
    /\ is_Some (dict_get uid (completed_workflows engine'))
    /\ get_workflow_status engine' uid = Some report
    /\ sr_id report = uid.
Proof.
  destruct (failure_containment (sample_invoke 0) sample_now sample_uuid4
              sample_repr_list "knot" None deadlock_engine (0, 0)
              (new_template "knot" [0; 1]) eq_refl)
    as (instance & h1 & w3 & r & σ & uid & engine' & w' & final & report
        & _ & _ & Hex & _ & Hact & Hdone & _ & _ & Hget & Hid & _).
  exists uid, engine', w', report. by repeat split.
Defined.

(** C8 on the chain: after a run the three steps of the template are what
    they were. *)
Lemma template_immutability_witness :
  exists res engine' w',
    execute_workflow (sample_invoke 1) sample_now sample_uuid4
      sample_repr_list "chain" None chain_engine (0, 0)
    = Some (res, engine', w')
    /\ workflow_templates engine' = workflow_templates chain_engine
    /\ forall l, l < 3 -> objects engine' !! l = objects chain_engine !! l.
Proof.
  destruct (execute_workflow (sample_invoke 1) sample_now sample_uuid4
              sample_repr_list "chain" None chain_engine (0, 0))
    as [[[res engine'] w']|] eqn:Hex; [|vm_compute in Hex; discriminate].
  exists res, engine', w'. split; [reflexivity|].
  destruct (template_immutability (sample_invoke 1) sample_now sample_uuid4
              sample_repr_list "chain" None chain_engine engine' (0, 0) w' res
              Hex) as (Htemplates & Hobjects & _).
  split; [exact Htemplates|]. intros l Hl. apply Hobjects. simpl. lia.
Defined.

(** Membership in a concrete list, case by case. *)
Ltac each_element H :=
  repeat (apply elem_of_cons in H as [->|H]);
  [..|by apply elem_of_nil in H].

(** ** Skipped steps *)

Section SkippedSteps.

Context {World : Type}.
Variable invoke : string -> string -> PyDict PyVal -> World -> Result PyVal * World.
Variable now : World -> datetime * World.
Variable uuid4 : World -> string * World.
Variable repr_list : list string -> string.

(** [_execute_step] on a step whose conditions are false. *)
Lemma execute_step_skipped (l : loc) (σ : RunState) :
  l < length (rs_heap σ) ->
  _check_step_conditions (conditions (rs_heap σ !!! l)) (rs_context σ)
  = Ok false ->
  exists σ', _execute_step invoke now l σ = (Ok VNone, σ')
             /\ status (rs_heap σ' !!! l) = SKIPPED
             /\ rs_world σ' = (now (rs_world σ)).2
             /\ rs_context σ' = rs_context σ.
Proof.
  intros Hl Hcond. unfold _execute_step.
  destruct (now (rs_world σ)) as [t0 w0].
  rewrite (alter_field conditions) by done. rewrite Hcond.
  eexists. split; [done|]. simpl.
  by rewrite list_lookup_total_alter_eq by (by rewrite length_alter).
Qed.

(** In a batch, such a step yields [None] and is [SKIPPED] when all tasks
    are done. *)
Lemma gather_skipped (ready : list loc) (σ σ1 : RunState)
    (results : list (Result PyVal)) (i : nat) (l : loc) :
  NoDup ready ->
  (forall l', l' ∈ ready -> l' < length (rs_heap σ)) ->
  gather invoke now ready σ = (results, σ1) ->
  ready !! i = Some l ->
  _check_step_conditions (conditions (rs_heap σ !!! l)) (rs_context σ)
  = Ok false ->
  results !! i = Some (Ok VNone) /\ status (rs_heap σ1 !!! l) = SKIPPED.
Proof.
  revert σ results i.
  induction ready as [|l0 ready IH]; intros σ results i Hnd Hb; [done|].
  apply NoDup_cons in Hnd as [Hnin Hnd]. simpl.
  destruct (_execute_step _ _ l0 σ) as [r σa] eqn:E1.
  destruct (gather _ _ ready σa) as [rs σb] eqn:E2. intros [= <- <-].
  pose proof (execute_step_spec _ _ _ _ _ _ E1) as (Hca & Hsa & _ & _).
  destruct i as [|i]; simpl.
  - intros [= <-] Hcond.
    destruct (execute_step_skipped l0 σ) as (σ' & Hex & Hst & _);
      [apply Hb; left|done|].
    rewrite E1 in Hex. injection Hex as -> <-. split; [done|].
    apply gather_spec in E2 as (_ & _ & Hf & _).
    by rewrite (lookup_total_eq _ _ _ (Hf l0 Hnin)).
  - intros Hi Hcond. apply (IH σa rs i); [done| |done|done|].
    + intros l' Hl'. destruct Hsa as [-> _]. apply Hb. by right.
    + destruct (same_shape_call _ _ l Hsa) as (_ & _ & _ & ->).
      by rewrite Hca.
Qed.

(** The loop over the results gets as far as the step at position [i] when
    no step before it in the batch has failed without a retry left; it then
    completes that step. *)
Lemma process_results_through (ready : list loc)
    (results : list (Result PyVal)) (c : gset string) (σ : @RunState World)
    (i : nat) (l : loc) (v : PyVal) :
  NoDup ready ->
  (forall l', l' ∈ ready -> l' < length (rs_heap σ)) ->
  ready !! i = Some l ->
  results !! i = Some (Ok v) ->
  (forall j lj e, j < i -> ready !! j = Some lj ->
     results !! j = Some (Raise e) ->
     (0 < retry_count (rs_heap σ !!! lj))%Z) ->
  exists ci σi,
    process_results (take (S i) ready) (take (S i) results) c σ = (Ok ci, σi)
    /\ process_results ready results c σ
       = process_results (drop (S i) ready) (drop (S i) results) ci σi
    /\ status (rs_heap σi !!! l) = COMPLETED
    /\ result (rs_heap σi !!! l) = v
    /\ dict_get (step_id (rs_heap σ !!! l)) (step_results (rs_context σi))
       = Some v
    /\ step_id (rs_heap σ !!! l) ∈ ci.
Proof.
  revert ready results c σ.
  induction i as [|i IH]; intros ready results c σ Hnd Hb Hi Hr Hretry.
  - destruct ready as [|l0 ready]; [done|]. injection Hi as ->.
    destruct results as [|r results]; [done|]. injection Hr as ->.
    assert (Hl : l < length (rs_heap σ)) by (apply Hb; left).
    eexists _, _. simpl. rewrite !drop_0, (alter_field step_id) by done.
    destruct ready, results; (split; [reflexivity|]);
      (split; [reflexivity|]); simpl;
      rewrite list_lookup_total_alter_eq by done;
      (split; [done|]); (split; [done|]);
      (split; [apply dict_get_set_eq|set_solver]).
  - destruct ready as [|l0 ready]; [done|].
    destruct results as [|r results]; [done|].
    apply NoDup_cons in Hnd as [Hnin Hnd]. simpl in Hi, Hr.
    assert (Hne : l0 <> l).
    { intros ->. apply Hnin. by eapply list_elem_of_lookup_2. }
    assert (Hl0 : l0 < length (rs_heap σ)) by (apply Hb; left).
    change (take (S (S i)) (l0 :: ready)) with (l0 :: take (S i) ready).
    change (take (S (S i)) (r :: results)) with (r :: take (S i) results).
    change (drop (S (S i)) (l0 :: ready)) with (drop (S i) ready).
    change (drop (S (S i)) (r :: results)) with (drop (S i) results).
    cbn [process_results].
    destruct r as [v0|e0].
    + set (h1 := alter (fun s => set_result v0 (set_status COMPLETED s)) l0
                       (rs_heap σ)).
      set (σ0 := mkRun h1
                   (set_step_results
                      (dict_set (step_id (h1 !!! l0)) v0
                         (step_results (rs_context σ)))
                      (rs_context σ))
                   (rs_world σ)).
      assert (Hb0 : forall l', l' ∈ ready -> l' < length (rs_heap σ0)).
      { intros l' Hl'. unfold σ0, h1. cbn [rs_heap]. rewrite length_alter.
        apply Hb. by right. }
      assert (Hretry0 : forall j lj e, j < i -> ready !! j = Some lj ->
                results !! j = Some (Raise e) ->
                (0 < retry_count (rs_heap σ0 !!! lj))%Z).
      { intros j lj e Hj Hlj Hrj. unfold σ0, h1. cbn [rs_heap].
        rewrite (alter_field retry_count) by done.
        apply (Hretry (S j) lj e); [lia|done..]. }
      destruct (IH ready results (c ∪ {[step_id (h1 !!! l0)]}) σ0
                  Hnd Hb0 Hi Hr Hretry0)
        as (ci & σi & Htake & Hfull & Hst & Hres & Hget & Hin).
      exists ci, σi. rewrite Htake, Hfull.
      unfold σ0, h1 in Hget, Hin. cbn [rs_heap] in Hget, Hin.
      rewrite list_lookup_total_alter_ne in Hget, Hin by done. done.
    + assert (Hpos : (0 < retry_count (rs_heap σ !!! l0))%Z)
        by (by apply (Hretry 0 l0 e0); [lia|..]).
      rewrite (alter_field retry_count) by done.
      apply Z.ltb_lt in Hpos. rewrite Hpos.
      set (h1 := alter (fun s => set_error (Some (str e0)) (set_status FAILED s))
                       l0 (rs_heap σ)).
      set (h2 := alter (fun s => set_status WAITING
                                   (set_retry_count (retry_count s - 1)%Z s))
                       l0 h1).
      set (σ0 := mkRun h2
                   (append_error_log
                      ("Step " +:+ step_id (h1 !!! l0) +:+ ": " +:+ str e0)
                      (rs_context σ))
                   (rs_world σ)).
      assert (Hb0 : forall l', l' ∈ ready -> l' < length (rs_heap σ0)).
      { intros l' Hl'. unfold σ0, h2, h1. cbn [rs_heap]. rewrite !length_alter.
        apply Hb. by right. }
      assert (Hretry0 : forall j lj e, j < i -> ready !! j = Some lj ->
                results !! j = Some (Raise e) ->
                (0 < retry_count (rs_heap σ0 !!! lj))%Z).
      { intros j lj e Hj Hlj Hrj. unfold σ0, h2, h1. cbn [rs_heap].
        assert (l0 <> lj).
        { intros ->. apply Hnin. by eapply list_elem_of_lookup_2. }
        rewrite !list_lookup_total_alter_ne by done.
        apply (Hretry (S j) lj e); [lia|done..]. }
      destruct (IH ready results c σ0 Hnd Hb0 Hi Hr Hretry0)
        as (ci & σi & Htake & Hfull & Hst & Hres & Hget & Hin).
      exists ci, σi. rewrite Htake, Hfull.
      unfold σ0, h2, h1 in Hget, Hin. cbn [rs_heap] in Hget, Hin.
      rewrite !list_lookup_total_alter_ne in Hget, Hin by done. done.
Qed.

(** The loop over the results raises at the first step that has failed
    without a retry left; the steps after it in the batch stay as the tasks
    have left them. *)
Lemma process_results_blocked (ready : list loc)
    (results : list (Result PyVal)) (c : gset string) (σ : @RunState World)
    (i j : nat) (l lj : loc) (e : Exc) :
  NoDup ready ->
  ready !! i = Some l -> j < i ->
  ready !! j = Some lj -> results !! j = Some (Raise e) ->
  (retry_count (rs_heap σ !!! lj) <= 0)%Z ->
  exists e' σ',
    process_results ready results c σ = (Raise e', σ')
    /\ rs_heap σ' !! l = rs_heap σ !! l.
Proof.
  revert results c σ i j.
  induction ready as [|l0 ready IH]; intros results c σ i j Hnd Hi Hji Hj Hr Hretry;
    [done|].
  destruct results as [|r results]; [done|].
  apply NoDup_cons in Hnd as [Hnin Hnd].
  destruct i as [|i]; [lia|]. simpl in Hi.
  assert (Hne : l0 <> l).
  { intros ->. apply Hnin. by eapply list_elem_of_lookup_2. }
  cbn [process_results]. destruct r as [v0|e0].
  - destruct j as [|j]; [done|]. simpl in Hj, Hr.
    edestruct (IH results) as (e' & σ' & -> & Hl); [done|exact Hi| |exact Hj|exact Hr| |].
    + lia.
    + cbn [rs_heap]. by rewrite (alter_field retry_count).
    + eexists _, _. split; [done|]. rewrite Hl. cbn [rs_heap].
      by rewrite list_lookup_alter_ne.
  - rewrite (alter_field retry_count) by done.
    destruct (0 <? retry_count (rs_heap σ !!! l0))%Z eqn:Hpos.
    + apply Z.ltb_lt in Hpos. destruct j as [|j].
      { simpl in Hj. injection Hj as ->. lia. }
      simpl in Hj, Hr.
      assert (l0 <> lj).
      { intros ->. apply Hnin. by eapply list_elem_of_lookup_2. }
      edestruct (IH results) as (e' & σ' & -> & Hl);
        [done|exact Hi| |exact Hj|exact Hr| |].
      * lia.
      * cbn [rs_heap]. by rewrite !list_lookup_total_alter_ne.
      * eexists _, _. split; [done|]. rewrite Hl. cbn [rs_heap].
        by rewrite !list_lookup_alter_ne.
    + eexists _, _. split; [done|]. cbn [rs_heap].
      by rewrite list_lookup_alter_ne.
Qed.

(** C10, amended.  (1) A step whose conditions are false is marked
    [SKIPPED] by [_execute_step], which returns [None]; the world is the one
    after the reading of the clock, whatever the invoker is: it is not
    called.  (2) Take any turn of the loop in a run of any template, the
    batch [ready] of that turn, the results [results] of its tasks, and
    such a step at position [i] of the batch.  Its result is [None] and it
    is [SKIPPED] when all tasks are done.  When no step before it in the
    batch has failed with no retry left, the loop over the results reaches
    it: after the turn for position [i] its status is [COMPLETED], [None]
    is stored under its id in [step_results] and its id is in
    [completed_steps]; whatever the rest of the loop does, it is
    [COMPLETED] at the end, with an entry for its id.  When a step before
    it has failed with no retry left, the loop raises before it reaches
    position [i], and the step is still [SKIPPED].  (3) In a run that ends with status
    [COMPLETED] of a template whose step ids are distinct, every step has
    status [COMPLETED] and [step_results] has an entry for its id. *)
Theorem skipped_steps_absorbed :
  (forall (l : loc) (σ : RunState),
      l < length (rs_heap σ) ->
      _check_step_conditions (conditions (rs_heap σ !!! l)) (rs_context σ)
      = Ok false ->
      exists σ', _execute_step invoke now l σ = (Ok VNone, σ')
                 /\ status (rs_heap σ' !!! l) = SKIPPED
                 /\ rs_world σ' = (now (rs_world σ)).2
                 /\ rs_context σ' = rs_context σ)
  /\ (forall (template instance : Workflow)
             (parameters : option (PyDict PyVal)) (h h1 : list WorkflowStep)
             (w w3 : World) (n : nat) (c : gset string) (σ σ1 : RunState)
             (ready : list loc) (results : list (Result PyVal))
             (i : nat) (l : loc),
        instantiate now uuid4 template parameters h w = (instance, h1, w3) ->
        loop_head invoke now repr_list n (steps instance) ∅
                  (mkRun h1 (context instance) w3) = Some (c, σ) ->
        ready_steps_of (steps instance) (rs_heap σ) c = ready ->
        gather invoke now ready σ = (results, σ1) ->
        ready !! i = Some l ->
        _check_step_conditions (conditions (rs_heap σ !!! l)) (rs_context σ)
        = Ok false ->
        results !! i = Some (Ok VNone)
        /\ status (rs_heap σ1 !!! l) = SKIPPED
        /\ ((forall j lj e, j < i -> ready !! j = Some lj ->
               results !! j = Some (Raise e) ->
               (0 < retry_count (rs_heap σ !!! lj))%Z) ->
            (exists ci σi,
               process_results (take (S i) ready) (take (S i) results) c σ1
               = (Ok ci, σi)
               /\ status (rs_heap σi !!! l) = COMPLETED
               /\ result (rs_heap σi !!! l) = VNone
               /\ dict_get (step_id (rs_heap σ !!! l))
                           (step_results (rs_context σi)) = Some VNone
               /\ step_id (rs_heap σ !!! l) ∈ ci)
            /\ forall out σ2,
                 process_results ready results c σ1 = (out, σ2) ->
                 status (rs_heap σ2 !!! l) = COMPLETED
                 /\ result (rs_heap σ2 !!! l) = VNone
                 /\ dict_mem (step_id (rs_heap σ !!! l))
                             (step_results (rs_context σ2)) = true
                 /\ forall c', out = Ok c' -> step_id (rs_heap σ !!! l) ∈ c')
        /\ (forall j lj e, j < i -> ready !! j = Some lj ->
              results !! j = Some (Raise e) ->
              (retry_count (rs_heap σ !!! lj) <= 0)%Z ->
              exists e' σ2,
                process_results ready results c σ1 = (Raise e', σ2)
                /\ status (rs_heap σ2 !!! l) = SKIPPED))
  /\ (forall (workflow_id : string) (parameters : option (PyDict PyVal))
             (engine engine' : WorkflowEngine) (w w' : World)
             (template run : Workflow) (uid : string),
        dict_get workflow_id (workflow_templates engine) = Some template ->
        (forall l, l ∈ steps template -> l < length (objects engine)) ->
        NoDup ((fun l => step_id (objects engine !!! l)) <$> steps template) ->
        execute_workflow invoke now uuid4 repr_list workflow_id parameters
                         engine w = Some (Ok uid, engine', w') ->
        dict_get uid (completed_workflows engine') = Some run ->
        wf_status run = WF_COMPLETED ->
        forall l, l ∈ steps run ->
          status (objects engine' !!! l) = COMPLETED
          /\ dict_mem (step_id (objects engine' !!! l))
                      (step_results (context run)) = true).
Proof.
  split; [exact execute_step_skipped|split].
  - intros template instance parameters h h1 w w3 n c σ σ1 ready results i l
           Hinst Hhead Hready Hg Hi Hcond.
    pose proof (instantiate_inv _ _ _ _ _ _ _ _ _ Hinst) as Hinv0.
    destruct (loop_head_inv _ _ _ _ _ _ _ _ _ Hinv0 Hhead)
      as (([Hsteps Halloc] & _) & _).
    assert (Hnd : NoDup ready)
      by (rewrite <- Hready; by apply NoDup_ready_steps).
    assert (Hb : forall l', l' ∈ ready -> l' < length (rs_heap σ)).
    { intros l' Hl'. rewrite <- Hready in Hl'.
      apply elem_of_ready_steps in Hl' as [Hl' _]. by apply Halloc. }
    destruct (gather_skipped _ _ _ _ _ _ Hnd Hb Hg Hi Hcond) as [Hr Hst].
    pose proof (gather_spec _ _ _ _ _ _ Hg) as (_ & Hs & _ & Hretry & _).
    assert (Hb1 : forall l', l' ∈ ready -> l' < length (rs_heap σ1)).
    { intros l' Hl'. destruct Hs as [-> _]. by apply Hb. }
    split; [done|]. split; [done|]. split.
    + intros Hleft.
      destruct (process_results_through ready results c σ1 i l VNone)
        as (ci & σi & Htake & Hfull & Hsti & Hresi & Hget & Hin);
        [done..| |].
      { intros j lj e Hj Hlj Hrj. rewrite Hretry. by eapply Hleft. }
      rewrite (same_shape_id _ _ l Hs) in Hget, Hin.
      split; [by exists ci, σi|].
      intros out σ2 Hp. rewrite Hfull in Hp.
      assert (Hnin : l ∉ drop (S i) ready).
      { intros (k & Hk)%list_elem_of_lookup_1. rewrite lookup_drop in Hk.
        pose proof (NoDup_lookup _ _ _ _ Hnd Hi Hk). lia. }
      pose proof (process_results_frame _ _ _ _ _ _ Hp)
        as (Hsi & _ & _ & Hf & Hk & _).
      rewrite (lookup_total_eq _ _ _ (Hf l Hnin)).
      split; [done|]. split; [done|]. split.
      * apply Hk. unfold dict_mem. by rewrite Hget.
      * intros c' ->.
        assert (Hndi : NoDup (drop (S i) ready))
          by (eapply sublist_NoDup; [exact Hnd|apply sublist_drop]).
        assert (Hbi : forall l', l' ∈ drop (S i) ready ->
                        l' < length (rs_heap σi)).
        { intros l' Hl'.
          pose proof (process_results_frame _ _ _ _ _ _ Htake) as ([-> _] & _).
          apply Hb1. eapply elem_of_sublist; [exact Hl'|apply sublist_drop]. }
        destruct (process_results_ok _ _ _ _ _ _ Hndi Hbi Hp) as (Hsub & _).
        by apply Hsub.
    + intros j lj e Hj Hlj Hrj Hnone.
      destruct (process_results_blocked ready results c σ1 i j l lj e)
        as (e' & σ2 & Hp & Hkeep); [done..|by rewrite Hretry|].
      exists e', σ2. split; [done|].
      by rewrite (lookup_total_eq _ _ _ Hkeep).
  - intros workflow_id parameters engine engine' w w' template run uid
           Ht Hb Hids Hex Hrun Hst l Hl.
    destruct (instantiate now uuid4 template parameters (objects engine) w)
      as [[instance h1] w3] eqn:Hinst.
    destruct (run_total invoke now uuid4 repr_list _ _ _ _ _ _ _ Hinst)
      as (r & σ & Hloop).
    rewrite (execute_workflow_known invoke now uuid4 repr_list
               _ _ _ _ _ _ _ _ _ _ Ht Hinst Hloop) in Hex.
    injection Hex as <- <- <-.
    cbn [completed_workflows objects] in *.
    rewrite dict_get_set_eq in Hrun. injection Hrun as <-.
    destruct r as [[]|e]; [|done]. cbn in Hl |- *.
    pose proof (instantiate_inv _ _ _ _ _ _ _ _ _ Hinst) as Hinv0.
    destruct (run_ok_completed _ _ _ _ _ _ _ _ Hinv0 Hloop)
      as (c' & (_ & Hdone & _) & Hall).
    destruct (Hdone _ (Hall l Hl)) as (l2 & Hl2 & Hid2 & Hst2 & Hres2).
    assert (l2 = l) as ->.
    { apply run_frame in Hloop as (Hs & _).
      apply instantiate_spec in Hinst as (Hcopy & _).
      apply (NoDup_fmap_inj (fun l => step_id (rs_heap σ !!! l))
                            (steps instance)); [|done..].
      erewrite list_fmap_ext; [|intros ? ? _; apply (same_shape_id _ _ _ Hs)].
      simpl. by rewrite (copy_steps_ids _ _ _ _ Hcopy Hb). }
    done.
Qed.

End SkippedSteps.

(** A batch of three: X calls the failing capability and has one retry, S
    has a condition on a variable that the run does not have, T has no
    condition. *)
Definition absorb_engine : WorkflowEngine :=
  mkEngine [] []
    [("absorb", new_template "absorb" [0; 1; 2])]
    [new_step "X" "flaky" "call" [] [] [] 1;
     new_step "S" "store" "put" [] []
       [[("type", VStr "variable_exists"); ("variable", VStr "token")]] 3;
     new_step "T" "fetch" "get" [] [] [] 3].

(** A batch of two: X has no retry. *)
Definition blocked_engine : WorkflowEngine :=
  mkEngine [] []
    [("blocked", new_template "blocked" [0; 1])]
    [new_step "X" "flaky" "call" [] [] [] 0;
     new_step "S" "store" "put" [] []
       [[("type", VStr "variable_exists"); ("variable", VStr "token")]] 3].

(** The same batch when no capability fails: the condition of X asks for a
    variable whose name is a list, which no dictionary can look up. *)
Definition unhashable_engine : WorkflowEngine :=
  mkEngine [] []
    [("unhashable", new_template "unhashable" [0; 1])]
    [new_step "X" "fetch" "get" [] []
       [[("type", VStr "variable_exists"); ("variable", VList [VStr "token"])]]
       0;
     new_step "S" "store" "put" [] []
       [[("type", VStr "variable_exists"); ("variable", VStr "token")]] 3].

(** Two steps of the same id; the second depends on that id. *)
Definition twin_engine : WorkflowEngine :=
  mkEngine [] []
    [("twin", new_template "twin" [0; 1])]
    [new_step "A" "fetch" "get" [] []
       [[("type", VStr "variable_exists"); ("variable", VStr "token")]] 3;
     new_step "A" "store" "put" [] ["A"] [] 3].

(** C10, as stated, fails twice.  In the run of [blocked_engine] the two
    steps are the batch of the first turn; the capability of X fails and X
    has no retry, so the loop over the results raises at X: S, whose
    condition is false, was marked [SKIPPED] by its task and stays so, and
    [step_results] has no entry for it.  The same happens in the run of
    [unhashable_engine], where no capability fails: the task of X raises in
    its own condition check.  In the run of [twin_engine] the first step is
    skipped and absorbed; its id is then in [completed_steps], so the second
    step, of the same id, is neither ready nor remaining: the run ends with
    status [COMPLETED] while that step still waits. *)
Lemma skipped_step_left_behind :
  match execute_workflow (sample_invoke 1) sample_now sample_uuid4
          sample_repr_list "blocked" None blocked_engine (0, 0) with
  | Some (Ok uid, engine', _) =>
      exists run,
        dict_get uid (completed_workflows engine') = Some run
        /\ steps run = [2; 3]
        /\ step_id (objects engine' !!! 3) = "S"
        /\ _check_step_conditions (conditions (objects engine' !!! 3))
                                  (context run) = Ok false
        /\ wf_status run = WF_FAILED
        /\ status (objects engine' !!! 2) = FAILED
        /\ status (objects engine' !!! 3) = SKIPPED
        /\ dict_mem "S" (step_results (context run)) = false
  | _ => False
  end
  /\ (let '(instance, h1, w3) :=
        instantiate sample_now sample_uuid4 (new_template "blocked" [0; 1])
                    None (objects blocked_engine) (0, 0) in
      let σ := mkRun h1 (context instance) w3 in
      let ready := ready_steps_of (steps instance) h1 ∅ in
      let '(results, σ1) := gather (sample_invoke 1) sample_now ready σ in
      let '(out, σ2) := process_results ready results ∅ σ1 in
      ready = [2; 3]
      /\ _check_step_conditions (conditions (rs_heap σ !!! 3)) (rs_context σ)
         = Ok false
      /\ results = [Raise (mkExc "ConnectionError" "connection refused");
                    Ok VNone]
      /\ status (rs_heap σ1 !!! 3) = SKIPPED
      /\ out = Raise (mkExc "ConnectionError" "connection refused")
      /\ status (rs_heap σ2 !!! 3) = SKIPPED
      /\ step_results (rs_context σ2) = [])
  /\ match execute_workflow (sample_invoke 0) sample_now sample_uuid4
             sample_repr_list "unhashable" None unhashable_engine (0, 0) with
     | Some (Ok uid, engine', _) =>
         exists run,
           dict_get uid (completed_workflows engine') = Some run
           /\ steps run = [2; 3]
           /\ _check_step_conditions (conditions (objects engine' !!! 3))
                                     (context run) = Ok false
           /\ wf_status run = WF_FAILED
           /\ error_log (context run)
              = ["Step X: unhashable type: 'list'"; "unhashable type: 'list'"]
           /\ status (objects engine' !!! 3) = SKIPPED
           /\ dict_mem "S" (step_results (context run)) = false
     | _ => False
     end
  /\ match execute_workflow (sample_invoke 0) sample_now sample_uuid4
             sample_repr_list "twin" None twin_engine (0, 0) with
     | Some (Ok uid, engine', _) =>
         exists run,
           dict_get uid (completed_workflows engine') = Some run
           /\ wf_status run = WF_COMPLETED
           /\ steps run = [2; 3]
           /\ status (objects engine' !!! 2) = COMPLETED
           /\ status (objects engine' !!! 3) = WAITING
     | _ => False
     end.
Proof.
  split; [|split; [|split]].
  - vm_compute. eexists. repeat split.
  - vm_compute. repeat split.
  - vm_compute. eexists. repeat split.
  - vm_compute. eexists. repeat split.
Qed.

(** C10, amended, on the batch of [absorb_engine], whose first step fails
    and has a retry left: the skipped step, second in the batch, is
    absorbed, and the run completes at the second turn; and on the batch of
    [blocked_engine], where the loop raises before the skipped step. *)

(** C10, amended, on the first turn of the run of [absorb_engine], whose
    first step fails and has a retry left: the skipped step, second in the
    batch, is absorbed, and the run completes at the second turn; and on
    the first turn of the run of [blocked_engine], where the loop raises
    before the skipped step. *)
Lemma skipped_steps_absorbed_witness :
  (exists σ',
     _execute_step (sample_invoke 1) sample_now 1
       (mkRun (objects absorb_engine) empty_context ((0, 0) : sample_world))
     = (Ok VNone, σ')
     /\ status (rs_heap σ' !!! 1) = SKIPPED
     /\ rs_world σ' = (1, 0))
  /\ (exists instance h1 w3 results σ1,
        instantiate sample_now sample_uuid4 (new_template "absorb" [0; 1; 2])
                    None (objects absorb_engine) (0, 0) = (instance, h1, w3)
        /\ ready_steps_of (steps instance) h1 ∅ = [3; 4; 5]
        /\ gather (sample_invoke 1) sample_now [3; 4; 5]
                  (mkRun h1 (context instance) w3) = (results, σ1)
        /\ results !! 0
           = Some (Raise (mkExc "ConnectionError" "connection refused"))
        /\ results !! 1 = Some (Ok VNone)
        /\ status (rs_heap σ1 !!! 4) = SKIPPED
        /\ (exists ci σi,
              process_results [3; 4] (take 2 results) ∅ σ1 = (Ok ci, σi)
              /\ status (rs_heap σi !!! 4) = COMPLETED
              /\ result (rs_heap σi !!! 4) = VNone
              /\ dict_get "S" (step_results (rs_context σi)) = Some VNone
              /\ "S" ∈ ci)
        /\ (exists c' σ2,
              process_results [3; 4; 5] results ∅ σ1 = (Ok c', σ2)
              /\ status (rs_heap σ2 !!! 4) = COMPLETED
              /\ result (rs_heap σ2 !!! 4) = VNone
              /\ dict_mem "S" (step_results (rs_context σ2)) = true
              /\ "S" ∈ c'))
  /\ (exists instance h1 w3 results σ1,
        instantiate sample_now sample_uuid4 (new_template "blocked" [0; 1])
                    None (objects blocked_engine) (0, 0) = (instance, h1, w3)
        /\ ready_steps_of (steps instance) h1 ∅ = [2; 3]
        /\ gather (sample_invoke 1) sample_now [2; 3]
                  (mkRun h1 (context instance) w3) = (results, σ1)
        /\ results !! 0
           = Some (Raise (mkExc "ConnectionError" "connection refused"))
        /\ exists e' σ2,
             process_results [2; 3] results ∅ σ1 = (Raise e', σ2)
             /\ status (rs_heap σ2 !!! 3) = SKIPPED)
  /\ (exists uid engine' w' run,
        execute_workflow (sample_invoke 1) sample_now sample_uuid4
          sample_repr_list "absorb" None absorb_engine (0, 0)
        = Some (Ok uid, engine', w')
        /\ dict_get uid (completed_workflows engine') = Some run
        /\ wf_status run = WF_COMPLETED
        /\ forall l, l ∈ steps run ->
             status (objects engine' !!! l) = COMPLETED
             /\ dict_mem (step_id (objects engine' !!! l))
                         (step_results (context run)) = true).
Proof.
  destruct (skipped_steps_absorbed (sample_invoke 1) sample_now sample_uuid4
              sample_repr_list) as (Hskip & Hbatch & Hrun).
  assert (Halloc : forall l, l ∈ steps (new_template "absorb" [0; 1; 2]) ->
                     l < length (objects absorb_engine)).
  { intros l Hl. each_element Hl; simpl; lia. }
  assert (Hids : NoDup ((fun l => step_id (objects absorb_engine !!! l))
                          <$> steps (new_template "absorb" [0; 1; 2])))
    by (apply (bool_decide_unpack _); vm_compute; exact I).
  assert (H01 : 0 < 1) by lia.
  assert (H13 : 1 < 3) by lia.
  split; [|split; [|split]].
  - destruct (Hskip 1 (mkRun (objects absorb_engine) empty_context
                             ((0, 0) : sample_world)) H13 eq_refl)
      as (σ' & Hex & Hst & Hw & _).
    exists σ'. split; [exact Hex|]. split; [exact Hst|]. exact Hw.
  - destruct (instantiate sample_now sample_uuid4
                (new_template "absorb" [0; 1; 2]) None
                (objects absorb_engine) (0, 0))
      as [[instance h1] w3] eqn:Hinst.
    destruct (gather (sample_invoke 1) sample_now [3; 4; 5]
                (mkRun h1 (context instance) w3)) as [results σ1] eqn:Hg.
    assert (Hready : ready_steps_of (steps instance)
                       (rs_heap (mkRun h1 (context instance) w3)) ∅
                     = [3; 4; 5]).
    { vm_compute in Hinst. injection Hinst as <- <- <-.
      vm_compute. reflexivity. }
    assert (Hcond : _check_step_conditions
                      (conditions
                         (rs_heap (mkRun h1 (context instance) w3) !!! 4))
                      (rs_context (mkRun h1 (context instance) w3))
                    = Ok false).
    { vm_compute in Hinst. injection Hinst as <- <- <-. reflexivity. }
    assert (Hid : step_id (rs_heap (mkRun h1 (context instance) w3) !!! 4)
                  = "S").
    { vm_compute in Hinst. injection Hinst as <- <- <-. reflexivity. }
    assert (Hfirst : results !! 0
                     = Some (Raise (mkExc "ConnectionError"
                                          "connection refused"))).
    { vm_compute in Hinst. injection Hinst as <- <- <-.
      vm_compute in Hg. injection Hg as <- <-. reflexivity. }
    assert (Hleft : forall j lj e, j < 1 -> [3; 4; 5] !! j = Some lj ->
              results !! j = Some (Raise e) ->
              (0 < retry_count
                     (rs_heap (mkRun h1 (context instance) w3) !!! lj))%Z).
    { intros j lj e Hj Hlj _. destruct j as [|j]; [|exfalso; clear -Hj; lia].
      injection Hlj as <-. vm_compute in Hinst.
      injection Hinst as <- <- <-. reflexivity. }
    destruct (Hbatch _ _ _ _ _ _ _ 0 ∅ _ σ1 [3; 4; 5] results 1 4
                Hinst eq_refl Hready Hg eq_refl Hcond)
      as (Hres & Hst & Hthrough & _).
    destruct (Hthrough Hleft)
      as [(ci & σi & Htake & Hsti & Hresi & Hget & Hin) Hend].
    rewrite Hid in Hget, Hin.
    assert (Hok : exists c' σ2,
               process_results [3; 4; 5] results ∅ σ1 = (Ok c', σ2)).
    { vm_compute in Hinst. injection Hinst as <- <- <-.
      vm_compute in Hg. injection Hg as <- <-.
      eexists _, _. vm_compute. reflexivity. }
    destruct Hok as (c' & σ2 & Hp).
    destruct (Hend _ _ Hp) as (Hst2 & Hres2 & Hmem & Hc').
    rewrite Hid in Hmem, Hc'.
    exists instance, h1, w3, results, σ1.
    split; [reflexivity|]. split; [exact Hready|]. split; [exact Hg|].
    split; [exact Hfirst|]. split; [exact Hres|]. split; [exact Hst|].
    split.
    { exists ci, σi. split; [exact Htake|]. split; [exact Hsti|].
      split; [exact Hresi|]. split; [exact Hget|exact Hin]. }
    exists c', σ2. split; [exact Hp|]. split; [exact Hst2|].
    split; [exact Hres2|]. split; [exact Hmem|]. exact (Hc' c' eq_refl).
  - destruct (instantiate sample_now sample_uuid4
                (new_template "blocked" [0; 1]) None
                (objects blocked_engine) (0, 0))
      as [[instance h1] w3] eqn:Hinst.
    destruct (gather (sample_invoke 1) sample_now [2; 3]
                (mkRun h1 (context instance) w3)) as [results σ1] eqn:Hg.
    assert (Hready : ready_steps_of (steps instance)
                       (rs_heap (mkRun h1 (context instance) w3)) ∅
                     = [2; 3]).
    { vm_compute in Hinst. injection Hinst as <- <- <-.
      vm_compute. reflexivity. }
    assert (Hcond : _check_step_conditions
                      (conditions
                         (rs_heap (mkRun h1 (context instance) w3) !!! 3))
                      (rs_context (mkRun h1 (context instance) w3))
                    = Ok false).
    { vm_compute in Hinst. injection Hinst as <- <- <-. reflexivity. }
    assert (Hfirst : results !! 0
                     = Some (Raise (mkExc "ConnectionError"
                                          "connection refused"))).
    { vm_compute in Hinst. injection Hinst as <- <- <-.
      vm_compute in Hg. injection Hg as <- <-. reflexivity. }
    assert (Hnone : (retry_count
                       (rs_heap (mkRun h1 (context instance) w3) !!! 2%nat)
                     <= 0)%Z).
    { vm_compute in Hinst. injection Hinst as <- <- <-.
      vm_compute. discriminate. }
    destruct (Hbatch _ _ _ _ _ _ _ 0 ∅ _ σ1 [2; 3] results 1 3
                Hinst eq_refl Hready Hg eq_refl Hcond)
      as (_ & _ & _ & Hblocked).
    exists instance, h1, w3, results, σ1.
    split; [reflexivity|]. split; [exact Hready|]. split; [exact Hg|].
    split; [exact Hfirst|].
    exact (Hblocked 0 2 _ H01 eq_refl Hfirst Hnone).
  - destruct (execute_workflow (sample_invoke 1) sample_now sample_uuid4
                sample_repr_list "absorb" None absorb_engine (0, 0))
      as [[[[uid|] engine'] w']|] eqn:Hex;
      [|vm_compute in Hex; discriminate..].
    destruct (dict_get uid (completed_workflows engine')) as [run|] eqn:Hget;
      cycle 1.
    { vm_compute in Hex. injection Hex as <- <- <-. discriminate. }
    exists uid, engine', w', run. split; [reflexivity|]. split; [exact Hget|].
    assert (Hst : wf_status run = WF_COMPLETED).
    { vm_compute in Hex. injection Hex as <- <- <-.
      vm_compute in Hget. injection Hget as <-. reflexivity. }
    split; [exact Hst|].
    exact (Hrun "absorb" None absorb_engine engine' (0, 0) w'
                (new_template "absorb" [0; 1; 2]) run uid eq_refl
                Halloc Hids Hex Hget Hst).
Defined.

(** The sample invoker is one of the invokers of the retry scenario. *)
Lemma sample_other_calls_work (k : nat) (t a : string) (p : PyDict PyVal)
    (w : sample_world) :
  (t, a) <> ("flaky", "call") ->
  is_ok (sample_invoke k t a p w).1 = true
  /\ sample_calls (sample_invoke k t a p w).2 = sample_calls w.
Proof.
  intros Hne. unfold sample_invoke.
  destruct (String.eqb_spec t "flaky") as [->|]; [|done].
  destruct (String.eqb_spec a "call") as [->|]; done.
Defined.

Lemma sample_target_call (k : nat) (p : PyDict PyVal) (w : sample_world) :
  sample_calls (sample_invoke k "flaky" "call" p w).2 = S (sample_calls w)
  /\ (sample_calls w < k -> is_ok (sample_invoke k "flaky" "call" p w).1 = false)
  /\ (sample_calls w = k -> is_ok (sample_invoke k "flaky" "call" p w).1 = true).
Proof.
  unfold sample_invoke, sample_calls. simpl. split; [done|].
  destruct (Nat.ltb_spec w.2 k); simpl; split; intros; try done; lia.
Defined.

Definition chain_rank (id : string) : nat :=
  if String.eqb id "A" then 0 else if String.eqb id "B" then 1 else 2.

(** C3 on the chain, whose step B has two retries: three failures in a row
    fail the run and leave an entry for B in the log; one failure does
    not. *)
Lemma retry_semantics_witness :
  (exists uid engine' w' run,
     execute_workflow (sample_invoke 3) sample_now sample_uuid4
       sample_repr_list "chain" None chain_engine (0, 0)
     = Some (Ok uid, engine', w')
     /\ dict_get uid (completed_workflows engine') = Some run
     /\ wf_status run = WF_FAILED
     /\ exists e, step_error_entry "B" e ∈ error_log (context run))
  /\ (exists uid engine' w' run,
        execute_workflow (sample_invoke 1) sample_now sample_uuid4
          sample_repr_list "chain" None chain_engine (0, 0)
        = Some (Ok uid, engine', w')
        /\ dict_get uid (completed_workflows engine') = Some run
        /\ wf_status run = WF_COMPLETED).
Proof.
  assert (Hgen : forall k,
    exists uid engine' w' run,
      execute_workflow (sample_invoke k) sample_now sample_uuid4
        sample_repr_list "chain" None chain_engine (0, 0)
      = Some (Ok uid, engine', w')
      /\ dict_get uid (completed_workflows engine') = Some run
      /\ ((2 + 1 <= Z.of_nat k)%Z ->
          wf_status run = WF_FAILED
          /\ exists e, step_error_entry "B" e ∈ error_log (context run))
      /\ ((Z.of_nat k < 2)%Z -> wf_status run = WF_COMPLETED)).
  { intros k.
    apply (retry_semantics (sample_invoke k) sample_now sample_uuid4
             sample_repr_list sample_calls k chain_rank "chain" None
             chain_engine (0, 0) (new_template "chain" [0; 1; 2]) 1).
    - reflexivity.
    - intros l Hl. each_element Hl; simpl; lia.
    - apply (bool_decide_unpack _). vm_compute. exact I.
    - simpl. lia.
    - apply (bool_decide_unpack _). vm_compute. exact I.
    - intros l Hl d Hd. each_element Hl; simpl in Hd; each_element Hd.
      + split; [exists 0; split; [|reflexivity]|vm_compute; lia].
        apply (bool_decide_unpack _). vm_compute. exact I.
      + split; [exists 1; split; [|reflexivity]|vm_compute; lia].
        apply (bool_decide_unpack _). vm_compute. exact I.
    - intros l Hl Hne. each_element Hl; simpl; congruence.
    - intros l ctx Hl _. each_element Hl; reflexivity.
    - reflexivity.
    - intros t a p w0. apply sample_other_calls_work.
    - intros p w0. apply sample_target_call.
    - reflexivity.
    - reflexivity.
    - reflexivity. }
  split.
  - destruct (Hgen 3) as (uid & engine' & w' & run & Hex & Hget & Hfail & _).
    exists uid, engine', w', run. split; [done|]. split; [done|].
    apply Hfail. simpl. lia.
  - destruct (Hgen 1) as (uid & engine' & w' & run & Hex & Hget & _ & Hok).
    exists uid, engine', w', run. split; [done|]. split; [done|].
    apply Hok. simpl. lia.
Defined.

(** ** The listing query *)

(** Without a filter, the listing has for every workflow the quotient of
    its completed steps by its steps, provided that no workflow is without
    steps. *)
Lemma list_entries_progress (h : list WorkflowStep) (workflows : list Workflow) :
  Forall (fun workflow => steps workflow <> []) workflows ->
  exists entries,
    list_entries None h workflows = Ok entries
    /\ Forall2 (fun workflow entry =>
                  li_id entry = wf_id workflow
                  /\ li_progress entry
                     = Qmake (Z.of_nat (count_status COMPLETED h (steps workflow)))
                             (Pos.of_nat (length (steps workflow))))
               workflows entries.
Proof.
  induction 1 as [|workflow workflows Hne _ (entries & Hentries & HF)]; simpl.
  { exists []. by split. }
  unfold true_div. destruct (length (steps workflow)) as [|n] eqn:Hlen.
  { by destruct (steps workflow). }
  rewrite Hentries. eexists. split; [done|].
  constructor; [|done]. simpl. by rewrite Hlen.
Qed.

(** A workflow without steps makes the listing raise. *)
Lemma list_entries_no_steps (h : list WorkflowStep) (workflows : list Workflow) :
  Exists (fun workflow => steps workflow = []) workflows ->
  list_entries None h workflows
  = Raise (mkExc "ZeroDivisionError" "division by zero").
Proof.
  induction workflows as [|workflow workflows IH]; [by intros ?%Exists_nil|].
  intros [Hnil|Hex]%Exists_cons; simpl.
  - by rewrite Hnil.
  - rewrite (IH Hex). unfold true_div.
    by destruct (length (steps workflow)).
Qed.

(** A template without steps. *)
Definition empty_engine : WorkflowEngine :=
  mkEngine [] [] [("empty", new_template "empty" [])] [].

(** C9 fails on the code: the run of a template without steps is completed
    at once and stored; from then on [list_workflows] raises
    [ZeroDivisionError], its division has no guard. *)
Theorem progress_division_unguarded :
  match execute_workflow (sample_invoke 0) sample_now sample_uuid4
          sample_repr_list "empty" None empty_engine (0, 0) with
  | Some (Ok uid, engine', _) =>
      (wf_status <$> dict_get uid (completed_workflows engine'))
      = Some WF_COMPLETED
      /\ (sr_total_steps <$> get_workflow_status engine' uid) = Some 0
      /\ list_workflows engine' None
         = Raise (mkExc "ZeroDivisionError" "division by zero")
  | _ => False
  end.
Proof. vm_compute. repeat split. Qed.

(** ** The pipeline order

    [_topological_sort] is Kahn's algorithm on the graph that the data flow
    induces on the agents. *)
Section TopologicalSortProperties.

Variable strip : string -> string.

(** The targets of one entry that are agents, in the order of the entry. *)
Definition flow_targets (agents : list string) (targets : list string)
    : list string :=
  List.filter (fun t => bool_decide (t ∈ agents)) (strip <$> targets).

(** The edges of the induced graph, in the order in which the algorithm
    adds them. *)
Definition flow_edges (agents : list string) (data_flow : PyDict string)
    : list (string * string) :=
  flat_map (fun entry =>
              if bool_decide (entry.1 ∈ agents)
              then (fun t => (entry.1, t))
                     <$> flow_targets agents (str_split "," entry.2)
              else [])
           data_flow.

(** [u] comes before [v] in [order]. *)
Definition precedes (order : list string) (u v : string) : Prop :=
  exists i j, order !! i = Some u /\ order !! j = Some v /\ i < j.

(** A topological order of the agents: all of them, each once, every edge
    going forward. *)
Definition topological_order (agents : list string)
    (edges : list (string * string)) (order : list string) : Prop :=
  order ≡ₚ agents
  /\ forall u v, (u, v) ∈ edges -> precedes order u v.

(** An agent that the data flow does not mention, neither as a source nor
    as a target. *)
Definition outside_map (data_flow : PyDict string) (agent : string) : bool :=
  negb (bool_decide (agent ∈ dict_keys data_flow))
  && negb (bool_decide
             (agent ∈ flat_map (fun entry => strip <$> str_split "," entry.2)
                               data_flow)).

(** The successors of [u], and the number of edges into [a] from sources
    that are not in [done]. *)
Definition successors (edges : list (string * string)) (u : string)
    : list string :=
  snd <$> List.filter (fun e => bool_decide (e.1 = u)) edges.

Definition pending_into (edges : list (string * string)) (done : list string)
    (a : string) : nat :=
  length (List.filter (fun e => bool_decide (e.2 = a)
                                && negb (bool_decide (e.1 ∈ done))) edges).

Definition occurrences (a : string) (l : list string) : nat :=
  length (List.filter (fun x => bool_decide (x = a)) l).

(** The two dictionaries of the algorithm hold the graph of [edges]. *)
Definition holds_graph (agents : list string) (edges : list (string * string))
    (graph : gmap string (list string)) (in_degree : gmap string Z) : Prop :=
  forall a, a ∈ agents ->
    graph !! a = Some (successors edges a)
    /\ in_degree !! a = Some (Z.of_nat (pending_into edges [] a)).

Lemma successors_app (edges1 edges2 : list (string * string)) (u : string) :
  successors (edges1 ++ edges2) u = successors edges1 u ++ successors edges2 u.
Proof. unfold successors. by rewrite List.filter_app, fmap_app. Qed.

Lemma pending_into_app (edges1 edges2 : list (string * string))
    (done : list string) (a : string) :
  pending_into (edges1 ++ edges2) done a
  = pending_into edges1 done a + pending_into edges2 done a.
Proof. unfold pending_into. by rewrite List.filter_app, length_app. Qed.

Lemma successors_singleton (s t u : string) :
  successors [(s, t)] u = if decide (s = u) then [t] else [].
Proof.
  unfold successors. simpl. destruct (decide (s = u)) as [->|Hne].
  - by rewrite bool_decide_eq_true_2.
  - by rewrite bool_decide_eq_false_2.
Qed.

Lemma pending_into_singleton (s t a : string) (done : list string) :
  pending_into [(s, t)] done a
  = if decide (t = a) then (if decide (s ∈ done) then 0 else 1) else 0.
Proof.
  unfold pending_into. simpl. destruct (decide (t = a)) as [->|Hne].
  - rewrite bool_decide_eq_true_2 by done. simpl.
    destruct (decide (s ∈ done)).
    + by rewrite bool_decide_eq_true_2.
    + by rewrite bool_decide_eq_false_2.
  - by rewrite bool_decide_eq_false_2.
Qed.

Lemma add_targets_spec (agents : list string) (source : string)
    (targets : list string) (edges : list (string * string))
    (graph : gmap string (list string)) (in_degree : gmap string Z) :
  source ∈ agents ->
  holds_graph agents edges graph in_degree ->
  exists graph' in_degree',
    add_targets strip agents source targets graph in_degree
    = Ok (graph', in_degree')
    /\ holds_graph agents
         (edges ++ ((fun t => (source, t)) <$> flow_targets agents targets))
         graph' in_degree'.
Proof.
  intros Hs. revert edges graph in_degree.
  induction targets as [|t targets IH]; intros edges graph in_degree Hg; simpl.
  { eexists _, _. split; [done|]. unfold flow_targets. simpl.
    by rewrite app_nil_r. }
  unfold flow_targets. simpl. fold (flow_targets agents targets).
  destruct (bool_decide (strip t ∈ agents)) eqn:Ht; [|by apply IH].
  apply bool_decide_eq_true in Ht.
  destruct (Hg source Hs) as [-> _]. destruct (Hg _ Ht) as [_ ->].
  rewrite fmap_cons, (cons_middle _ edges), app_assoc.
  apply IH. intros a Ha. destruct (Hg a Ha) as [Hga Hda].
  rewrite successors_app, pending_into_app.
  rewrite successors_singleton, pending_into_singleton.
  split.
  - destruct (decide (source = a)) as [->|Hne].
    + by rewrite lookup_insert_eq.
    + rewrite lookup_insert_ne by done. by rewrite app_nil_r.
  - destruct (decide (strip t = a)) as [->|Hne].
    + rewrite lookup_insert_eq. rewrite decide_False by apply not_elem_of_nil.
      f_equal. lia.
    + rewrite lookup_insert_ne by done. rewrite Hda. f_equal. lia.
Qed.

Lemma build_graph_spec (agents : list string) (data_flow : PyDict string)
    (edges : list (string * string))
    (graph : gmap string (list string)) (in_degree : gmap string Z) :
  holds_graph agents edges graph in_degree ->
  exists graph' in_degree',
    build_graph strip agents data_flow graph in_degree = Ok (graph', in_degree')
    /\ holds_graph agents (edges ++ flow_edges agents data_flow)
                   graph' in_degree'.
Proof.
  revert edges graph in_degree.
  induction data_flow as [|[source targets] data_flow IH];
    intros edges graph in_degree Hg; simpl.
  { eexists _, _. split; [done|]. by rewrite app_nil_r. }
  destruct (bool_decide (source ∈ agents)) eqn:Hs; [|by apply IH].
  apply bool_decide_eq_true in Hs.
  destruct (add_targets_spec agents source (str_split "," targets) _ _ _ Hs Hg)
    as (graph1 & in_degree1 & -> & Hg1).
  rewrite app_assoc. by apply IH.
Qed.

Lemma lookup_constant_map {V} (v : V) (agents : list string) (a : string) :
  a ∈ agents ->
  (list_to_map ((fun agent => (agent, v)) <$> agents) : gmap string V) !! a
  = Some v.
Proof.
  induction agents as [|x agents IH]; [by intros ?%elem_of_nil|].
  intros Ha. rewrite fmap_cons. simpl.
  destruct (decide (x = a)) as [->|Hne].
  - by rewrite lookup_insert_eq.
  - rewrite lookup_insert_ne by done. apply IH.
    apply elem_of_cons in Ha as [?|?]; [congruence|done].
Qed.

Lemma occurrences_cons (a x : string) (l : list string) :
  occurrences a (x :: l)
  = (if decide (x = a) then 1 else 0) + occurrences a l.
Proof.
  unfold occurrences. simpl. destruct (decide (x = a)) as [->|Hne].
  - by rewrite bool_decide_eq_true_2.
  - by rewrite bool_decide_eq_false_2.
Qed.

Lemma occurrences_zero (a : string) (l : list string) :
  occurrences a l = 0 <-> a ∉ l.
Proof.
  induction l as [|x l IH]; [by split; [intros _ ?%elem_of_nil|]|].
  rewrite occurrences_cons, not_elem_of_cons.
  destruct (decide (x = a)) as [->|Hne]; [split; [lia|tauto]|].
  simpl. rewrite IH. split; [by split|tauto].
Qed.

Lemma elem_of_successors (edges : list (string * string)) (u v : string) :
  v ∈ successors edges u <-> (u, v) ∈ edges.
Proof.
  unfold successors. rewrite list_elem_of_fmap. split.
  - intros ([u' v'] & -> & Hin).
    apply list_elem_of_In, filter_In in Hin as [Hin Hu].
    apply bool_decide_eq_true in Hu. simpl in Hu. subst u'.
    by apply list_elem_of_In.
  - intros Hin. exists (u, v). split; [done|].
    apply list_elem_of_In, filter_In. split; [by apply list_elem_of_In|].
    by apply bool_decide_eq_true.
Qed.

Lemma pending_into_cons (e : string * string) (edges : list (string * string))
    (done : list string) (a : string) :
  pending_into (e :: edges) done a
  = (if decide (e.2 = a) then (if decide (e.1 ∈ done) then 0 else 1) else 0)
    + pending_into edges done a.
Proof.
  change (e :: edges) with ([e] ++ edges). rewrite pending_into_app.
  destruct e as [s t]. by rewrite pending_into_singleton.
Qed.

Lemma successors_cons (e : string * string) (edges : list (string * string))
    (u : string) :
  successors (e :: edges) u
  = (if decide (e.1 = u) then [e.2] else []) ++ successors edges u.
Proof.
  change (e :: edges) with ([e] ++ edges). rewrite successors_app.
  destruct e as [s t]. by rewrite successors_singleton.
Qed.

(** The edges into [a] that are pending: those from [current], and those
    still pending once [current] is done. *)
Lemma pending_into_split (edges : list (string * string)) (done : list string)
    (current a : string) :
  current ∉ done ->
  pending_into edges done a
  = pending_into edges (done ++ [current]) a
    + occurrences a (successors edges current).
Proof.
  intros Hnin. induction edges as [|[s t] edges IH]; [done|].
  rewrite !pending_into_cons, successors_cons, IH. simpl.
  destruct (decide (s = current)) as [->|Hne]; simpl.
  - rewrite occurrences_cons. rewrite (decide_False (P := current ∈ done)) by done.
    rewrite (decide_True (P := current ∈ done ++ [current]));
      [|apply elem_of_app; right; left].
    destruct (decide (t = a)); lia.
  - destruct (decide (t = a)); [|lia].
    destruct (decide (s ∈ done)) as [Hin|Hin].
    + rewrite decide_True; [lia|apply elem_of_app; by left].
    + rewrite decide_False; [lia|].
      intros [?|Hc%list_elem_of_singleton]%elem_of_app; done.
Qed.

Lemma pending_into_zero (edges : list (string * string)) (done : list string)
    (u a : string) :
  pending_into edges done a = 0 -> (u, a) ∈ edges -> u ∈ done.
Proof.
  induction edges as [|[s t] edges IH]; [by intros _ ?%elem_of_nil|].
  rewrite pending_into_cons. simpl. intros Hz [Heq|Hin]%elem_of_cons.
  - injection Heq as <- <-. rewrite decide_True in Hz by done.
    destruct (decide (u ∈ done)); [done|lia].
  - apply IH; [lia|done].
Qed.

Lemma pending_into_pos (edges : list (string * string)) (done : list string)
    (a : string) :
  pending_into edges done a <> 0 -> exists u, (u, a) ∈ edges /\ u ∉ done.
Proof.
  induction edges as [|[s t] edges IH]; [done|].
  rewrite pending_into_cons. simpl. intros Hz.
  destruct (decide (t = a)) as [->|].
  - destruct (decide (s ∈ done)).
    + destruct IH as (u & ? & ?); [lia|]. exists u. split; [by right|done].
    + exists s. split; [by left|done].
  - destruct IH as (u & ? & ?); [lia|]. exists u. split; [by right|done].
Qed.

(** The loop over the neighbours: every counter goes down by the number of
    occurrences, and the neighbours whose counter gets to zero join the
    queue, each once. *)
Lemma visit_neighbors_spec (neighbors : list string) (in_degree : gmap string Z)
    (queue : list string) (cnt : string -> nat) :
  (forall a, a ∈ neighbors -> in_degree !! a = Some (Z.of_nat (cnt a))) ->
  (forall a, a ∈ neighbors -> occurrences a neighbors <= cnt a) ->
  exists in_degree' hits,
    visit_neighbors neighbors in_degree queue = Ok (in_degree', queue ++ hits)
    /\ (forall a, in_degree' !! a
                  = if decide (a ∈ neighbors)
                    then Some (Z.of_nat (cnt a - occurrences a neighbors))
                    else in_degree !! a)
    /\ NoDup hits
    /\ (forall a, a ∈ hits <-> a ∈ neighbors /\ cnt a = occurrences a neighbors).
Proof.
  revert in_degree queue cnt.
  induction neighbors as [|v rest IH]; intros in_degree queue cnt Hd Hocc.
  { exists in_degree, []. split; [by rewrite app_nil_r|].
    split; [intros a; by rewrite decide_False by apply not_elem_of_nil|].
    split; [constructor|]. intros a. split; [by intros ?%elem_of_nil|].
    by intros [?%elem_of_nil _]. }
  simpl. rewrite (Hd v) by left.
  pose proof (Hocc v (list_elem_of_here _ _)) as Hv. rewrite occurrences_cons in Hv.
  rewrite decide_True in Hv by done.
  set (cnt1 := fun a => if decide (a = v) then cnt v - 1 else cnt a).
  assert (Hd1 : forall a, a ∈ rest ->
            <[v:=(Z.of_nat (cnt v) - 1)%Z]> in_degree !! a
            = Some (Z.of_nat (cnt1 a))).
  { intros a Ha. unfold cnt1. destruct (decide (a = v)) as [->|Hne].
    - rewrite lookup_insert_eq. f_equal. lia.
    - rewrite lookup_insert_ne by done. apply Hd. by right. }
  assert (Hocc1 : forall a, a ∈ rest -> occurrences a rest <= cnt1 a).
  { intros a Ha. unfold cnt1. destruct (decide (a = v)) as [->|Hne]; [lia|].
    specialize (Hocc a (list_elem_of_further _ _ _ Ha)).
    rewrite occurrences_cons, decide_False in Hocc by done. lia. }
  assert (Hlook : forall (d' : gmap string Z),
            (forall a, d' !! a
                       = if decide (a ∈ rest)
                         then Some (Z.of_nat (cnt1 a - occurrences a rest))
                         else <[v:=(Z.of_nat (cnt v) - 1)%Z]> in_degree !! a) ->
            forall a, d' !! a
                      = if decide (a ∈ v :: rest)
                        then Some (Z.of_nat (cnt a - occurrences a (v :: rest)))
                        else in_degree !! a).
  { intros d' Hd' a. rewrite Hd', occurrences_cons. unfold cnt1.
    destruct (decide (a = v)) as [->|Hne].
    - rewrite (decide_True (P := v ∈ v :: rest)) by left.
      rewrite (decide_True (P := v = v)) by done.
      destruct (decide (v ∈ rest)) as [|Hnr]; [f_equal; lia|].
      rewrite lookup_insert_eq. apply occurrences_zero in Hnr. f_equal. lia.
    - rewrite (decide_False (P := v = a)) by done.
      destruct (decide (a ∈ rest)) as [Hr|Hr].
      + rewrite decide_True by (by right). done.
      + rewrite decide_False by (by intros [?|?]%elem_of_cons).
        by rewrite lookup_insert_ne. }
  destruct (Z.eqb_spec (Z.of_nat (cnt v) - 1) 0) as [Hz|Hz].
  - destruct (IH _ (queue ++ [v]) cnt1 Hd1 Hocc1)
      as (d' & hits & -> & Hd' & Hnd & Hhits).
    exists d', (v :: hits). rewrite <- app_assoc. split; [done|].
    split; [by apply Hlook|].
    assert (Hvr : v ∉ rest).
    { intros Hin%occurrences_zero; [done|]. lia. }
    split.
    + constructor; [|done]. rewrite Hhits. tauto.
    + intros a. rewrite elem_of_cons, Hhits, elem_of_cons, occurrences_cons.
      unfold cnt1. destruct (decide (a = v)) as [->|Hne].
      * rewrite decide_True by done. apply occurrences_zero in Hvr.
        split; [intros _; split; [by left|lia]|by left].
      * rewrite (decide_False (P := v = a)) by done. simpl. tauto.
  - destruct (IH _ queue cnt1 Hd1 Hocc1) as (d' & hits & -> & Hd' & Hnd & Hhits).
    exists d', hits. split; [done|]. split; [by apply Hlook|].
    split; [done|].
    intros a. rewrite Hhits, elem_of_cons, occurrences_cons.
    unfold cnt1. destruct (decide (a = v)) as [->|Hne].
    + rewrite decide_True by done. split.
      * intros [? ?]. split; [by right|lia].
      * intros [_ Heq]. split; [|lia].
        apply dec_stable. intros Hnr%occurrences_zero. lia.
    + rewrite (decide_False (P := v = a)) by done. simpl. tauto.
Qed.

Lemma precedes_app (order more : list string) (u v : string) :
  precedes order u v -> precedes (order ++ more) u v.
Proof.
  intros (i & j & Hi & Hj & Hlt). exists i, j.
  split; [by apply lookup_app_l_Some|]. split; [by apply lookup_app_l_Some|done].
Qed.

(** *** The loop *)
Section Kahn.

Variable agents : list string.
Variable edges : list (string * string).
Variable graph : gmap string (list string).

Hypothesis agents_distinct : NoDup agents.
Hypothesis edges_of_agents :
  forall u v, (u, v) ∈ edges -> u ∈ agents /\ v ∈ agents.
Hypothesis graph_of_edges :
  forall a, a ∈ agents -> graph !! a = Some (successors edges a).

(** The invariant of [while queue]: the agents in [result] and [queue] are
    distinct; [in_degree] counts the edges from agents not yet in [result];
    the agents without such edges are those in [result] or [queue]; the
    edges into [result] go forward. *)
Definition sort_inv (in_degree : gmap string Z) (queue result : list string)
    : Prop :=
  NoDup (result ++ queue)
  /\ (forall x, x ∈ result ++ queue -> x ∈ agents)
  /\ (forall a, a ∈ agents ->
        in_degree !! a = Some (Z.of_nat (pending_into edges result a)))
  /\ (forall a, a ∈ agents ->
        a ∈ result ++ queue <-> pending_into edges result a = 0)
  /\ (forall u v, (u, v) ∈ edges -> v ∈ result -> precedes result u v).

Lemma sort_inv_step (in_degree : gmap string Z) (current : string)
    (queue result : list string) :
  sort_inv in_degree (current :: queue) result ->
  exists in_degree' hits,
    visit_neighbors (successors edges current) in_degree queue
    = Ok (in_degree', queue ++ hits)
    /\ sort_inv in_degree' (queue ++ hits) (result ++ [current]).
Proof.
  intros (Hnd & Hin & Hd & Hzero & Hfwd).
  assert (Hcur : current ∉ result).
  { apply NoDup_app in Hnd as (_ & Hdisj & _). intros Hr.
    apply (Hdisj _ Hr). left. }
  assert (Hca : current ∈ agents) by (apply Hin, elem_of_app; right; left).
  assert (Hsplit : forall a,
            pending_into edges result a
            = pending_into edges (result ++ [current]) a
              + occurrences a (successors edges current))
    by (intros a; by apply pending_into_split).
  assert (Hna : forall a, a ∈ successors edges current -> a ∈ agents).
  { intros a Ha%elem_of_successors. by apply edges_of_agents in Ha as [_ ?]. }
  destruct (visit_neighbors_spec (successors edges current) in_degree queue
              (pending_into edges result))
    as (d' & hits & Hvisit & Hd' & Hndh & Hhits).
  { intros a Ha. by apply Hd, Hna. }
  { intros a _. rewrite (Hsplit a). lia. }
  exists d', hits. split; [done|].
  assert (Hhits_new : forall a, a ∈ hits -> a ∉ result ++ current :: queue).
  { intros a [Hns Heq]%Hhits Hold.
    apply Hzero in Hold; [|by apply Hna].
    assert (occurrences a (successors edges current) <> 0)
      by (by rewrite occurrences_zero; intros ?).
    lia. }
  assert (Hperm : (result ++ [current]) ++ queue ++ hits
                  ≡ₚ (result ++ current :: queue) ++ hits).
  { rewrite <- !app_assoc. done. }
  split; [|split; [|split; [|split]]].
  - rewrite Hperm. apply NoDup_app. split; [done|]. split; [|done].
    intros a Ha Hh. by apply (Hhits_new a).
  - intros x. rewrite Hperm, elem_of_app. intros [?|Hh]; [by apply Hin|].
    apply Hna. by apply Hhits in Hh as [? _].
  - intros a Ha. rewrite Hd'. specialize (Hsplit a).
    destruct (decide (a ∈ successors edges current)) as [|Hns].
    + f_equal. lia.
    + apply occurrences_zero in Hns. rewrite (Hd a Ha). f_equal. lia.
  - intros a Ha. rewrite Hperm, elem_of_app, (Hzero a Ha), Hhits.
    specialize (Hsplit a). split.
    + intros [?|[_ ?]]; lia.
    + intros Hz.
      destruct (decide (occurrences a (successors edges current) = 0)) as [|Hp].
      * left. lia.
      * right. split; [|lia]. apply dec_stable.
        by intros ?%occurrences_zero.
  - intros u v Huv [Hv|Hv%list_elem_of_singleton]%elem_of_app.
    + apply precedes_app. by apply Hfwd.
    + subst v.
      assert (Hu : u ∈ result).
      { apply (pending_into_zero edges result u current); [|done].
        apply Hzero; [done|]. apply elem_of_app. right. left. }
      apply list_elem_of_lookup in Hu as [i Hi].
      exists i, (length result).
      split; [by apply lookup_app_l_Some|].
      split; [by rewrite list_lookup_middle|by eapply lookup_lt_Some].
Qed.

(** The loop ends within [length agents] turns, with the queue empty; its
    result begins with the agents that were in [result] and [queue]. *)
Lemma sort_loop_spec (fuel : nat) (in_degree : gmap string Z)
    (queue result : list string) :
  sort_inv in_degree queue result ->
  length agents <= fuel + length result ->
  exists final rest in_degree',
    sort_loop fuel graph in_degree queue result = Some (Ok final)
    /\ final = result ++ queue ++ rest
    /\ sort_inv in_degree' [] final.
Proof.
  revert in_degree queue result.
  induction fuel as [|fuel IH]; intros in_degree queue result Hinv Hfuel.
  - destruct queue as [|current queue].
    { exists result, [], in_degree. by rewrite !app_nil_r. }
    exfalso. destruct Hinv as (Hnd & Hin & _).
    assert (Hm : result ++ current :: queue ⊆+ agents)
      by (by apply NoDup_submseteq).
    apply submseteq_length in Hm. rewrite length_app in Hm. simpl in *. lia.
  - destruct queue as [|current queue].
    { exists result, [], in_degree. by rewrite !app_nil_r. }
    simpl.
    assert (Hca : current ∈ agents).
    { destruct Hinv as (_ & Hin & _). apply Hin, elem_of_app. right. left. }
    rewrite (graph_of_edges _ Hca).
    destruct (sort_inv_step _ _ _ _ Hinv) as (d' & hits & -> & Hinv').
    destruct (IH d' (queue ++ hits) (result ++ [current]) Hinv')
      as (final & rest & d'' & Hloop & Hfinal & Hinv'').
    { rewrite length_app. simpl. lia. }
    exists final, (hits ++ rest), d''. split; [done|]. split; [|done].
    rewrite Hfinal, <- !app_assoc. done.
Qed.

End Kahn.

Lemma initial_queue_spec (agents : list string) (in_degree : gmap string Z)
    (cnt : string -> nat) :
  (forall a, a ∈ agents -> in_degree !! a = Some (Z.of_nat (cnt a))) ->
  initial_queue agents in_degree
  = Ok (List.filter (fun a => bool_decide (cnt a = 0)) agents).
Proof.
  induction agents as [|a agents IH]; intros Hd; [done|]. simpl.
  rewrite (Hd a) by left. rewrite IH by (intros x Hx; apply Hd; by right).
  f_equal. destruct (Z.eqb_spec (Z.of_nat (cnt a)) 0) as [Hz|Hz].
  - rewrite bool_decide_eq_true_2 by lia. done.
  - rewrite bool_decide_eq_false_2 by lia. done.
Qed.

Lemma elem_of_List_filter {A} (f : A -> bool) (l : list A) (x : A) :
  x ∈ List.filter f l <-> x ∈ l /\ f x = true.
Proof. rewrite !list_elem_of_In. apply filter_In. Qed.

Lemma NoDup_List_filter {A} (f : A -> bool) (l : list A) :
  NoDup l -> NoDup (List.filter f l).
Proof. rewrite !NoDup_ListNoDup. apply List.NoDup_filter. Qed.

Lemma sublist_List_filter {A} (f g : A -> bool) (l : list A) :
  (forall x, f x = true -> g x = true) ->
  sublist (List.filter f l) (List.filter g l).
Proof.
  intros Hfg. induction l as [|x l IH]; simpl; [constructor|].
  destruct (f x) eqn:Hf.
  - rewrite (Hfg x Hf). by constructor.
  - destruct (g x); [by constructor|done].
Qed.

Lemma sublist_List_filter_self {A} (f : A -> bool) (l : list A) :
  sublist (List.filter f l) l.
Proof.
  induction l as [|x l IH]; simpl; [constructor|].
  destruct (f x); by constructor.
Qed.

Lemma elem_of_flow_edges (agents : list string) (data_flow : PyDict string)
    (u v : string) :
  (u, v) ∈ flow_edges agents data_flow ->
  u ∈ agents /\ v ∈ agents
  /\ v ∈ flat_map (fun entry => strip <$> str_split "," entry.2) data_flow.
Proof.
  unfold flow_edges. rewrite !list_elem_of_In, !in_flat_map.
  intros ([source targets] & Hentry & Hin). simpl in Hin.
  destruct (bool_decide (source ∈ agents)) eqn:Hs; [|done].
  apply bool_decide_eq_true in Hs.
  apply list_elem_of_In, list_elem_of_fmap in Hin as (t & [= -> ->] & Ht).
  apply elem_of_List_filter in Ht as [Ht Hta].
  apply bool_decide_eq_true in Hta. rewrite <- !list_elem_of_In.
  split; [done|]. split; [done|].
  exists (source, targets). split; [done|]. by apply list_elem_of_In.
Qed.

(** C6, amended.  For a list of distinct agents, [_topological_sort] returns
    a list (it raises nothing and its loop ends): a topological order of
    the graph that the data flow induces on the agents when there is one,
    the input list otherwise; the agents that the data flow does not
    mention keep their input order in it. *)
Theorem pipeline_order (agents : list string) (data_flow : PyDict string) :
  NoDup agents ->
  exists order,
    _topological_sort strip agents data_flow = Some (Ok order)
    /\ ((exists o, topological_order agents (flow_edges agents data_flow) o) ->
        topological_order agents (flow_edges agents data_flow) order)
    /\ (~ (exists o, topological_order agents (flow_edges agents data_flow) o) ->
        order = agents)
    /\ sublist (List.filter (outside_map data_flow) agents) order.
Proof.
  intros Hnd. set (edges := flow_edges agents data_flow).
  assert (Hends : forall u v, (u, v) ∈ edges -> u ∈ agents /\ v ∈ agents).
  { intros u v (? & ? & _)%elem_of_flow_edges. done. }
  unfold _topological_sort.
  destruct (build_graph_spec agents data_flow []
              (list_to_map ((fun agent => (agent, [])) <$> agents))
              (list_to_map ((fun agent => (agent, 0%Z)) <$> agents)))
    as (graph & in_degree & Hbuild & Hgraph).
  { intros a Ha. by rewrite !lookup_constant_map. }
  simpl in Hgraph. fold edges in Hgraph.
  change (map ?f agents) with (f <$> agents). rewrite Hbuild.
  rewrite (initial_queue_spec agents in_degree (pending_into edges []))
    by (intros a Ha; by apply Hgraph).
  set (queue := List.filter
                  (fun a => bool_decide (pending_into edges [] a = 0)) agents).
  destruct (sort_loop_spec agents edges graph Hends
              (fun a Ha => proj1 (Hgraph a Ha))
              (length agents) in_degree queue [])
    as (final & rest & d' & -> & Hfinal & Hinv).
  { split; [by apply NoDup_List_filter|]. simpl.
    split; [by intros x [? _]%elem_of_List_filter|].
    split; [intros a Ha; by apply Hgraph|].
    split; [|by intros u v _ ?%elem_of_nil].
    intros a Ha. unfold queue. cbn [app].
    rewrite elem_of_List_filter, bool_decide_eq_true. tauto. }
  { lia. }
  simpl in Hfinal. destruct Hinv as (Hndf & Hinf & _ & Hzero & Hfwd).
  rewrite app_nil_r in Hndf, Hinf, Hzero.
  assert (Hsub : final ⊆+ agents) by (by apply NoDup_submseteq).
  assert (Htopo : length final = length agents ->
                  topological_order agents edges final).
  { intros Hlen.
    assert (Hperm : final ≡ₚ agents)
      by (apply submseteq_length_Permutation; [done|lia]).
    split; [done|]. intros u v Huv. apply Hfwd; [done|].
    rewrite Hperm. by apply Hends in Huv as [_ ?]. }
  assert (Hcomplete : (exists o, topological_order agents edges o) ->
                      length final = length agents).
  { intros (o & Hperm & Hord).
    assert (Hndo : NoDup o) by (by rewrite Hperm).
    assert (Hall : forall i a, o !! i = Some a -> a ∈ final).
    { intros i. induction (lt_wf i) as [i _ IH]. intros a Hi.
      destruct (decide (a ∈ final)) as [|Hnf]; [done|]. exfalso.
      assert (Ha : a ∈ agents)
        by (rewrite <- Hperm; by eapply list_elem_of_lookup_2).
      destruct (pending_into_pos edges final a) as (u & Hua & Hu).
      { intros Hz. by apply Hnf, Hzero. }
      destruct (Hord u a Hua) as (i' & j' & Hi' & Hj' & Hlt).
      rewrite (NoDup_lookup _ _ _ _ Hndo Hj' Hi) in Hlt.
      apply Hu. by apply (IH i' Hlt u). }
    apply Nat.le_antisymm; [by apply submseteq_length|].
    apply submseteq_length, NoDup_submseteq; [done|].
    intros a Ha. rewrite <- Hperm in Ha.
    apply list_elem_of_lookup in Ha as [i Hi]. by apply (Hall i). }
  assert (Hkeep : sublist (List.filter (outside_map data_flow) agents) queue).
  { apply sublist_List_filter. intros a Hout. apply bool_decide_eq_true.
    destruct (decide (pending_into edges [] a = 0)) as [|Hp]; [done|].
    exfalso. apply pending_into_pos in Hp as (u & Hua & _).
    apply elem_of_flow_edges in Hua as (_ & _ & Hmention).
    unfold outside_map in Hout. apply andb_true_iff in Hout as [_ Hout].
    apply negb_true_iff, bool_decide_eq_false in Hout. done. }
  destruct (Nat.eqb_spec (length final) (length agents)) as [Hlen|Hlen].
  - exists final. split; [done|]. split; [by intros _; apply Htopo|].
    split.
    + intros Hnone. exfalso. apply Hnone. exists final. by apply Htopo.
    + rewrite Hfinal. by apply sublist_inserts_r.
  - exists agents. split; [done|]. split.
    + intros Hex. by apply Hcomplete in Hex.
    + split; [done|]. apply sublist_List_filter_self.
Qed.

End TopologicalSortProperties.

(** [str.strip()] on ASCII text: the white space at both ends is removed. *)
Definition isspace (c : ascii) : bool :=
  let n := nat_of_ascii c in
  (9 <=? n) && (n <=? 13) || (28 <=? n) && (n <=? 32).

Fixpoint lstrip (s : string) : string :=
  match s with
  | EmptyString => EmptyString
  | String c rest => if isspace c then lstrip rest else s
  end.

Fixpoint rstrip (s : string) : string :=
  match s with
  | EmptyString => EmptyString
  | String c rest =>
      match rstrip rest with
      | EmptyString => if isspace c then EmptyString else String c EmptyString
      | kept => String c kept
      end
  end.

Definition strip (s : string) : string := rstrip (lstrip s).

Example strip_sample : strip "  b c	" = "b c".
Proof. reflexivity. Qed.

(** C6, as stated, fails at an agent list that names an agent twice: the
    input list is a topological order of the induced graph, and the result
    is neither a topological order (it has b before c, against the edge from
    c to b) nor the input list. *)
Lemma repeated_agent_breaks_order :
  let agents := ["a"; "a"; "d"; "c"; "b"] in
  let data_flow := [("a", "b"); ("c", "b"); ("d", "c")] in
  let edges := flow_edges strip agents data_flow in
  _topological_sort strip agents data_flow
  = Some (Ok ["a"; "a"; "d"; "b"; "c"])
  /\ topological_order agents edges agents
  /\ ~ topological_order agents edges ["a"; "a"; "d"; "b"; "c"].
Proof.
  intros agents data_flow edges.
  assert (Hedges : edges = [("a", "b"); ("c", "b"); ("d", "c")])
    by (vm_compute; reflexivity).
  split; [vm_compute; reflexivity|]. rewrite Hedges. split.
  - split; [done|]. intros u v Huv.
    repeat (apply elem_of_cons in Huv as [[= -> ->]|Huv]);
      [..|by apply elem_of_nil in Huv].
    + exists 0, 4. split; [reflexivity|]. split; [reflexivity|lia].
    + exists 3, 4. split; [reflexivity|]. split; [reflexivity|lia].
    + exists 2, 3. split; [reflexivity|]. split; [reflexivity|lia].
  - intros [_ Hord].
    destruct (Hord "c" "b") as (i & j & Hi & Hj & Hlt); [right; left|].
    do 5 (destruct i as [|i]; [try (by vm_compute in Hi)|]);
      [|by vm_compute in Hi].
    do 5 (destruct j as [|j]; [lia|]). by vm_compute in Hj.
Qed.

(** C6, amended, on four distinct agents: a data flow with a topological
    order, whose targets are written with white space, and one with a
    cycle. *)
Lemma pipeline_order_witness :
  let agents := ["x"; "c"; "b"; "a"] in
  let flow := [("a", "b, c"); ("b", " c")] in
  let cycle := [("a", "b"); ("b", "a")] in
  NoDup agents
  /\ _topological_sort strip agents flow = Some (Ok ["x"; "a"; "b"; "c"])
  /\ topological_order agents (flow_edges strip agents flow)
       ["x"; "a"; "b"; "c"]
  /\ sublist (List.filter (outside_map strip flow) agents) ["x"; "a"; "b"; "c"]
  /\ _topological_sort strip agents cycle = Some (Ok agents)
  /\ sublist (List.filter (outside_map strip cycle) agents) agents.
Proof.
  intros agents flow cycle.
  assert (Hnd : NoDup agents)
    by (apply (bool_decide_unpack _); vm_compute; exact I).
  split; [exact Hnd|].
  destruct (pipeline_order strip agents flow Hnd)
    as (order & Hrun & Htopo & _ & Hkeep).
  assert (order = ["x"; "a"; "b"; "c"]) as ->.
  { vm_compute in Hrun. by injection Hrun as <-. }
  destruct (pipeline_order strip agents cycle Hnd)
    as (order & Hrun' & _ & _ & Hkeep').
  assert (order = agents) as ->.
  { vm_compute in Hrun'. by injection Hrun' as <-. }
  split; [vm_compute; reflexivity|]. split; [|split; [exact Hkeep|]].
  - apply Htopo. exists ["x"; "a"; "b"; "c"]. split.
    + apply (bool_decide_unpack _). vm_compute. exact I.
    + intros u v Huv.
      assert (Hedges : flow_edges strip agents flow
                       = [("a", "b"); ("a", "c"); ("b", "c")])
        by (vm_compute; reflexivity).
      rewrite Hedges in Huv.
      repeat (apply elem_of_cons in Huv as [[= -> ->]|Huv]);
        [..|by apply elem_of_nil in Huv].
      * exists 1, 2. split; [reflexivity|]. split; [reflexivity|lia].
      * exists 1, 3. split; [reflexivity|]. split; [reflexivity|lia].
      * exists 2, 3. split; [reflexivity|]. split; [reflexivity|lia].
  - split; [vm_compute; reflexivity|exact Hkeep'].
Defined.

(** * The other operations of the engine *)

(** ** [get_workflow_templates] *)

Record TemplateInfo := mkTemplateInfo {
  ti_id : string;
  ti_name : string;
  ti_description : string;
  ti_tags : list string;
  ti_steps_count : nat;
  ti_estimated_duration : Z
}.

(** [sum(step.timeout for step in template.steps)] *)
Definition estimated_duration (h : list WorkflowStep) (wsteps : list loc) : Z :=
  fold_left Z.add (map (fun l => timeout (h !!! l)) wsteps) 0%Z.

Definition get_workflow_templates (engine : WorkflowEngine)
    : list TemplateInfo :=
  map (fun entry =>
         let '(template_id, template) := entry in
         mkTemplateInfo template_id (name template) (description template)
                        (tags template) (length (steps template))
                        (estimated_duration (objects engine) (steps template)))
      (workflow_templates engine).

(** ** [cancel_workflow] *)

(** The body of the loop over the steps of the cancelled workflow. *)
Definition cancel_step (s : WorkflowStep) : WorkflowStep :=
  if bool_decide (status s = RUNNING)
  then set_error (Some "Workflow cancelled") (set_status FAILED s)
  else s.

(** The workflow object is updated where it is, under its key of
    [active_workflows]; its steps are updated in the store.  The workflow
    stays among the active ones. *)
Definition cancel_workflow {World : Type} (now : World -> datetime * World)
    (workflow_id : string) (engine : WorkflowEngine) (w : World)
    : bool * WorkflowEngine * World :=
  match dict_get workflow_id (active_workflows engine) with
  | Some workflow =>
      let '(t, w1) := now w in
      let cancelled :=
        set_context (set_end_time (Some t) (context workflow))
                    (set_wf_status WF_CANCELLED workflow) in
      (true,
       mkEngine (dict_set workflow_id cancelled (active_workflows engine))
                (completed_workflows engine)
                (workflow_templates engine)
                (fold_left (fun h l => alter cancel_step l h) (steps workflow)
                           (objects engine)),
       w1)
  | None => (false, engine, w)
  end.

(** ** Nested induction on Python values *)

Section PyValInduction.

Variable P : PyVal -> Prop.
Hypothesis P_none : P VNone.
Hypothesis P_bool : forall b, P (VBool b).
Hypothesis P_int : forall n, P (VInt n).
Hypothesis P_str : forall s, P (VStr s).
Hypothesis P_list : forall items, Forall P items -> P (VList items).
Hypothesis P_dict :
  forall items, Forall (fun kv => P kv.2) items -> P (VDict items).

Fixpoint PyVal_nested_ind (v : PyVal) : P v :=
  match v with
  | VNone => P_none
  | VBool b => P_bool b
  | VInt n => P_int n
  | VStr s => P_str s
  | VList items =>
      P_list items
        ((fix all (l : list PyVal) : Forall P l :=
            match l return Forall P l with
            | [] => @List.Forall_nil _ P
            | x :: l' => @List.Forall_cons _ P x l' (PyVal_nested_ind x) (all l')
            end) items)
  | VDict items =>
      P_dict items
        ((fix all (d : list (string * PyVal)) : Forall (fun kv => P kv.2) d :=
            match d return Forall (fun kv => P kv.2) d with
            | [] => @List.Forall_nil _ _
            | (k, x) :: d' =>
                @List.Forall_cons _ (fun kv => P kv.2) (k, x) d'
                                  (PyVal_nested_ind x) (all d')
            end) items)
  end.

End PyValInduction.

(** ** The status query *)

Lemma filter_disjoint_length {A} (p q : A -> bool) (l : list A) :
  (forall x, p x = true -> q x = false) ->
  length (List.filter p l) + length (List.filter q l) <= length l.
Proof.
  intros Hpq. induction l as [|x l IH]; simpl; [lia|].
  destruct (p x) eqn:Hp.
  - rewrite (Hpq x Hp). simpl. lia.
  - destruct (q x); simpl; lia.
Qed.

Lemma StepStatus_value_inj (a b : StepStatus) :
  StepStatus_value a = StepStatus_value b -> a = b.
Proof. by destruct a, b. Qed.

(** X1.  [get_workflow_status] answers [None] exactly for an id that is
    neither among the active nor among the completed workflows.  In a
    report the counters agree with the list of step details: as many
    details as [total_steps], as many of them with status [completed] as
    [completed_steps], with status [failed] as [failed_steps]; completed
    and failed steps together are never more than all steps. *)
Theorem status_report_counts (engine : WorkflowEngine) (workflow_id : string) :
  match get_workflow_status engine workflow_id with
  | None =>
      dict_mem workflow_id (active_workflows engine) = false
      /\ dict_mem workflow_id (completed_workflows engine) = false
  | Some report =>
      (dict_mem workflow_id (active_workflows engine) = true
       \/ dict_mem workflow_id (completed_workflows engine) = true)
      /\ length (sr_step_details report) = sr_total_steps report
      /\ length (List.filter (fun d => String.eqb (sd_status d) "completed")
                             (sr_step_details report))
         = sr_completed_steps report
      /\ length (List.filter (fun d => String.eqb (sd_status d) "failed")
                             (sr_step_details report))
         = sr_failed_steps report
      /\ sr_completed_steps report + sr_failed_steps report
         <= sr_total_steps report
  end.
Proof.
  unfold get_workflow_status, get_or, dict_mem.
  assert (Hcount : forall st h wsteps,
            length (List.filter
                      (fun d => String.eqb (sd_status d) (StepStatus_value st))
                      (map (fun l =>
                              mkStepDetail (step_id (h !!! l)) (tool (h !!! l))
                                (action (h !!! l))
                                (StepStatus_value (status (h !!! l)))
                                (error (h !!! l))) wsteps))
            = count_status st h wsteps).
  { intros st h wsteps. unfold count_status.
    induction wsteps as [|l wsteps IH]; simpl; [done|].
    destruct (String.eqb_spec (StepStatus_value (status (h !!! l)))
                              (StepStatus_value st)) as [Heq|Hne].
    - apply StepStatus_value_inj in Heq.
      rewrite bool_decide_eq_true_2 by done. simpl. by rewrite IH.
    - rewrite bool_decide_eq_false_2 by congruence. done. }
  destruct (dict_get workflow_id (active_workflows engine)) as [workflow|];
    [|destruct (dict_get workflow_id (completed_workflows engine))
        as [workflow|]; [|done]];
    simpl.
  all: split; [tauto|]; split; [by rewrite length_map|].
  all: split; [apply (Hcount COMPLETED)|]; split; [apply (Hcount FAILED)|].
  all: apply filter_disjoint_length; intros l Hl;
       apply bool_decide_eq_true in Hl; apply bool_decide_eq_false;
       congruence.
Qed.

(** ** The listing query *)

Lemma dict_values_set {V} (k : string) (v x : V) (d : PyDict V) :
  x ∈ dict_values (dict_set k v d) -> x = v \/ x ∈ dict_values d.
Proof.
  unfold dict_values. induction d as [|[k' v'] d IH]; simpl.
  { intros ?%list_elem_of_singleton. by left. }
  destruct (String.eqb k k'); simpl.
  - intros [->|Hx]%elem_of_cons; [by left|]. right. by right.
  - intros [->|Hx]%elem_of_cons; [right; by left|].
    destruct (IH Hx) as [->|?]; [by left|]. right. by right.
Qed.

Lemma dict_values_update {V} (x : V) (other d : PyDict V) :
  x ∈ dict_values (dict_update d other) ->
  x ∈ dict_values d \/ x ∈ dict_values other.
Proof.
  unfold dict_update. revert d.
  induction other as [|[k v] other IH]; intros d; simpl; [by left|].
  intros [Hx|Hx]%IH.
  - apply dict_values_set in Hx as [->|Hx]; [right; by left|by left].
  - right. by right.
Qed.

(** The entry of [list_workflows] for a workflow with at least one step. *)
Definition listing_of (h : list WorkflowStep) (workflow : Workflow) : Listing :=
  mkListing (wf_id workflow) (name workflow)
            (WorkflowStatus_value (wf_status workflow))
            (created_at workflow) (tags workflow)
            (Qmake (Z.of_nat (count_status COMPLETED h (steps workflow)))
                   (Pos.of_nat (length (steps workflow)))).

(** [status_filter is None or workflow.status == status_filter] *)
Definition passes_filter (status_filter : option WorkflowStatus)
    (workflow : Workflow) : bool :=
  match status_filter with
  | None => true
  | Some f => bool_decide (wf_status workflow = f)
  end.

Lemma list_entries_spec (status_filter : option WorkflowStatus)
    (h : list WorkflowStep) (workflows : list Workflow) :
  Forall (fun workflow => steps workflow <> []) workflows ->
  list_entries status_filter h workflows
  = Ok (map (listing_of h) (List.filter (passes_filter status_filter) workflows)).
Proof.
  induction 1 as [|workflow workflows Hne _ IH]; simpl; [done|].
  fold (passes_filter status_filter workflow).
  destruct (passes_filter status_filter workflow); [|done].
  unfold true_div. destruct (length (steps workflow)) as [|n] eqn:Hlen.
  { by destruct (steps workflow). }
  rewrite IH. simpl. unfold listing_of. by rewrite Hlen.
Qed.

Lemma insert_latest_first_perm (x : Listing) (l : list Listing) :
  insert_latest_first x l ≡ₚ x :: l.
Proof.
  induction l as [|y l IH]; simpl; [done|].
  destruct (_ <=? _); [done|]. rewrite IH. apply Permutation_swap.
Qed.

Lemma sorted_latest_first_perm (l : list Listing) :
  sorted_latest_first l ≡ₚ l.
Proof.
  induction l as [|x l IH]; simpl; [done|].
  by rewrite insert_latest_first_perm, IH.
Qed.

(** Every entry is at least as recent as the entries after it. *)
Fixpoint latest_first (l : list Listing) : Prop :=
  match l with
  | [] => True
  | x :: l' =>
      Forall (fun y => li_created_at y <= li_created_at x) l' /\ latest_first l'
  end.

Lemma insert_latest_first_sorted (x : Listing) (l : list Listing) :
  latest_first l -> latest_first (insert_latest_first x l).
Proof.
  induction l as [|y l IH]; simpl; [done|]. intros [Hy Hl].
  destruct (Nat.leb_spec (li_created_at y) (li_created_at x)) as [Hle|Hlt];
    simpl.
  - split; [|done]. constructor; [done|].
    eapply Forall_impl; [exact Hy|]. simpl. lia.
  - split; [|by apply IH]. rewrite insert_latest_first_perm.
    constructor; [lia|done].
Qed.

Lemma sorted_latest_first_sorted (l : list Listing) :
  latest_first (sorted_latest_first l).
Proof.
  induction l as [|x l IH]; simpl; [done|]. by apply insert_latest_first_sorted.
Qed.

Lemma latest_first_lookup (l : list Listing) (i j : nat) (x y : Listing) :
  latest_first l -> l !! i = Some x -> l !! j = Some y -> i < j ->
  li_created_at y <= li_created_at x.
Proof.
  revert i j. induction l as [|z l IH]; intros i j; [by rewrite lookup_nil|].
  intros [Hz Hl] Hi Hj Hlt. destruct j as [|j]; [lia|]. simpl in Hj.
  destruct i as [|i]; simpl in Hi.
  - injection Hi as ->. rewrite Forall_forall in Hz. apply Hz.
    by eapply list_elem_of_lookup_2.
  - apply (IH i j); [done..|lia].
Qed.

Lemma count_status_le (st : StepStatus) (h : list WorkflowStep)
    (wsteps : list loc) :
  count_status st h wsteps <= length wsteps.
Proof.
  unfold count_status. induction wsteps as [|l wsteps IH]; simpl; [lia|].
  destruct (bool_decide _); simpl; lia.
Qed.

(** X2.  When every stored workflow has at least one step, [list_workflows]
    returns a list: one entry for each workflow of
    [{**active_workflows, **completed_workflows}] that passes the filter,
    the later created before the earlier, each with the status asked for
    and a progress between 0 and 1. *)
Theorem list_workflows_sorted (engine : WorkflowEngine)
    (status_filter : option WorkflowStatus) :
  (forall workflow,
     workflow ∈ dict_values (active_workflows engine)
                ++ dict_values (completed_workflows engine) ->
     steps workflow <> []) ->
  exists listing,
    list_workflows engine status_filter = Ok listing
    /\ listing ≡ₚ map (listing_of (objects engine))
                      (List.filter (passes_filter status_filter)
                         (dict_values
                            (dict_update (active_workflows engine)
                                         (completed_workflows engine))))
    /\ (forall i j x y,
          listing !! i = Some x -> listing !! j = Some y -> i < j ->
          li_created_at y <= li_created_at x)
    /\ (forall entry, entry ∈ listing ->
          (0 <= li_progress entry)%Q /\ (li_progress entry <= 1)%Q
          /\ forall st, status_filter = Some st ->
               li_status entry = WorkflowStatus_value st).
Proof.
  intros Hsteps. unfold list_workflows.
  rewrite list_entries_spec; cycle 1.
  { apply Forall_forall. intros workflow Hin. apply Hsteps.
    apply elem_of_app. by apply dict_values_update. }
  eexists. split; [reflexivity|].
  split; [apply sorted_latest_first_perm|]. split.
  { intros i j x y. apply latest_first_lookup, sorted_latest_first_sorted. }
  intros entry. rewrite sorted_latest_first_perm.
  intros (workflow & -> & [Hin Hpass]%elem_of_List_filter)%list_elem_of_fmap.
  assert (Hne : steps workflow <> []).
  { apply Hsteps, elem_of_app. by apply dict_values_update. }
  pose proof (count_status_le COMPLETED (objects engine) (steps workflow)) as Hle.
  unfold listing_of. simpl. unfold Qle. simpl.
  destruct (length (steps workflow)) as [|n] eqn:Hlen;
    [by destruct (steps workflow)|].
  rewrite <- Pos.of_nat_succ, Zpos_P_of_succ_nat.
  split; [lia|]. split; [lia|].
  intros st ->. simpl in Hpass. by apply bool_decide_eq_true in Hpass as ->.
Qed.

(** X2 for an engine with two completed runs. *)
Lemma list_workflows_sorted_witness :
  let run id t st :=
    mkWorkflow id "w" "" [0] empty_context st t [] [] in
  let engine :=
    mkEngine [] [("a", run "a" 3 WF_COMPLETED); ("b", run "b" 5 WF_FAILED)] []
             [new_step "s" "t" "a" [] [] [] 0] in
  exists listing,
    list_workflows engine None = Ok listing
    /\ map li_id listing = ["b"; "a"]
    /\ forall entry, entry ∈ listing ->
         (0 <= li_progress entry)%Q /\ (li_progress entry <= 1)%Q.
Proof.
  intros run engine.
  destruct (list_workflows_sorted engine None) as (listing & Hl & _ & _ & Hp).
  { intros workflow Hin. simpl in Hin. each_element Hin; done. }
  exists listing. split; [exact Hl|]. split.
  - vm_compute in Hl. by injection Hl as <-.
  - intros entry Hin. destruct (Hp entry Hin) as (? & ? & _). done.
Defined.

(** ** Cancelling *)

Lemma cancel_steps_lookup (wsteps : list loc) (h : list WorkflowStep) :
  length (fold_left (fun h l => alter cancel_step l h) wsteps h) = length h
  /\ forall l,
       fold_left (fun h l => alter cancel_step l h) wsteps h !!! l
       = if bool_decide (l ∈ wsteps) then cancel_step (h !!! l) else h !!! l.
Proof.
  revert h. induction wsteps as [|l0 wsteps IH]; intros h; cbn [fold_left].
  { split; [done|]. intros l. by rewrite bool_decide_eq_false_2
      by apply not_elem_of_nil. }
  destruct (IH (alter cancel_step l0 h)) as [Hlen Hget].
  split; [by rewrite Hlen, length_alter|]. intros l. rewrite Hget.
  rewrite list_lookup_total_alter.
  assert (Hidem : forall s, cancel_step (cancel_step s) = cancel_step s).
  { intros s. unfold cancel_step.
    destruct (bool_decide (status s = RUNNING)) eqn:Hs; [|by rewrite Hs].
    by rewrite bool_decide_eq_false_2. }
  destruct (decide (l = l0)) as [->|Hne].
  - rewrite (bool_decide_eq_true_2 (l0 ∈ l0 :: wsteps)) by left.
    destruct (decide (l0 = l0 /\ l0 < length h)) as [_|Hout].
    + by destruct (bool_decide (l0 ∈ wsteps)).
    + assert (Hdef : h !!! l0 = inhabitant).
      { rewrite list_lookup_total_alt, lookup_ge_None_2 by lia. done. }
      rewrite Hdef. by destruct (bool_decide (l0 ∈ wsteps)).
  - destruct (decide (l0 = l /\ l0 < length h)) as [[? _]|_]; [congruence|].
    apply (f_equal (fun b : bool => if b then _ else _)).
    apply bool_decide_ext. rewrite elem_of_cons. tauto.
Qed.

(** X3.  Cancelling an active workflow answers [True] and reads the clock
    once.  The workflow stays among the active ones, now [CANCELLED] and
    with its end time set; each of its steps that was [RUNNING] is [FAILED]
    with the error [Workflow cancelled], every other step object of the
    store is as before, as are the other workflows and the templates.  The
    status query then reports [cancelled] and no step as [running]. *)
Theorem cancel_active_workflow {World : Type} (now : World -> datetime * World)
    (workflow_id : string) (engine : WorkflowEngine) (w : World)
    (workflow : Workflow) :
  dict_get workflow_id (active_workflows engine) = Some workflow ->
  exists engine' cancelled report,
    cancel_workflow now workflow_id engine w = (true, engine', (now w).2)
    /\ dict_get workflow_id (active_workflows engine') = Some cancelled
    /\ wf_status cancelled = WF_CANCELLED
    /\ end_time (context cancelled) = Some (now w).1
    /\ steps cancelled = steps workflow
    /\ (forall k, k <> workflow_id ->
          dict_get k (active_workflows engine')
          = dict_get k (active_workflows engine))
    /\ completed_workflows engine' = completed_workflows engine
    /\ workflow_templates engine' = workflow_templates engine
    /\ length (objects engine') = length (objects engine)
    /\ (forall l, l ∈ steps workflow ->
          status (objects engine !!! l) = RUNNING ->
          status (objects engine' !!! l) = FAILED
          /\ error (objects engine' !!! l) = Some "Workflow cancelled")
    /\ (forall l, l ∉ steps workflow \/ status (objects engine !!! l) <> RUNNING ->
          objects engine' !!! l = objects engine !!! l)
    /\ get_workflow_status engine' workflow_id = Some report
    /\ sr_status report = "cancelled"
    /\ forall d, d ∈ sr_step_details report -> sd_status d <> "running".
Proof.
  intros Hget. unfold cancel_workflow. rewrite Hget.
  destruct (now w) as [t w1]. simpl.
  destruct (cancel_steps_lookup (steps workflow) (objects engine))
    as [Hlen Hobj].
  eexists _, _, _. split; [reflexivity|]. simpl.
  split; [apply dict_get_set_eq|]. simpl.
  do 3 (split; [reflexivity|]).
  split; [intros k Hk; by apply dict_get_set_ne|].
  do 2 (split; [reflexivity|]). split; [exact Hlen|].
  split; [|split].
  - intros l Hl Hrun. rewrite Hobj, bool_decide_eq_true_2 by done.
    unfold cancel_step. by rewrite bool_decide_eq_true_2.
  - intros l Hl. rewrite Hobj. unfold cancel_step.
    destruct Hl as [Hl|Hl].
    + by rewrite bool_decide_eq_false_2.
    + rewrite (bool_decide_eq_false_2 (status _ = RUNNING)) by done.
      by destruct (bool_decide _).
  - unfold get_workflow_status, get_or. simpl. rewrite dict_get_set_eq. simpl.
    split; [reflexivity|]. split; [reflexivity|].
    intros d (l & -> & Hl)%list_elem_of_fmap. simpl.
    rewrite Hobj, bool_decide_eq_true_2 by done. unfold cancel_step.
    destruct (bool_decide (status (objects engine !!! l) = RUNNING)) eqn:Hs;
      [done|].
    apply bool_decide_eq_false in Hs.
    by destruct (status (objects engine !!! l)).
Qed.

(** X3 on a workflow with a running and a completed step. *)
Lemma cancel_active_workflow_witness :
  let running :=
    mkStep "a" "t" "x" [] [] [] 30 3 None None RUNNING VNone None (Some 1) None in
  let completed :=
    mkStep "b" "t" "y" [] [] [] 30 3 None None COMPLETED VNone None (Some 1)
           (Some 2) in
  let workflow :=
    mkWorkflow "run-1" "w" "" [0; 1] empty_context WF_RUNNING 0 [] [] in
  let engine := mkEngine [("run-1", workflow)] [] [] [running; completed] in
  exists engine',
    cancel_workflow sample_now "run-1" engine (0, 0)
    = (true, engine', (sample_now (0, 0)).2)
    /\ status (objects engine' !!! 0) = FAILED
    /\ objects engine' !!! 1 = completed.
Proof.
  intros running completed workflow engine.
  destruct (cancel_active_workflow sample_now "run-1" engine (0, 0) workflow
              eq_refl)
    as (engine' & cancelled & report & Hc & _ & _ & _ & _ & _ & _ & _ & _
        & Hrun & Hrest & _).
  exists engine'. split; [exact Hc|]. split.
  - apply (Hrun 0); [left|reflexivity].
  - apply (Hrest 1). right. discriminate.
Defined.

Section Cancellation.

Context {World : Type}.
Variable invoke : string -> string -> PyDict PyVal -> World -> Result PyVal * World.
Variable now : World -> datetime * World.
Variable uuid4 : World -> string * World.
Variable repr_list : list string -> string.

(** X4.  A run that [execute_workflow] has returned cannot be cancelled:
    [cancel_workflow] answers [False] for its id and changes nothing, since
    the run has left the active workflows. *)
Theorem finished_run_not_cancellable (workflow_id : string)
    (parameters : option (PyDict PyVal)) (engine engine' : WorkflowEngine)
    (w w' : World) (uid : string) :
  execute_workflow invoke now uuid4 repr_list workflow_id parameters engine w
  = Some (Ok uid, engine', w') ->
  cancel_workflow now uid engine' w' = (false, engine', w')
  /\ exists report, get_workflow_status engine' uid = Some report
                    /\ sr_status report <> "cancelled".
Proof.
  intros Hex.
  destruct (dict_get workflow_id (workflow_templates engine))
    as [template|] eqn:Ht; cycle 1.
  { unfold execute_workflow in Hex. by rewrite Ht in Hex. }
  destruct (instantiate now uuid4 template parameters (objects engine) w)
    as [[instance h1] w3] eqn:Hinst.
  destruct (run_total invoke now uuid4 repr_list _ _ _ _ _ _ _ Hinst)
    as (r & σ & Hrun).
  rewrite (execute_workflow_known invoke now uuid4 repr_list
             _ _ _ _ _ _ _ _ _ _ Ht Hinst Hrun) in Hex.
  injection Hex as <- <- <-.
  unfold cancel_workflow, get_workflow_status, get_or. simpl.
  rewrite dict_get_del_eq, dict_get_set_eq. split; [reflexivity|].
  eexists. split; [reflexivity|]. simpl. by destruct r.
Qed.

End Cancellation.

(** X4 on the run of a chain of three steps. *)
Lemma finished_run_not_cancellable_witness :
  exists uid engine' w',
    execute_workflow (sample_invoke 0) sample_now sample_uuid4 sample_repr_list
      "chain" None chain_engine (0, 0) = Some (Ok uid, engine', w')
    /\ cancel_workflow sample_now uid engine' w' = (false, engine', w').
Proof.
  destruct (execute_workflow (sample_invoke 0) sample_now sample_uuid4
              sample_repr_list "chain" None chain_engine (0, 0))
    as [[[[uid|e] engine'] w']|] eqn:Hex; [|vm_compute in Hex; discriminate..].
  exists uid, engine', w'. split; [reflexivity|].
  apply (finished_run_not_cancellable (sample_invoke 0) sample_now sample_uuid4
           sample_repr_list "chain" None chain_engine engine' (0, 0) w' uid Hex).
Defined.

(** ** Conditions *)

(** X5.  [_check_step_conditions] lets a step without conditions run.  It
    answers [False], so that the step is skipped, only because of a
    condition of type [variable_exists] whose variable is not a key of the
    variables of the run; it raises only [TypeError], because of such a
    condition whose variable is a list or a dictionary. *)
Theorem skip_needs_missing_variable (conds : list (PyDict PyVal))
    (context : WorkflowContext) :
  (conds = [] -> _check_step_conditions conds context = Ok true)
  /\ (_check_step_conditions conds context = Ok false ->
      exists condition,
        condition ∈ conds
        /\ dict_get "type" condition = Some (VStr "variable_exists")
        /\ forall var_name,
             dict_get "variable" condition = Some (VStr var_name) ->
             dict_mem var_name (variables context) = false)
  /\ (forall e, _check_step_conditions conds context = Raise e ->
        exc_type e = "TypeError"
        /\ exists condition,
             condition ∈ conds
             /\ dict_get "type" condition = Some (VStr "variable_exists")
             /\ match dict_get "variable" condition with
                | Some (VList _) | Some (VDict _) => True
                | _ => False
                end).
Proof.
  split; [by intros ->|].
  induction conds as [|condition conds [IHf IHr]]; [done|].
  simpl.
  assert (Hnext :
    (_check_step_conditions conds context = Ok false ->
     exists c, c ∈ condition :: conds
       /\ dict_get "type" c = Some (VStr "variable_exists")
       /\ forall var_name, dict_get "variable" c = Some (VStr var_name) ->
            dict_mem var_name (variables context) = false)
    /\ (forall e, _check_step_conditions conds context = Raise e ->
          exc_type e = "TypeError"
          /\ exists c, c ∈ condition :: conds
               /\ dict_get "type" c = Some (VStr "variable_exists")
               /\ match dict_get "variable" c with
                  | Some (VList _) | Some (VDict _) => True
                  | _ => False
                  end)).
  { split.
    - intros (c & Hc & H)%IHf. exists c. split; [by right|done].
    - intros e (He & c & Hc & H)%IHr. split; [done|].
      exists c. split; [by right|done]. }
  destruct (dict_get "type" condition) as [[| | |condition_type| |]|] eqn:Htype;
    try exact Hnext.
  destruct (String.eqb condition_type "approval_required"); [done|].
  destruct (String.eqb condition_type "file_exists"); [done|].
  destruct (String.eqb_spec condition_type "variable_exists") as [->|_];
    [|exact Hnext].
  destruct (dict_get "variable" condition) as [[| | |var_name|items|items]|]
    eqn:Hvar.
  all: split; [intros Hres|intros e Hres]; try discriminate Hres.
  all: try (exists condition; split; [left|]; split; [done|];
            intros name Hname; congruence).
  - injection Hres as <-. split; [done|]. exists condition.
    split; [left|]. by rewrite Hvar.
  - injection Hres as <-. split; [done|]. exists condition.
    split; [left|]. by rewrite Hvar.
Qed.

(** X5 on a condition that asks for a variable that the run does not have. *)
Lemma skip_needs_missing_variable_witness :
  let conds := [[("type", VStr "variable_exists"); ("variable", VStr "token")]] in
  _check_step_conditions conds empty_context = Ok false
  /\ exists condition,
       condition ∈ conds
       /\ dict_get "variable" condition = Some (VStr "token").
Proof.
  intros conds.
  destruct (skip_needs_missing_variable conds empty_context) as (_ & Hskip & _).
  split; [reflexivity|].
  destruct (Hskip eq_refl) as (condition & Hin & _ & _).
  exists condition. split; [exact Hin|].
  apply list_elem_of_singleton in Hin as ->. reflexivity.
Defined.

(** ** Parameters *)

Lemma map_id_Forall {A} (f : A -> A) (l : list A) :
  Forall (fun x => f x = x) l -> map f l = l.
Proof. induction 1 as [|x l Hx _ IH]; simpl; [done|]. by rewrite Hx, IH. Qed.

Lemma process_value_unbound (context : WorkflowContext) (value : PyVal) :
  variables context = [] -> step_results context = [] ->
  process_value context value = value.
Proof.
  intros Hv Hr. induction value as [| | |s|items IH|items IH]
    using PyVal_nested_ind; try done.
  - simpl. destruct (is_placeholder s); [|done].
    unfold resolve_placeholder. by rewrite Hv, Hr.
  - rewrite process_value_list. f_equal. apply map_id_Forall.
    apply Forall_forall. intros item Hitem.
    rewrite Forall_forall in IH. specialize (IH item Hitem).
    by destruct item.
  - rewrite process_value_dict. f_equal. apply map_id_Forall.
    eapply Forall_impl; [exact IH|]. intros [k v]. simpl. by intros ->.
Qed.

(** X6.  [_process_step_parameters] keeps the keys of the parameters and
    their order.  As long as the run has no variables and no step results,
    it returns the parameters as they are written, placeholders included,
    at any depth. *)
Theorem parameters_without_bindings (params : PyDict PyVal)
    (context : WorkflowContext) :
  dict_keys (_process_step_parameters params context) = dict_keys params
  /\ (variables context = [] -> step_results context = [] ->
      _process_step_parameters params context = params).
Proof.
  split.
  - unfold dict_keys, _process_step_parameters. rewrite map_map.
    apply map_ext. by intros [k v].
  - intros Hv Hr. apply map_id_Forall, Forall_forall. intros [k v] _.
    by rewrite process_value_unbound.
Qed.

(** X6 on nested parameters. *)
Lemma parameters_without_bindings_witness :
  let params :=
    [("q", VStr "{town}");
     ("opts", VDict [("page", VInt 1); ("tags", VList [VStr "{tag}"])])] in
  _process_step_parameters params empty_context = params.
Proof.
  intros params.
  apply (parameters_without_bindings params empty_context); reflexivity.
Defined.

(** ** Runs and the catalogue of templates *)

Section Catalogue.

Context {World : Type}.
Variable invoke : string -> string -> PyDict PyVal -> World -> Result PyVal * World.
Variable now : World -> datetime * World.
Variable uuid4 : World -> string * World.
Variable repr_list : list string -> string.

(** A call of [execute_workflow] returns, and keeps the templates and the
    objects that were in the store. *)
Lemma execute_workflow_store (workflow_id : string)
    (parameters : option (PyDict PyVal)) (engine : WorkflowEngine) (w : World) :
  exists res engine' w',
    execute_workflow invoke now uuid4 repr_list workflow_id parameters engine w
    = Some (res, engine', w')
    /\ is_ok res = dict_mem workflow_id (workflow_templates engine)
    /\ workflow_templates engine' = workflow_templates engine
    /\ (forall l, l < length (objects engine) ->
          objects engine' !! l = objects engine !! l)
    /\ (dict_mem workflow_id (workflow_templates engine) = false ->
        engine' = engine /\ w' = w /\ exists msg, res = Raise (mkExc "ValueError" msg)).
Proof.
  unfold dict_mem.
  destruct (dict_get workflow_id (workflow_templates engine))
    as [template|] eqn:Ht; cycle 1.
  { unfold execute_workflow. rewrite Ht. eexists _, _, _.
    split; [reflexivity|]. repeat split; eauto. }
  destruct (instantiate now uuid4 template parameters (objects engine) w)
    as [[instance h1] w3] eqn:Hinst.
  destruct (run_total invoke now uuid4 repr_list _ _ _ _ _ _ _ Hinst)
    as (r & σ & Hrun).
  rewrite (execute_workflow_known invoke now uuid4 repr_list
             _ _ _ _ _ _ _ _ _ _ Ht Hinst Hrun).
  eexists _, _, _. split; [reflexivity|]. simpl.
  split; [reflexivity|]. split; [reflexivity|]. split; [|done].
  apply instantiate_spec in Hinst as (Hcopy & _).
  apply copy_steps_spec in Hcopy as (Hls & _ & Hpre & _).
  apply run_frame in Hrun as (_ & Hf & _). simpl in Hf.
  intros l Hl. rewrite Hf; [by apply Hpre|].
  rewrite Hls, elem_of_seq. lia.
Qed.

(** X7.  [execute_workflow] always returns, and it raises exactly when the
    template id is unknown: then the exception is a [ValueError], and the
    engine and the world are as before (no id is drawn, no run is
    stored). *)
Theorem execute_workflow_raises_for_unknown (workflow_id : string)
    (parameters : option (PyDict PyVal)) (engine : WorkflowEngine) (w : World) :
  exists res engine' w',
    execute_workflow invoke now uuid4 repr_list workflow_id parameters engine w
    = Some (res, engine', w')
    /\ is_ok res = dict_mem workflow_id (workflow_templates engine)
    /\ (dict_mem workflow_id (workflow_templates engine) = false ->
        engine' = engine /\ w' = w
        /\ exists msg, res = Raise (mkExc "ValueError" msg)).
Proof.
  destruct (execute_workflow_store workflow_id parameters engine w)
    as (res & engine' & w' & Hex & Hok & _ & _ & Hunknown).
  by exists res, engine', w'.
Qed.

(** X8.  A call of [execute_workflow], whatever its outcome, leaves the
    answer of [get_workflow_templates] as it was: same templates, same
    step counts, same estimated durations.  (The steps of the templates are
    objects of the store.) *)
Theorem templates_listing_stable (workflow_id : string)
    (parameters : option (PyDict PyVal)) (engine engine' : WorkflowEngine)
    (w w' : World) (res : Result string) :
  (forall key template l,
     (key, template) ∈ workflow_templates engine ->
     l ∈ steps template -> l < length (objects engine)) ->
  execute_workflow invoke now uuid4 repr_list workflow_id parameters engine w
  = Some (res, engine', w') ->
  get_workflow_templates engine' = get_workflow_templates engine.
Proof.
  intros Halloc Hex.
  destruct (execute_workflow_store workflow_id parameters engine w)
    as (res0 & engine0 & w0 & Hex0 & _ & Ht & Hpre & _).
  rewrite Hex in Hex0. injection Hex0 as <- <- <-.
  unfold get_workflow_templates. rewrite Ht.
  apply map_ext_in. intros [key template] Hin%list_elem_of_In.
  f_equal. unfold estimated_duration. f_equal.
  apply map_ext_in. intros l Hl%list_elem_of_In. f_equal.
  apply lookup_total_eq, Hpre. by eapply Halloc.
Qed.

End Catalogue.

(** X7 on an unknown and on a known template id. *)
Lemma execute_workflow_raises_for_unknown_witness :
  exists res res' engine' w',
    execute_workflow (sample_invoke 0) sample_now sample_uuid4 sample_repr_list
      "nope" None chain_engine (0, 0) = Some (res, chain_engine, (0, 0))
    /\ is_ok res = false
    /\ execute_workflow (sample_invoke 0) sample_now sample_uuid4
         sample_repr_list "chain" None chain_engine (0, 0)
       = Some (res', engine', w')
    /\ is_ok res' = true.
Proof.
  destruct (execute_workflow_raises_for_unknown (sample_invoke 0) sample_now
              sample_uuid4 sample_repr_list "nope" None chain_engine (0, 0))
    as (res & engine0 & w0 & Hex & Hok & Hunknown).
  destruct (Hunknown eq_refl) as (-> & -> & _).
  destruct (execute_workflow_raises_for_unknown (sample_invoke 0) sample_now
              sample_uuid4 sample_repr_list "chain" None chain_engine (0, 0))
    as (res' & engine' & w' & Hex' & Hok' & _).
  exists res, res', engine', w'. split; [exact Hex|]. split; [exact Hok|].
  split; [exact Hex'|exact Hok'].
Defined.

(** X8 on the run of a chain of three steps. *)
Lemma templates_listing_stable_witness :
  exists res engine' w',
    execute_workflow (sample_invoke 0) sample_now sample_uuid4 sample_repr_list
      "chain" None chain_engine (0, 0) = Some (res, engine', w')
    /\ get_workflow_templates engine'
       = [mkTemplateInfo "chain" "chain" "" [] 3 90].
Proof.
  assert (Halloc : forall key template l,
            (key, template) ∈ workflow_templates chain_engine ->
            l ∈ steps template -> l < length (objects chain_engine)).
  { intros key template l Hin Hl. apply list_elem_of_singleton in Hin.
    injection Hin as -> ->. simpl in Hl. each_element Hl; simpl; lia. }
  destruct (execute_workflow (sample_invoke 0) sample_now sample_uuid4
              sample_repr_list "chain" None chain_engine (0, 0))
    as [[[res engine'] w']|] eqn:Hex; [|vm_compute in Hex; discriminate].
  exists res, engine', w'. split; [reflexivity|].
  rewrite (templates_listing_stable (sample_invoke 0) sample_now sample_uuid4
             sample_repr_list "chain" None chain_engine engine' (0, 0) w' res
             Halloc Hex).
  reflexivity.
Defined.

(** ** Runs with an invoker that never raises *)

Section Reliable.

Context {World : Type}.
Variable invoke : string -> string -> PyDict PyVal -> World -> Result PyVal * World.
Variable now : World -> datetime * World.
Variable uuid4 : World -> string * World.
Variable repr_list : list string -> string.

Hypothesis invoke_never_raises :
  forall t a p w, is_ok (invoke t a p w).1 = true.

Variable vars : PyDict PyVal.
Variable wsteps : list loc.
Variable rank : string -> nat.

(** The steps [wsteps] of a store have distinct ids; their dependencies are
    ids of the workflow and go down along [rank]; their conditions raise
    nothing. *)
Definition sound_steps (h : list WorkflowStep) : Prop :=
  NoDup ((fun l => step_id (h !!! l)) <$> wsteps)
  /\ forall l, l ∈ wsteps ->
       (forall d, d ∈ dependencies (h !!! l) ->
          (exists l', l' ∈ wsteps /\ step_id (h !!! l') = d)
          /\ rank d < rank (step_id (h !!! l)))
       /\ (forall ctx, variables ctx = vars ->
             is_ok (_check_step_conditions (conditions (h !!! l)) ctx) = true).

Lemma sound_steps_shape (σ σ' : @RunState World) :
  same_shape σ σ' -> sound_steps (rs_heap σ) -> sound_steps (rs_heap σ').
Proof.
  intros Hs (Hnd & Hall).
  assert (Hids : forall l, step_id (rs_heap σ' !!! l) = step_id (rs_heap σ !!! l))
    by (intros l; by apply same_shape_id).
  split.
  - erewrite list_fmap_ext; [exact Hnd|]. intros ? l _. apply Hids.
  - intros l Hl.
    destruct (same_shape_call _ _ l Hs) as (_ & _ & _ & ->).
    rewrite (same_shape_dependencies _ _ l Hs), Hids.
    destruct (Hall l Hl) as (Hd & ?). split; [|done].
    intros d Hdin. destruct (Hd d Hdin) as [(l' & ? & ?) ?]. split; [|done].
    exists l'. by rewrite Hids.
Qed.

Lemma execute_step_reliable (l : loc) (σ σ1 : RunState) (res : Result PyVal) :
  l ∈ wsteps -> sound_steps (rs_heap σ) -> variables (rs_context σ) = vars ->
  _execute_step invoke now l σ = (res, σ1) ->
  is_ok res = true.
Proof.
  intros Hl (_ & Hall) Hv. destruct (Hall l Hl) as (_ & Hcond).
  specialize (Hcond _ Hv). unfold _execute_step.
  destruct (now (rs_world σ)) as [t0 w0].
  rewrite (alter_field conditions), (alter_field tool), (alter_field action),
    (alter_field parameters) by done.
  destruct (_check_step_conditions _ _) as [[|]|e]; [| |done].
  - pose proof (invoke_never_raises (tool (rs_heap σ !!! l))
                  (action (rs_heap σ !!! l))
                  (_process_step_parameters (parameters (rs_heap σ !!! l))
                     (rs_context σ)) w0) as Hres.
    destruct (invoke _ _ _ w0) as [r1 w1]. simpl in Hres.
    destruct (now w1) as [t1 w2]. by intros [= <- <-].
  - by intros [= <- <-].
Qed.

Lemma gather_reliable (ready : list loc) (σ σ1 : RunState)
    (results : list (Result PyVal)) :
  (forall l, l ∈ ready -> l ∈ wsteps) ->
  sound_steps (rs_heap σ) -> variables (rs_context σ) = vars ->
  gather invoke now ready σ = (results, σ1) ->
  Forall (fun res => is_ok res = true) results.
Proof.
  revert σ results.
  induction ready as [|l ready IH]; intros σ results Hin Hsc Hv; simpl.
  { by intros [= <- <-]. }
  destruct (_execute_step _ _ l σ) as [r σa] eqn:E1.
  destruct (gather _ _ ready σa) as [rs σb] eqn:E2. intros [= <- <-].
  pose proof (execute_step_spec _ _ _ _ _ _ E1) as (Hca & Hsa & _ & _).
  constructor.
  - eapply execute_step_reliable; [|done..]. apply Hin. left.
  - eapply IH; [| | |exact E2].
    + intros l' Hl'. apply Hin. by right.
    + by eapply sound_steps_shape.
    + congruence.
Qed.

(** A batch whose results are all values completes its steps, writes
    nothing to the error log and uses up no retry. *)
Lemma process_results_reliable (ready : list loc)
    (results : list (Result PyVal)) (c : gset string) (σ : @RunState World) :
  Forall (fun res => is_ok res = true) results ->
  exists c' σ',
    process_results ready results c σ = (Ok c', σ')
    /\ error_log (rs_context σ') = error_log (rs_context σ)
    /\ forall l, retry_count (rs_heap σ' !!! l) = retry_count (rs_heap σ !!! l).
Proof.
  intros Hok. revert ready c σ.
  induction Hok as [|res results Hres _ IH]; intros ready c σ.
  { destruct ready; simpl; by eexists _, _. }
  destruct ready as [|l ready]; simpl; [by eexists _, _|].
  destruct res as [v|e]; [|done].
  edestruct IH as (c' & σ' & -> & Hlog & Hretry). eexists _, _.
  split; [done|]. split; [done|].
  intros l'. rewrite Hretry. simpl. by rewrite (alter_field retry_count).
Qed.

(** No deadlock: as long as a step is not completed, one is ready. *)
Lemma sound_steps_ready (c : gset string) (σ : @RunState World) :
  loop_inv wsteps c σ -> sound_steps (rs_heap σ) ->
  (exists l, l ∈ wsteps /\ step_id (rs_heap σ !!! l) ∉ c) ->
  exists l, l ∈ wsteps /\ is_ready (rs_heap σ) c l = true.
Proof.
  intros (_ & _ & Hwait) (_ & Hall) (l & Hl & Hnc).
  remember (rank (step_id (rs_heap σ !!! l))) as n eqn:Hn.
  revert l Hl Hnc Hn. induction (lt_wf n) as [n _ IH]. intros l Hl Hnc ->.
  destruct (decide (Forall (fun d => d ∈ c) (dependencies (rs_heap σ !!! l))))
    as [Hdeps|Hdeps].
  - exists l. split; [done|]. apply is_ready_spec.
    split; [done|]. split; [by apply Hwait|].
    by apply Forall_forall.
  - apply not_Forall_Exists in Hdeps; [|apply _].
    apply Exists_exists in Hdeps as (d & Hd & Hdc). simpl in Hdc.
    destruct (Hall l Hl) as (Hdep & _).
    destruct (Hdep d Hd) as [(l' & Hl' & Hid') Hrank].
    apply (IH (rank d) Hrank l'); [done| |]; by rewrite Hid'.
Qed.

(** The loop ends normally; it leaves the error log and the retry counts
    as they are. *)
Lemma reliable_loop (fuel : nat) (c : gset string) (σ : RunState) :
  loop_inv wsteps c σ -> sound_steps (rs_heap σ) ->
  variables (rs_context σ) = vars ->
  pending_attempts wsteps c (rs_heap σ) < fuel ->
  exists σ',
    _execute_workflow_steps invoke now repr_list fuel wsteps c σ
    = Some (Ok tt, σ')
    /\ error_log (rs_context σ') = error_log (rs_context σ)
    /\ forall l, retry_count (rs_heap σ' !!! l) = retry_count (rs_heap σ !!! l).
Proof.
  revert c σ. induction fuel as [|fuel IH]; intros c σ Hinv Hsc Hv Hfuel; [lia|].
  simpl. destruct (_ <? _) eqn:Hlt; [|by eexists].
  rewrite loop_body_unfold. simpl.
  destruct (decide _) as [Hnil|Hnnil].
  { destruct (remaining_steps_of _ _ _) as [|l rest] eqn:Hrem; [by eexists|].
    exfalso.
    assert (Hin : l ∈ remaining_steps_of wsteps (rs_heap σ) c)
      by (rewrite Hrem; left).
    apply elem_of_remaining_steps in Hin.
    destruct (sound_steps_ready _ _ Hinv Hsc (ex_intro _ l Hin)) as (l' & Hl').
    apply elem_of_ready_steps in Hl'.
    rewrite Hnil in Hl'. by apply elem_of_nil in Hl'. }
  destruct (gather _ _ _ σ) as [results σ1] eqn:Hg.
  pose proof (gather_spec _ _ _ _ _ _ Hg) as (Hc1 & Hs1 & _ & Hr1 & _).
  assert (Hok : Forall (fun res => is_ok res = true) results).
  { eapply gather_reliable; [|done..].
    by intros l [? _]%elem_of_ready_steps. }
  destruct (process_results_reliable
              (ready_steps_of wsteps (rs_heap σ) c) results c σ1 Hok)
    as (c' & σ2 & Hp & Hlog & Hr2).
  rewrite Hp.
  assert (Hturn : loop_body invoke now repr_list wsteps c σ = Continue c' σ2).
  { rewrite loop_body_unfold. simpl.
    rewrite decide_False by done. by rewrite Hg, Hp. }
  pose proof (process_results_frame _ _ _ _ _ _ Hp) as (Hs2 & _ & Hv2 & _).
  destruct (IH c' σ2) as (σ' & Hrun & Hlog' & Hr').
  - by eapply loop_inv_turn.
  - by eapply sound_steps_shape, sound_steps_shape.
  - congruence.
  - destruct Hinv as [Ha _].
    pose proof (turn_measure _ _ _ _ _ _ _ _ Ha Hturn). lia.
  - exists σ'. split; [done|]. split; [congruence|].
    intros l. by rewrite Hr', Hr2, Hr1.
Qed.

End Reliable.

Section ReliableRun.

Context {World : Type}.
Variable invoke : string -> string -> PyDict PyVal -> World -> Result PyVal * World.
Variable now : World -> datetime * World.
Variable uuid4 : World -> string * World.
Variable repr_list : list string -> string.

(** The loop of a run of a sound template with an invoker that never
    raises: it ends normally, with every step completed. *)
Lemma reliable_instance (rank : string -> nat)
    (parameters : option (PyDict PyVal)) (h h1 : list WorkflowStep)
    (w w3 : World) (template instance : Workflow) :
  (forall t a p w0, is_ok (invoke t a p w0).1 = true) ->
  instantiate now uuid4 template parameters h w = (instance, h1, w3) ->
  (forall l, l ∈ steps template -> l < length h) ->
  NoDup ((fun l => step_id (h !!! l)) <$> steps template) ->
  (forall l, l ∈ steps template ->
     forall d, d ∈ dependencies (h !!! l) ->
       (exists l', l' ∈ steps template /\ step_id (h !!! l') = d)
       /\ rank d < rank (step_id (h !!! l))) ->
  (forall l ctx, l ∈ steps template ->
     variables ctx = run_variables parameters ->
     is_ok (_check_step_conditions (conditions (h !!! l)) ctx) = true) ->
  exists σ,
    _execute_workflow_steps invoke now repr_list (run_fuel (steps instance) h1)
      (steps instance) ∅ (mkRun h1 (context instance) w3) = Some (Ok tt, σ)
    /\ error_log (rs_context σ) = []
    /\ Forall2 (fun lt l =>
                  let s := rs_heap σ !!! l in
                  step_id s = step_id (h !!! lt)
                  /\ status s = COMPLETED
                  /\ retry_count s = retry_count (h !!! lt)
                  /\ dict_mem (step_id s) (step_results (rs_context σ)) = true)
               (steps template) (steps instance).
Proof.
  intros Hinvoke Hinst Hb Hids Hdeps Hcond.
  pose proof (instantiate_inv _ _ _ _ _ _ _ _ _ Hinst) as Hinv0.
  pose proof (instantiate_spec _ _ _ _ _ _ _ _ _ Hinst)
    as (Hcopy & _ & Hlog0 & Hvars & _).
  destruct (copy_steps_corr _ _ _ _ Hcopy Hb) as [Hit Hti].
  pose proof (copy_steps_ids _ _ _ _ Hcopy Hb) as Hcids.
  pose proof (copy_steps_Forall2 _ _ _ _ Hcopy Hb) as HF.
  assert (Hsc : sound_steps (run_variables parameters) (steps instance) rank h1).
  { split; [by rewrite Hcids|].
    intros li Hli. destruct (Hit li Hli) as (lt & Hlt & ->). simpl. split.
    - intros d Hd. destruct (Hdeps lt Hlt d Hd) as [(lt' & Hlt' & Hid) Hrank].
      split; [|done]. destruct (Hti lt' Hlt') as (li' & Hli' & Heq).
      exists li'. by rewrite Heq.
    - intros ctx Hctx. by apply Hcond. }
  destruct (reliable_loop invoke now repr_list Hinvoke _ _ rank
              (run_fuel (steps instance) h1) ∅
              (mkRun h1 (context instance) w3) Hinv0 Hsc Hvars)
    as (σ & Hrun & Hlog & Hretry).
  { rewrite pending_attempts_empty. simpl. lia. }
  simpl in Hlog, Hretry. rewrite Hlog0 in Hlog.
  destruct (run_ok_completed _ _ _ _ _ _ _ _ Hinv0 Hrun)
    as (c' & (_ & Hdone & _) & Hall).
  pose proof (run_frame _ _ _ _ _ _ _ _ _ Hrun) as (Hshape & _ & _).
  assert (Hidσ : forall l, step_id (rs_heap σ !!! l) = step_id (h1 !!! l))
    by (intros l; by apply (same_shape_id _ _ l Hshape)).
  exists σ. split; [done|]. split; [done|].
  apply Forall2_same_length_lookup_2; [by eapply Forall2_length|].
  intros i lt li Hlt Hli.
  pose proof (Forall2_lookup_lr _ _ _ _ _ _ HF Hlt Hli) as Hcopied.
  assert (Hin : li ∈ steps instance) by (by eapply list_elem_of_lookup_2).
  cbv zeta. rewrite Hidσ, Hretry, Hcopied. simpl.
  split; [done|].
  destruct (Hdone _ (Hall li Hin)) as (l' & Hl' & Hid' & Hst & Hmem).
  rewrite !Hidσ, Hcopied in Hid'. simpl in Hid'.
  assert (l' = li) as ->.
  { destruct Hsc as [Hnd _].
    apply (NoDup_fmap_inj (fun l => step_id (h1 !!! l)) (steps instance));
      [done..|]. by rewrite Hid', Hcopied. }
  rewrite Hidσ, Hcopied in Hmem. simpl in Hmem. done.
Qed.

(** X9.  With an invoker that never raises, the run of a template whose
    step ids are distinct, whose dependencies are steps of the template and
    have no cycle, and whose conditions raise nothing, is stored as
    [COMPLETED], with an empty error log: there is no deadlock and no
    retry.  Every step of the run is [COMPLETED], has its result in
    [step_results] and still has the retry count of the template. *)
Theorem reliable_run_completes (rank : string -> nat) (workflow_id : string)
    (parameters : option (PyDict PyVal)) (engine : WorkflowEngine) (w : World)
    (template : Workflow) :
  let h := objects engine in
  (forall t a p w0, is_ok (invoke t a p w0).1 = true) ->
  dict_get workflow_id (workflow_templates engine) = Some template ->
  (forall l, l ∈ steps template -> l < length h) ->
  NoDup ((fun l => step_id (h !!! l)) <$> steps template) ->
  (forall l, l ∈ steps template ->
     forall d, d ∈ dependencies (h !!! l) ->
       (exists l', l' ∈ steps template /\ step_id (h !!! l') = d)
       /\ rank d < rank (step_id (h !!! l))) ->
  (forall l ctx, l ∈ steps template ->
     variables ctx = run_variables parameters ->
     is_ok (_check_step_conditions (conditions (h !!! l)) ctx) = true) ->
  exists uid engine' w' run,
    execute_workflow invoke now uuid4 repr_list workflow_id parameters engine w
    = Some (Ok uid, engine', w')
    /\ dict_get uid (completed_workflows engine') = Some run
    /\ wf_status run = WF_COMPLETED
    /\ error_log (context run) = []
    /\ Forall2 (fun lt l =>
                  let s := objects engine' !!! l in
                  step_id s = step_id (h !!! lt)
                  /\ status s = COMPLETED
                  /\ retry_count s = retry_count (h !!! lt)
                  /\ dict_mem (step_id s) (step_results (context run)) = true)
               (steps template) (steps run).
Proof.
  intros h Hinvoke Ht Hb Hids Hdeps Hcond. unfold h in *. clear h.
  destruct (instantiate now uuid4 template parameters (objects engine) w)
    as [[instance h1] w3] eqn:Hinst.
  destruct (reliable_instance rank parameters _ _ _ _ _ _ Hinvoke Hinst Hb
              Hids Hdeps Hcond) as (σ & Hrun & Hlog & Hsteps).
  eexists _, _, _, _.
  split; [by eapply execute_workflow_known|]. simpl.
  split; [apply dict_get_set_eq|]. simpl.
  split; [reflexivity|]. split; [exact Hlog|exact Hsteps].
Qed.

End ReliableRun.

(** X9 on the chain of three steps, with a capability that works. *)
Lemma reliable_run_completes_witness :
  exists uid engine' w' run,
    execute_workflow (sample_invoke 0) sample_now sample_uuid4 sample_repr_list
      "chain" None chain_engine (0, 0) = Some (Ok uid, engine', w')
    /\ dict_get uid (completed_workflows engine') = Some run
    /\ wf_status run = WF_COMPLETED
    /\ error_log (context run) = [].
Proof.
  destruct (reliable_run_completes (sample_invoke 0) sample_now sample_uuid4
              sample_repr_list chain_rank "chain" None chain_engine (0, 0)
              (new_template "chain" [0; 1; 2]))
    as (uid & engine' & w' & run & Hex & Hget & Hst & Hlog & _).
  - intros t a p w0. unfold sample_invoke.
    by destruct (String.eqb t "flaky" && String.eqb a "call").
  - reflexivity.
  - intros l Hl. each_element Hl; simpl; lia.
  - apply (bool_decide_unpack _). vm_compute. exact I.
  - intros l Hl d Hd. each_element Hl; simpl in Hd; each_element Hd.
    + split; [exists 0; split; [|reflexivity]|vm_compute; lia].
      apply (bool_decide_unpack _). vm_compute. exact I.
    + split; [exists 1; split; [|reflexivity]|vm_compute; lia].
      apply (bool_decide_unpack _). vm_compute. exact I.
  - intros l ctx Hl _. each_element Hl; reflexivity.
  - exists uid, engine', w', run.
    split; [exact Hex|]. split; [exact Hget|]. split; [exact Hst|exact Hlog].
Defined.

(** ** The invoker of the repository: [_simulate_mcp_call] *)

Section Simulation.

Context {World : Type}.
Variable now : World -> datetime * World.

(** [str(v)] for a value that is not a string, and the renderings of
    [d.timestamp()] and of [d.isoformat()]. *)
Variable str_of : PyVal -> string.
Variable timestamp : datetime -> string.
Variable isoformat : datetime -> string.

(** A value inside an f-string. *)
Definition format_value (v : PyVal) : string :=
  match v with
  | VStr s => s
  | _ => str_of v
  end.

(** [params.get(key, default)] *)
Definition params_get (params : PyDict PyVal) (key : string) (default : PyVal)
    : PyVal :=
  match dict_get key params with
  | Some v => v
  | None => default
  end.

(** The table of mock answers.  It is built at every call, so that the
    clock is read for the id of the mock project whatever is asked. *)
Definition mock_responses (params : PyDict PyVal) (t : datetime)
    : list (string * string * PyVal) :=
  [ ("mcp__github__", "search_repositories",
     VDict [("repositories",
             VList [VDict [("name", VStr "test-repo"); ("stars", VInt 100);
                           ("language", VStr "Python")]])]);
    ("mcp__github__", "create_repository",
     VDict [("id", VInt 123456);
            ("name", params_get params "name" (VStr "new-repo"));
            ("full_name",
             VStr ("user/"
                   +:+ format_value (params_get params "name" (VStr "new-repo"))));
            ("clone_url",
             VStr ("https://github.com/user/"
                   +:+ format_value (params_get params "name" (VStr "new-repo"))
                   +:+ ".git"))]);
    ("mcp__supabase__", "list_projects",
     VDict [("projects",
             VList [VDict [("id", VStr "proj_1"); ("name", VStr "test-project");
                           ("status", VStr "active")]])]);
    ("mcp__supabase__", "create_project",
     VDict [("id", VStr ("proj_" +:+ timestamp t));
            ("name", params_get params "name" (VStr "new-project"));
            ("status", VStr "provisioning")]);
    ("mcp__exa__", "web_search_exa",
     VDict [("results",
             VList [VDict [("title", VStr "Best Practices Guide");
                           ("url", VStr "https://example.com/guide")]])]) ].

(** [mock_responses[key]] when [key in mock_responses] *)
Fixpoint mock_lookup (tool action : string)
    (table : list (string * string * PyVal)) : option PyVal :=
  match table with
  | [] => None
  | (t, a, response) :: rest =>
      if String.eqb tool t && String.eqb action a then Some response
      else mock_lookup tool action rest
  end.

Definition _simulate_mcp_call (tool action : string) (params : PyDict PyVal)
    (w : World) : Result PyVal * World :=
  let '(t0, w1) := now w in
  match mock_lookup tool action (mock_responses params t0) with
  | Some response => (Ok response, w1)
  | None =>
      let '(t1, w2) := now w1 in
      (Ok (VDict [("simulated", VBool true); ("tool", VStr tool);
                  ("action", VStr action); ("parameters", VDict params);
                  ("timestamp", VStr (isoformat t1))]),
       w2)
  end.

End Simulation.

(** ** The templates of the repository: [load_builtin_templates] *)

(** [WorkflowStep(id=.., tool=.., ..)] with the defaults of the class for
    the fields that the templates never pass. *)
Definition WorkflowStep_init (id tool action : string)
    (parameters : PyDict PyVal) (dependencies : list string)
    (conditions : list (PyDict PyVal)) (timeout : Z) : WorkflowStep :=
  mkStep id tool action parameters dependencies conditions timeout 3
         None None WAITING VNone None None None.

Definition github_supabase_steps : list WorkflowStep :=
  [ WorkflowStep_init "search_repo" "mcp__github__" "search_repositories"
      [("query", VStr "{repo_query}")] [] [] 30;
    WorkflowStep_init "analyze_repo" "mcp__github__" "get_repository"
      [("owner", VStr "{repo_owner}"); ("repo", VStr "{repo_name}")]
      ["search_repo"] [] 30;
    WorkflowStep_init "get_file_structure" "mcp__github__" "get_file_contents"
      [("owner", VStr "{repo_owner}"); ("repo", VStr "{repo_name}");
       ("path", VStr "package.json")]
      ["analyze_repo"]
      [[("type", VStr "file_exists"); ("path", VStr "package.json")]] 30;
    WorkflowStep_init "list_supabase_projects" "mcp__supabase__" "list_projects"
      [] [] [] 30;
    WorkflowStep_init "analyze_tech_stack" "mcp__exa__" "web_search_exa"
      [("query", VStr "{detected_framework} supabase integration guide")]
      ["get_file_structure"] [] 45;
    WorkflowStep_init "create_supabase_project" "mcp__supabase__"
      "create_project"
      [("name", VStr "{project_name}"); ("organization_id", VStr "{org_id}");
       ("region", VStr "us-east-1")]
      ["list_supabase_projects"; "analyze_tech_stack"]
      [[("type", VStr "approval_required");
        ("message", VStr "새 Supabase 프로젝트를 생성하시겠습니까?")]] 120 ].

Definition health_check_steps : list WorkflowStep :=
  [ WorkflowStep_init "check_github_status" "mcp__github__"
      "search_repositories"
      [("query", VStr "user:{username}"); ("per_page", VInt 1)] [] [] 15;
    WorkflowStep_init "check_supabase_projects" "mcp__supabase__"
      "list_projects" [] [] [] 30;
    WorkflowStep_init "check_ide_status" "mcp__ide__" "getDiagnostics"
      [] [] [] 10;
    WorkflowStep_init "check_browser_automation" "mcp__playwright__"
      "browser_snapshot" [] [] [] 20;
    WorkflowStep_init "system_resource_check"
      "mcp__wonderwhy-er-desktop-commander__" "get_usage_stats" [] [] [] 15;
    WorkflowStep_init "generate_health_report" "mcp__taskmanager__"
      "request_planning"
      [("originalRequest", VStr "Generate comprehensive health report");
       ("tasks",
        VList [VDict [("title", VStr "Compile service status");
                      ("description", VStr "Aggregate all service statuses")];
               VDict [("title", VStr "Identify issues");
                      ("description", VStr "Highlight any problems found")];
               VDict [("title", VStr "Generate recommendations");
                      ("description",
                       VStr "Provide actionable recommendations")]])]
      ["check_github_status"; "check_supabase_projects"; "check_ide_status"]
      [] 30 ].

Definition project_init_steps : list WorkflowStep :=
  [ WorkflowStep_init "create_github_repo" "mcp__github__" "create_repository"
      [("name", VStr "{project_name}");
       ("description", VStr "{project_description}");
       ("private", VBool false); ("autoInit", VBool true)] [] [] 30;
    WorkflowStep_init "setup_project_structure"
      "mcp__wonderwhy-er-desktop-commander__" "create_directory"
      [("path", VStr "{local_project_path}")] [] [] 10;
    WorkflowStep_init "init_package_json" "mcp__github__"
      "create_or_update_file"
      [("owner", VStr "{github_username}"); ("repo", VStr "{project_name}");
       ("path", VStr "package.json"); ("content", VStr "{package_json_content}");
       ("message", VStr "feat: Initialize package.json");
       ("branch", VStr "main")]
      ["create_github_repo"] [] 30;
    WorkflowStep_init "create_supabase_project" "mcp__supabase__"
      "create_project"
      [("name", VStr "{project_name}-db"); ("organization_id", VStr "{org_id}");
       ("region", VStr "us-east-1")] [] [] 120;
    WorkflowStep_init "setup_ci_cd" "mcp__github__" "create_or_update_file"
      [("owner", VStr "{github_username}"); ("repo", VStr "{project_name}");
       ("path", VStr ".github/workflows/ci.yml");
       ("content", VStr "{ci_workflow_content}");
       ("message", VStr "feat: Add CI/CD workflow"); ("branch", VStr "main")]
      ["init_package_json"] [] 30;
    WorkflowStep_init "create_readme" "mcp__github__" "create_or_update_file"
      [("owner", VStr "{github_username}"); ("repo", VStr "{project_name}");
       ("path", VStr "README.md"); ("content", VStr "{readme_content}");
       ("message", VStr "docs: Add comprehensive README");
       ("branch", VStr "main")]
      ["setup_ci_cd"] [] 30 ].

Definition code_quality_steps : list WorkflowStep :=
  [ WorkflowStep_init "get_repo_files" "mcp__github__" "search_code"
      [("q", VStr "repo:{owner}/{repo} extension:py OR extension:js OR extension:ts")]
      [] [] 45;
    WorkflowStep_init "analyze_code_structure" "mcp__ide__" "getDiagnostics"
      [] ["get_repo_files"] [] 30;
    WorkflowStep_init "search_best_practices" "mcp__exa__" "web_search_exa"
      [("query", VStr "{language} code quality best practices 2025")] [] [] 30;
    WorkflowStep_init "get_documentation" "mcp__context7__" "get_library_docs"
      [("context7CompatibleLibraryID", VStr "{main_framework}")] [] [] 45;
    WorkflowStep_init "create_improvement_tasks" "mcp__taskmanager__"
      "request_planning"
      [("originalRequest", VStr "Improve code quality based on analysis");
       ("tasks", VStr "{improvement_tasks}")]
      ["analyze_code_structure"; "search_best_practices"] [] 30 ].

Definition builtin_steps : list WorkflowStep :=
  github_supabase_steps ++ health_check_steps ++ project_init_steps
  ++ code_quality_steps.

(** [WorkflowEngine()]: empty dictionaries, then [load_builtin_templates].
    Each of the four [Workflow(...)] reads the clock for its [created_at];
    the steps are the first objects of the store. *)
Definition WorkflowEngine_init {World : Type} (now : World -> datetime * World)
    (w : World) : WorkflowEngine * World :=
  let '(t1, w1) := now w in
  let '(t2, w2) := now w1 in
  let '(t3, w3) := now w2 in
  let '(t4, w4) := now w3 in
  (mkEngine [] []
     [ ("github_to_supabase",
        mkWorkflow "github_to_supabase_setup" "GitHub to Supabase Setup"
          "GitHub 저장소 분석 후 Supabase 프로젝트 자동 설정"
          [0; 1; 2; 3; 4; 5] empty_context WF_PENDING t1
          ["github"; "supabase"; "setup"; "analysis"] []);
       ("health_check",
        mkWorkflow "comprehensive_health_check" "Comprehensive Health Check"
          "모든 연결된 서비스의 상태를 종합적으로 점검"
          [6; 7; 8; 9; 10; 11] empty_context WF_PENDING t2
          ["monitoring"; "health"; "status"] []);
       ("project_init",
        mkWorkflow "project_initialization" "Project Initialization"
          "새 프로젝트의 완전 자동 초기화"
          [12; 13; 14; 15; 16; 17] empty_context WF_PENDING t3
          ["initialization"; "setup"; "automation"] []);
       ("code_quality",
        mkWorkflow "code_quality_check" "Code Quality Check"
          "코드 품질 종합 검사 및 개선 제안"
          [18; 19; 20; 21; 22] empty_context WF_PENDING t4
          ["quality"; "analysis"; "improvement"] []) ]
     builtin_steps,
   w4).

(** ** The built-in templates under the built-in invoker *)

Section Builtin.

Context {World : Type}.
Variable now : World -> datetime * World.
Variable uuid4 : World -> string * World.
Variable repr_list : list string -> string.
Variable str_of : PyVal -> string.
Variable timestamp : datetime -> string.
Variable isoformat : datetime -> string.

Lemma simulate_never_raises (tool action : string) (params : PyDict PyVal)
    (w : World) :
  is_ok (_simulate_mcp_call now str_of timestamp isoformat tool action params w).1
  = true.
Proof.
  unfold _simulate_mcp_call. destruct (now w) as [t0 w1].
  destruct (mock_lookup _ _ _); [done|]. by destruct (now w1).
Qed.

(** The place of a step id among the built-in steps. *)
Fixpoint position (id : string) (ids : list string) : nat :=
  match ids with
  | [] => 0
  | id' :: rest => if String.eqb id id' then 0 else S (position id rest)
  end.

Definition builtin_rank (id : string) : nat :=
  position id (map step_id builtin_steps).

Lemma prefix_of_lookup {A} (l1 l2 : list A) :
  (forall i, i < length l1 -> l2 !! i = l1 !! i) -> l1 `prefix_of` l2.
Proof.
  intros Hl. exists (drop (length l1) l2).
  rewrite <- (take_drop (length l1) l2) at 1. f_equal.
  apply list_eq. intros i. destruct (decide (i < length l1)) as [Hi|Hi].
  - rewrite lookup_take_lt by done. by apply Hl.
  - rewrite lookup_take_ge by lia. symmetry. apply lookup_ge_None_2. lia.
Qed.

(** X10.  An engine that has the built-in templates and their steps, as a
    new [WorkflowEngine()] has and as it still has after any run, completes
    every built-in template with the built-in invoker, whatever the
    parameters: the run is stored as [COMPLETED] with an empty error log and
    all its steps are [COMPLETED].  The engine is then again as described. *)
Theorem builtin_templates_complete (w0 : World) (workflow_id : string)
    (parameters : option (PyDict PyVal)) (engine : WorkflowEngine) (w : World) :
  let fresh := (WorkflowEngine_init now w0).1 in
  workflow_templates engine = workflow_templates fresh ->
  objects fresh `prefix_of` objects engine ->
  dict_mem workflow_id (workflow_templates fresh) = true ->
  exists uid engine' w' run,
    execute_workflow (_simulate_mcp_call now str_of timestamp isoformat)
      now uuid4 repr_list workflow_id parameters engine w
    = Some (Ok uid, engine', w')
    /\ dict_get uid (completed_workflows engine') = Some run
    /\ wf_status run = WF_COMPLETED
    /\ error_log (context run) = []
    /\ steps run <> []
    /\ (forall l, l ∈ steps run -> status (objects engine' !!! l) = COMPLETED)
    /\ workflow_templates engine' = workflow_templates fresh
    /\ objects fresh `prefix_of` objects engine'.
Proof.
  intros fresh Htemplates [rest Hobjects] Hknown.
  set (invoke := _simulate_mcp_call now str_of timestamp isoformat).
  assert (Hfresh : objects fresh = builtin_steps).
  { unfold fresh, WorkflowEngine_init. by repeat destruct (now _). }
  rewrite Hfresh in Hobjects |- *.
  assert (exists template,
            dict_get workflow_id (workflow_templates engine) = Some template
            /\ steps template <> []
            /\ (forall l, l ∈ steps template -> l < length (objects engine))
            /\ NoDup ((fun l => step_id (objects engine !!! l))
                        <$> steps template)
            /\ (forall l, l ∈ steps template ->
                  forall d, d ∈ dependencies (objects engine !!! l) ->
                    d ∈ (fun l => step_id (objects engine !!! l))
                          <$> steps template
                    /\ builtin_rank d
                       < builtin_rank (step_id (objects engine !!! l)))
            /\ (forall l ctx, l ∈ steps template ->
                  is_ok (_check_step_conditions
                           (conditions (objects engine !!! l)) ctx) = true))
    as (template & Ht & Hne & Halloc & Hids & Hdeps & Hcond).
  { rewrite Htemplates, Hobjects. revert Hknown.
    unfold fresh, WorkflowEngine_init.
    destruct (now w0) as [t1 w1], (now w1) as [t2 w2], (now w2) as [t3 w3],
      (now w3) as [t4 w4].
    unfold dict_mem. cbn [fst workflow_templates dict_get].
    repeat destruct (String.eqb workflow_id _); try discriminate; intros _.
    all: eexists; split; [reflexivity|]; cbn [steps].
    all: split; [done|].
    all: split; [intros l Hl; rewrite length_app; each_element Hl; simpl; lia|].
    all: split; [apply (bool_decide_unpack _); vm_compute; exact I|].
    all: split; [|intros l ctx Hl; each_element Hl; reflexivity].
    all: intros l Hl d Hd; each_element Hl; simpl in Hd; each_element Hd.
    all: split; [apply (bool_decide_unpack _)|]; vm_compute; (exact I || lia). }
  destruct (instantiate now uuid4 template parameters (objects engine) w)
    as [[instance h1] w3] eqn:Hinst.
  destruct (reliable_instance invoke now uuid4 repr_list builtin_rank
              parameters (objects engine) h1 w w3 template instance)
    as (σ & Hrun & Hlog & Hsteps);
    [apply simulate_never_raises|done..| | |].
  { intros l Hl d Hd. destruct (Hdeps l Hl d Hd) as [Hin Hrank].
    split; [|done].
    apply list_elem_of_fmap in Hin as (l' & -> & Hl'). by exists l'. }
  { intros l ctx Hl _. by apply Hcond. }
  pose proof (execute_workflow_known invoke now uuid4 repr_list
                _ _ _ _ _ _ _ _ _ _ Ht Hinst Hrun) as Hex.
  destruct (execute_workflow_store invoke now uuid4 repr_list workflow_id
              parameters engine w)
    as (res0 & engine0 & w1 & Hex0 & _ & Ht' & Hpre & _).
  rewrite Hex in Hex0. injection Hex0 as <- <- <-.
  cbn [objects workflow_templates] in Ht', Hpre.
  eexists _, _, _, _. split; [exact Hex|].
  cbn [completed_workflows objects workflow_templates].
  split; [apply dict_get_set_eq|].
  cbn [wf_status set_wf_status set_context context error_log set_end_time
       steps].
  split; [reflexivity|]. split; [exact Hlog|]. split; [|split; [|split]].
  - intros Hnil. rewrite Hnil in Hsteps. apply Forall2_nil_inv_r in Hsteps.
    done.
  - intros l [i Hi]%list_elem_of_lookup.
    destruct (Forall2_lookup_r _ _ _ _ _ Hsteps Hi) as (lt & _ & _ & ? & _).
    done.
  - congruence.
  - apply prefix_of_lookup. intros i Hi.
    rewrite Hpre, Hobjects; [by apply lookup_app_l|].
    rewrite Hobjects, length_app. lia.
Qed.

End Builtin.

(** X10 on a new engine and on the engine after a first run. *)
Lemma builtin_templates_complete_witness :
  let invoke :=
    _simulate_mcp_call sample_now (fun _ => "?") (fun _ => "0.0")
                       (fun _ => "2025-09-19T00:00:00") in
  let fresh := (WorkflowEngine_init sample_now (0, 0)).1 in
  exists uid engine1 w1 run uid2 engine2 w2 run2,
    execute_workflow invoke sample_now sample_uuid4 sample_repr_list
      "health_check" None fresh (4, 0) = Some (Ok uid, engine1, w1)
    /\ dict_get uid (completed_workflows engine1) = Some run
    /\ wf_status run = WF_COMPLETED
    /\ execute_workflow invoke sample_now sample_uuid4 sample_repr_list
         "project_init" (Some [("project_name", VStr "demo")]) engine1 w1
       = Some (Ok uid2, engine2, w2)
    /\ dict_get uid2 (completed_workflows engine2) = Some run2
    /\ wf_status run2 = WF_COMPLETED.
Proof.
  intros invoke fresh.
  destruct (builtin_templates_complete sample_now sample_uuid4 sample_repr_list
              (fun _ => "?") (fun _ => "0.0") (fun _ => "2025-09-19T00:00:00")
              (0, 0) "health_check" None fresh (4, 0))
    as (uid & engine1 & w1 & run & Hex & Hget & Hst & _ & _ & _ & Ht1 & Hp1);
    [reflexivity|by exists []|reflexivity|].
  destruct (builtin_templates_complete sample_now sample_uuid4 sample_repr_list
              (fun _ => "?") (fun _ => "0.0") (fun _ => "2025-09-19T00:00:00")
              (0, 0) "project_init" (Some [("project_name", VStr "demo")])
              engine1 w1)
    as (uid2 & engine2 & w2 & run2 & Hex2 & Hget2 & Hst2 & _);
    [exact Ht1|exact Hp1|reflexivity|].
  exists uid, engine1, w1, run, uid2, engine2, w2, run2.
  split; [exact Hex|]. split; [exact Hget|]. split; [exact Hst|].
  split; [exact Hex2|]. split; [exact Hget2|exact Hst2].
Defined.

(** * The data flow of a chain: [MetaAgentSystem._build_data_flow] *)

Inductive ExecutionMode := SEQUENTIAL | PARALLEL | PIPELINE | ADAPTIVE.

Section DataFlow.

(** [self.collaboration_graph.has_edge] *)
Variable has_edge : string -> string -> bool.

(** [for i in range(len(agents) - 1): data_flow[agents[i]] = agents[i + 1]] *)
Fixpoint sequential_flow (agents : list string) (data_flow : PyDict string)
    : PyDict string :=
  match agents with
  | agent :: (next :: _) as rest =>
      sequential_flow rest (dict_set agent next data_flow)
  | _ => data_flow
  end.

(** The inner loop of the pipeline branch, over all [agents]. *)
Definition flow_successors (agents : list string) (agent : string)
    : list string :=
  List.filter (fun successor =>
                 has_edge agent successor && negb (String.eqb successor agent))
              agents.

(** The outer loop of the pipeline branch, over the agents still to
    visit. *)
Fixpoint pipeline_flow (agents to_visit : list string)
    (data_flow : PyDict string) : PyDict string :=
  match to_visit with
  | [] => data_flow
  | agent :: rest =>
      match flow_successors agents agent with
      | [] => pipeline_flow agents rest data_flow
      | successors =>
          pipeline_flow agents rest
            (dict_set agent (String.concat "," successors) data_flow)
      end
  end.

Definition _build_data_flow (agents : list string) (mode : ExecutionMode)
    : PyDict string :=
  match mode with
  | SEQUENTIAL => sequential_flow agents []
  | PIPELINE => pipeline_flow agents agents []
  | _ => []
  end.

End DataFlow.

(** ** Joining and splitting *)

(** [sep not in s] *)
Fixpoint without_char (sep : ascii) (s : string) : bool :=
  match s with
  | EmptyString => true
  | String c rest => negb (Ascii.eqb c sep) && without_char sep rest
  end.

Lemma str_split_without (sep : ascii) (s : string) :
  without_char sep s = true -> str_split sep s = [s].
Proof.
  induction s as [|c s IH]; simpl; [done|].
  intros [Hc Hs]%andb_true_iff. apply negb_true_iff in Hc.
  by rewrite Hc, IH.
Qed.

Lemma str_split_app (sep : ascii) (s rest : string) :
  without_char sep s = true ->
  str_split sep (s ++ String sep rest) = s :: str_split sep rest.
Proof.
  induction s as [|c s IH]; simpl.
  { intros _. by rewrite Ascii.eqb_refl. }
  intros [Hc Hs]%andb_true_iff. apply negb_true_iff in Hc.
  by rewrite Hc, IH.
Qed.

Lemma concat_cons_cons (sep : ascii) (s s' : string) (l : list string) :
  String.concat (String sep EmptyString) (s :: s' :: l)
  = (s ++ String sep (String.concat (String sep EmptyString) (s' :: l)))%string.
Proof. reflexivity. Qed.

(** The targets of an entry of the data flow, read back. *)
Lemma str_split_concat (l : list string) :
  l <> [] ->
  Forall (fun s => without_char "," s = true) l ->
  str_split "," (String.concat "," l) = l.
Proof.
  intros Hne Hall. induction Hall as [|s l Hs Hl IH]; [done|].
  destruct l as [|s' l]; [by apply str_split_without|].
  rewrite (concat_cons_cons ","), str_split_app by done. f_equal. by apply IH.
Qed.

(** X11.  Splitting at the separator what was joined with it gives the
    list back, for a list that is not empty and whose strings are free of
    the separator: [sep.join(l).split(sep) == l].  For the empty list the
    result is the list of the empty string. *)
Theorem split_join (sep : ascii) (l : list string) :
  str_split sep (String.concat (String sep EmptyString) []) = [EmptyString]
  /\ (l <> [] ->
      Forall (fun s => without_char sep s = true) l ->
      str_split sep (String.concat (String sep EmptyString) l) = l).
Proof.
  split; [reflexivity|]. intros Hne Hall.
  induction Hall as [|s l Hs Hl IH]; [done|].
  destruct l as [|s' l]; [by apply str_split_without|].
  rewrite concat_cons_cons, str_split_app by done. f_equal. by apply IH.
Qed.

(** X11 on three agent ids. *)
Lemma split_join_witness :
  str_split "," (String.concat "," ["backend_arch_01"; "frontend_dev_01"; "x"])
  = ["backend_arch_01"; "frontend_dev_01"; "x"].
Proof.
  apply (split_join ","%char); [discriminate|].
  repeat constructor.
Defined.

(** ** The pipeline order of a data flow built from the graph *)

Lemma dict_set_fresh {V} (k : string) (v : V) (d : PyDict V) :
  k ∉ dict_keys d -> dict_set k v d = d ++ [(k, v)].
Proof.
  unfold dict_keys. induction d as [|[k' v'] d IH]; simpl; [done|].
  rewrite not_elem_of_cons. intros [Hne Hk].
  destruct (String.eqb_spec k k') as [|_]; [done|]. by rewrite IH.
Qed.

Section GraphOrder.

Variable strip : string -> string.

(** The run of [_topological_sort] on distinct agents: the loop ends with
    a list [final] that satisfies the invariant of the loop with an empty
    queue. *)
Lemma topological_sort_final (agents : list string) (data_flow : PyDict string) :
  NoDup agents ->
  exists final in_degree,
    sort_inv agents (flow_edges strip agents data_flow) in_degree [] final
    /\ _topological_sort strip agents data_flow
       = Some (Ok (if length final =? length agents then final else agents)).
Proof.
  intros Hnd. set (edges := flow_edges strip agents data_flow).
  assert (Hends : forall u v, (u, v) ∈ edges -> u ∈ agents /\ v ∈ agents).
  { intros u v (? & ? & _)%elem_of_flow_edges. done. }
  unfold _topological_sort.
  destruct (build_graph_spec strip agents data_flow []
              (list_to_map ((fun agent => (agent, [])) <$> agents))
              (list_to_map ((fun agent => (agent, 0%Z)) <$> agents)))
    as (graph & in_degree & Hbuild & Hgraph).
  { intros a Ha. by rewrite !lookup_constant_map. }
  simpl in Hgraph. fold edges in Hgraph.
  change (map ?f agents) with (f <$> agents). rewrite Hbuild.
  rewrite (initial_queue_spec agents in_degree (pending_into edges []))
    by (intros a Ha; by apply Hgraph).
  set (queue := List.filter
                  (fun a => bool_decide (pending_into edges [] a = 0)) agents).
  destruct (sort_loop_spec strip agents edges graph Hends
              (fun a Ha => proj1 (Hgraph a Ha))
              (length agents) in_degree queue [])
    as (final & rest & d' & -> & Hfinal & Hinv).
  { split; [by apply NoDup_List_filter|]. simpl.
    split; [by intros x [? _]%elem_of_List_filter|].
    split; [intros a Ha; by apply Hgraph|].
    split; [|by intros u v _ ?%elem_of_nil].
    intros a Ha. unfold queue. cbn [app].
    rewrite elem_of_List_filter, bool_decide_eq_true. tauto. }
  { lia. }
  by exists final, d'.
Qed.

(** When the edges of the data flow go up along a rank, the result is a
    topological order. *)
Lemma ranked_flow_order (rank : string -> nat) (agents : list string)
    (data_flow : PyDict string) :
  NoDup agents ->
  (forall u v, (u, v) ∈ flow_edges strip agents data_flow -> rank u < rank v) ->
  exists order,
    _topological_sort strip agents data_flow = Some (Ok order)
    /\ topological_order agents (flow_edges strip agents data_flow) order.
Proof.
  intros Hnd Hrank.
  destruct (topological_sort_final agents data_flow Hnd)
    as (final & d & (Hndf & Hinf & _ & Hzero & Hfwd) & ->).
  rewrite app_nil_r in Hndf, Hinf, Hzero.
  assert (Hall : forall a, a ∈ agents -> a ∈ final).
  { intros a. remember (rank a) as n eqn:Hn. revert a Hn.
    induction (lt_wf n) as [n _ IH]. intros a -> Ha.
    destruct (decide (a ∈ final)) as [|Hnf]; [done|]. exfalso.
    destruct (pending_into_pos (flow_edges strip agents data_flow) final a)
      as (u & Hua & Hu).
    { intros Hz. by apply Hnf, Hzero. }
    apply Hu. apply (IH (rank u)); [by apply Hrank|done|].
    by apply elem_of_flow_edges in Hua as (? & _). }
  assert (Hperm : final ≡ₚ agents).
  { apply submseteq_length_Permutation; [by apply NoDup_submseteq|].
    by apply submseteq_length, NoDup_submseteq. }
  rewrite (Permutation_length Hperm), Nat.eqb_refl.
  exists final. split; [done|]. split; [done|].
  intros u v Huv. apply Hfwd; [done|]. apply Hall.
  by apply elem_of_flow_edges in Huv as (_ & ? & _).
Qed.

Variable has_edge : string -> string -> bool.

(** The entries that the pipeline branch writes, in the order of the
    agents. *)
Definition flow_entries (agents to_visit : list string) : PyDict string :=
  flat_map (fun agent =>
              match flow_successors has_edge agents agent with
              | [] => []
              | successors => [(agent, String.concat "," successors)]
              end) to_visit.

Lemma dict_keys_flow_entries (agents to_visit : list string) (k : string) :
  k ∈ dict_keys (flow_entries agents to_visit) -> k ∈ to_visit.
Proof.
  unfold dict_keys, flow_entries.
  induction to_visit as [|a to_visit IH]; simpl; [done|].
  rewrite map_app, elem_of_app. intros [Hk|Hk]; [|right; by apply IH].
  destruct (flow_successors _ _ _); simpl in Hk; [by apply elem_of_nil in Hk|].
  apply list_elem_of_singleton in Hk as ->. left.
Qed.

Lemma pipeline_flow_entries (agents to_visit : list string)
    (data_flow : PyDict string) :
  NoDup to_visit ->
  (forall a, a ∈ to_visit -> a ∉ dict_keys data_flow) ->
  pipeline_flow has_edge agents to_visit data_flow
  = data_flow ++ flow_entries agents to_visit.
Proof.
  revert data_flow.
  induction to_visit as [|a to_visit IH]; intros data_flow Hnd Hfresh; simpl.
  { by rewrite app_nil_r. }
  apply NoDup_cons in Hnd as [Hna Hnd].
  destruct (flow_successors has_edge agents a) as [|s successors] eqn:Hs.
  { simpl. apply IH; [done|]. intros b Hb. apply Hfresh. by right. }
  rewrite IH; [|done|].
  - rewrite dict_set_fresh by (apply Hfresh; left).
    by rewrite <- app_assoc.
  - intros b Hb. rewrite dict_set_fresh by (apply Hfresh; left).
    unfold dict_keys. rewrite map_app, elem_of_app. simpl.
    intros [Hin|Hin%list_elem_of_singleton].
    + eapply Hfresh; [|exact Hin]. by right.
    + by subst.
Qed.

Lemma elem_of_flow_successors (agents : list string) (u v : string) :
  v ∈ flow_successors has_edge agents u
  <-> v ∈ agents /\ has_edge u v = true /\ v <> u.
Proof.
  unfold flow_successors.
  rewrite elem_of_List_filter, andb_true_iff, negb_true_iff.
  destruct (String.eqb_spec v u); intuition congruence.
Qed.

(** The edges that the data flow of the pipeline branch induces are the
    edges of the graph between two different agents of the list. *)
Lemma elem_of_pipeline_edges (agents : list string) (u v : string) :
  NoDup agents ->
  (forall a b, b ∈ agents -> has_edge a b = true ->
     strip b = b /\ without_char "," b = true) ->
  (u, v) ∈ flow_edges strip agents (_build_data_flow has_edge agents PIPELINE)
  <-> u ∈ agents /\ v ∈ agents /\ has_edge u v = true /\ v <> u.
Proof.
  intros Hnd Hids. unfold _build_data_flow.
  rewrite pipeline_flow_entries by (done || by intros a _ ?%elem_of_nil).
  cbn [app].
  assert (Htargets : forall a s successors,
            flow_successors has_edge agents a = s :: successors ->
            flow_targets strip agents
              (str_split "," (String.concat "," (s :: successors)))
            = s :: successors).
  { intros a s successors Hs.
    assert (Hin : forall x, x ∈ s :: successors ->
              x ∈ agents /\ strip x = x /\ without_char "," x = true).
    { intros x Hx. rewrite <- Hs in Hx.
      apply elem_of_flow_successors in Hx as (? & ? & _).
      split; [done|]. by apply (Hids a). }
    rewrite str_split_concat; [|done|]; cycle 1.
    { apply Forall_forall. intros x Hx. by apply Hin. }
    unfold flow_targets.
    assert (Hstrip : strip <$> (s :: successors) = s :: successors).
    { clear Hs. induction (s :: successors) as [|x l IH]; [done|].
      rewrite fmap_cons, IH by (intros y Hy; apply Hin; by right).
      f_equal. apply Hin. left. }
    rewrite Hstrip. clear Hs Hstrip.
    induction (s :: successors) as [|x l IH]; [done|]. simpl.
    rewrite bool_decide_eq_true_2 by (apply Hin; left).
    f_equal. apply IH. intros y Hy. apply Hin. by right. }
  unfold flow_edges, flow_entries.
  rewrite list_elem_of_In, in_flat_map. split.
  - intros ([a targets] & Hentry & Hin). cbn [fst snd] in Hin.
    apply in_flat_map in Hentry as (a' & Ha' & Hentry).
    destruct (flow_successors has_edge agents a') as [|s successors] eqn:Hs;
      [done|].
    apply list_elem_of_In, list_elem_of_singleton in Hentry.
    apply pair_equal_spec in Hentry as [-> ->].
    apply list_elem_of_In in Ha'.
    rewrite bool_decide_eq_true_2 in Hin by done.
    rewrite (Htargets _ _ _ Hs), <- Hs in Hin.
    apply list_elem_of_In, list_elem_of_fmap in Hin as (t & [= -> ->] & Ht).
    apply elem_of_flow_successors in Ht. tauto.
  - intros (Hu & Hv & He & Hne).
    assert (Hin : v ∈ flow_successors has_edge agents u)
      by (by apply elem_of_flow_successors).
    destruct (flow_successors has_edge agents u) as [|s successors] eqn:Hs;
      [by apply elem_of_nil in Hin|].
    exists (u, String.concat "," (s :: successors)). split.
    + apply in_flat_map. exists u. split; [by apply list_elem_of_In|].
      rewrite Hs. by left.
    + cbn [fst snd]. rewrite bool_decide_eq_true_2 by done.
      rewrite (Htargets _ _ _ Hs). apply list_elem_of_In.
      by apply (list_elem_of_fmap_2 (fun t => (u, t))).
Qed.

(** X12.  A chain built for the pipeline mode is run in an order that
    follows the collaboration graph.  Take distinct agents and a graph
    without a cycle among them (its edges go up along a rank), whose targets
    have ids without a comma and without white space to strip: the pipeline
    order of the data flow that [_build_data_flow] derives from the graph is
    a permutation of the agents in which, for every edge of the graph
    between two of them, the source comes before the target. *)
Theorem graph_pipeline_order (rank : string -> nat) (agents : list string) :
  NoDup agents ->
  (forall a b, b ∈ agents -> has_edge a b = true ->
     strip b = b /\ without_char "," b = true) ->
  (forall u v, u ∈ agents -> v ∈ agents -> has_edge u v = true -> u <> v ->
     rank u < rank v) ->
  exists order,
    _topological_sort strip agents (_build_data_flow has_edge agents PIPELINE)
    = Some (Ok order)
    /\ order ≡ₚ agents
    /\ forall u v, u ∈ agents -> v ∈ agents -> has_edge u v = true -> u <> v ->
         precedes order u v.
Proof.
  intros Hnd Hids Hrank.
  destruct (ranked_flow_order rank agents
              (_build_data_flow has_edge agents PIPELINE) Hnd)
    as (order & Hsort & Hperm & Hfwd).
  { intros u v (Hu & Hv & He & Hne)%elem_of_pipeline_edges; [|done..].
    apply Hrank; [done..|]. by intros ->. }
  exists order. split; [done|]. split; [done|].
  intros u v Hu Hv He Hne. apply Hfwd.
  apply elem_of_pipeline_edges; [done..|]. split; [done|]. split; [done|].
  split; [done|]. by intros ->.
Qed.

End GraphOrder.

(** ** The collaboration graph of the repository *)

(** The edges that [_build_collaboration_graph] adds: source, target,
    weight and type.  The weights, decimal literals in the source, are
    written as fractions; nothing below reads them. *)
Definition collaborations : list (string * string * Q * string) :=
  [ ("sys_design_01", "backend_arch_01", 9 # 10, "direct");
    ("backend_arch_01", "python_pro_01", 9 # 10, "direct");
    ("python_pro_01", "db_opt_01", 8 # 10, "direct");
    ("python_pro_01", "test_auto_01", 8 # 10, "direct");
    ("test_auto_01", "security_audit_01", 7 # 10, "verification");
    ("security_audit_01", "perf_eng_01", 6 # 10, "optimization");
    ("devops_exp_01", "perf_eng_01", 7 # 10, "monitoring");
    ("sys_design_01", "frontend_dev_01", 7 # 10, "design");
    ("frontend_dev_01", "test_auto_01", 6 # 10, "testing");
    ("db_opt_01", "perf_eng_01", 8 # 10, "optimization");
    ("security_audit_01", "devops_exp_01", 6 # 10, "deployment");
    ("sys_design_01", "security_audit_01", 5 # 10, "consultation");
    ("backend_arch_01", "devops_exp_01", 5 # 10, "consultation");
    ("frontend_dev_01", "security_audit_01", 4 # 10, "review") ].

(** [collaboration_graph.has_edge(u, v)] on the graph so built *)
Definition collaboration_has_edge (u v : string) : bool :=
  existsb (fun edge => String.eqb u edge.1.1.1 && String.eqb v edge.1.1.2)
          collaborations.

(** A numbering of the agents along which all collaborations go up. *)
Definition collaboration_rank (agent : string) : nat :=
  position agent
    ["sys_design_01"; "backend_arch_01"; "frontend_dev_01"; "python_pro_01";
     "db_opt_01"; "test_auto_01"; "security_audit_01"; "devops_exp_01";
     "perf_eng_01"].

Lemma collaboration_edge (u v : string) :
  collaboration_has_edge u v = true ->
  collaboration_rank u < collaboration_rank v
  /\ strip v = v /\ without_char "," v = true.
Proof.
  unfold collaboration_has_edge. rewrite existsb_exists.
  intros ([[[s t] weight] kind] & Hin & Heq). simpl in Heq.
  apply andb_true_iff in Heq as [->%String.eqb_eq ->%String.eqb_eq].
  apply list_elem_of_In in Hin.
  repeat (apply elem_of_cons in Hin as [[= -> -> -> ->]|Hin];
          [vm_compute; repeat split; lia|]).
  by apply elem_of_nil in Hin.
Qed.

(** X13.  On the collaboration graph of the repository, the pipeline order
    of an automatically built chain never falls back: for every list of
    distinct agents, the order computed from the data flow of
    [_build_data_flow] is a permutation of the list in which every
    collaboration between two of its agents goes forward. *)
Theorem collaboration_pipeline_order (agents : list string) :
  NoDup agents ->
  exists order,
    _topological_sort strip agents
      (_build_data_flow collaboration_has_edge agents PIPELINE)
    = Some (Ok order)
    /\ order ≡ₚ agents
    /\ forall u v, u ∈ agents -> v ∈ agents ->
         collaboration_has_edge u v = true -> precedes order u v.
Proof.
  intros Hnd.
  assert (Hids : forall a b, b ∈ agents -> collaboration_has_edge a b = true ->
            strip b = b /\ without_char "," b = true).
  { intros a b _ Hedge. by apply collaboration_edge in Hedge as (_ & ? & ?). }
  destruct (ranked_flow_order strip collaboration_rank agents
              (_build_data_flow collaboration_has_edge agents PIPELINE) Hnd)
    as (order & Hsort & Hperm & Hfwd).
  { intros u v (_ & _ & Hedge & _)%elem_of_pipeline_edges; [|done..].
    by apply collaboration_edge in Hedge as (? & _). }
  exists order. split; [done|]. split; [done|].
  intros u v Hu Hv Hedge. apply Hfwd.
  apply elem_of_pipeline_edges; [done..|]. split; [done|]. split; [done|].
  split; [done|]. intros ->.
  apply collaboration_edge in Hedge as (? & _). lia.
Qed.

(** X12 on a graph of three agents. *)
Lemma graph_pipeline_order_witness :
  let has_edge u v :=
    String.eqb u "c" && String.eqb v "b" || String.eqb u "b" && String.eqb v "a" in
  _topological_sort strip ["a"; "b"; "c"]
    (_build_data_flow has_edge ["a"; "b"; "c"] PIPELINE)
  = Some (Ok ["c"; "b"; "a"]).
Proof.
  intros has_edge.
  destruct (graph_pipeline_order strip has_edge
              (fun a => if String.eqb a "c" then 0
                        else if String.eqb a "b" then 1 else 2)
              ["a"; "b"; "c"])
    as (order & Hsort & _).
  - apply (bool_decide_unpack _). vm_compute. exact I.
  - intros a b Hb _. each_element Hb; by vm_compute.
  - intros u v Hu Hv. each_element Hu; each_element Hv; vm_compute;
      (discriminate || lia || done).
  - rewrite Hsort. vm_compute in Hsort. by injection Hsort as <-.
Defined.

(** X13 on the agents of the full-stack chain, listed backwards. *)
Lemma collaboration_pipeline_order_witness :
  let agents :=
    ["security_audit_01"; "test_auto_01"; "frontend_dev_01"; "python_pro_01";
     "backend_arch_01"; "sys_design_01"] in
  _topological_sort strip agents
    (_build_data_flow collaboration_has_edge agents PIPELINE)
  = Some (Ok ["sys_design_01"; "frontend_dev_01"; "backend_arch_01";
              "python_pro_01"; "test_auto_01"; "security_audit_01"]).
Proof.
  intros agents.
  destruct (collaboration_pipeline_order agents) as (order & Hsort & _).
  - apply (bool_decide_unpack _). vm_compute. exact I.
  - rewrite Hsort. vm_compute in Hsort. by injection Hsort as <-.
Defined.

(** ** The pipeline order of a sequential data flow *)

(** The pairs of neighbours of a list. *)
Fixpoint neighbours (agents : list string) : list (string * string) :=
  match agents with
  | agent :: (next :: _) as rest => (agent, next) :: neighbours rest
  | _ => []
  end.

Lemma elem_of_neighbours (agents : list string) (u v : string) :
  (u, v) ∈ neighbours agents <->
  exists i, agents !! i = Some u /\ agents !! S i = Some v.
Proof.
  induction agents as [|a [|b rest] IH].
  - split; [by intros ?%elem_of_nil|]. intros (i & Hi & _).
    by rewrite lookup_nil in Hi.
  - split; [by intros ?%elem_of_nil|]. intros (i & _ & Hi).
    by rewrite lookup_cons, lookup_nil in Hi.
  - change (neighbours (a :: b :: rest)) with ((a, b) :: neighbours (b :: rest)).
    rewrite elem_of_cons, IH. split.
    + intros [[= -> ->]|(i & Hi & Hsi)]; [by exists 0|]. by exists (S i).
    + intros ([|i] & Hi & Hsi).
      * left. simpl in *. congruence.
      * right. by exists i.
Qed.

Lemma sequential_flow_neighbours (agents : list string)
    (data_flow : PyDict string) :
  NoDup agents ->
  (forall a, a ∈ agents -> a ∉ dict_keys data_flow) ->
  sequential_flow agents data_flow = data_flow ++ neighbours agents.
Proof.
  revert data_flow.
  induction agents as [|a [|b rest] IH]; intros data_flow Hnd Hfresh.
  - by rewrite app_nil_r.
  - by rewrite app_nil_r.
  - change (sequential_flow (a :: b :: rest) data_flow)
      with (sequential_flow (b :: rest) (dict_set a b data_flow)).
    change (neighbours (a :: b :: rest)) with ((a, b) :: neighbours (b :: rest)).
    apply NoDup_cons in Hnd as [Hna Hnd].
    rewrite dict_set_fresh by (apply Hfresh; left).
    rewrite IH; [by rewrite <- app_assoc|done|].
    intros x Hx. unfold dict_keys. rewrite map_app, elem_of_app. simpl.
    intros [Hin|Hin%list_elem_of_singleton].
    + eapply Hfresh; [|exact Hin]. by right.
    + by subst.
Qed.

(** A permutation of distinct agents in which every agent comes before its
    right neighbour is the list itself. *)
Lemma neighbour_order_unique (agents order : list string) :
  NoDup agents -> order ≡ₚ agents ->
  (forall u v, (u, v) ∈ neighbours agents -> precedes order u v) ->
  order = agents.
Proof.
  revert order. induction agents as [|a agents IH]; intros order Hnd Hperm Hfwd.
  { by apply Permutation_nil_r in Hperm. }
  assert (Hndo : NoDup order) by (by rewrite Hperm).
  destruct order as [|x order].
  { by apply Permutation_nil_cons in Hperm. }
  assert (x = a) as ->.
  { assert (Hx : x ∈ a :: agents) by (rewrite <- Hperm; left).
    apply elem_of_cons in Hx as [|Hx]; [done|]. exfalso.
    apply list_elem_of_lookup in Hx as [j Hj].
    destruct (lookup_lt_is_Some_2 (a :: agents) j) as [u Hu].
    { apply lookup_lt_Some in Hj. simpl. lia. }
    destruct (Hfwd u x) as (i' & j' & Hi' & Hj' & Hlt).
    { apply elem_of_neighbours. by exists j. }
    assert (j' = 0) by (by apply (NoDup_lookup _ _ _ _ Hndo Hj')).
    lia. }
  f_equal. apply Permutation_cons_inv in Hperm.
  apply NoDup_cons in Hnd as [Hna Hnd]. apply NoDup_cons in Hndo as [Hnao _].
  apply IH; [done..|]. intros u v Huv.
  destruct (Hfwd u v) as (i' & j' & Hi' & Hj' & Hlt).
  { destruct agents as [|b rest]; [by apply elem_of_nil in Huv|].
    change (neighbours (a :: b :: rest)) with ((a, b) :: neighbours (b :: rest)).
    by right. }
  destruct j' as [|j']; [lia|]. destruct i' as [|i'].
  - exfalso. injection Hi' as <-. apply Hna.
    apply elem_of_neighbours in Huv as (i & Hi & _).
    by eapply list_elem_of_lookup_2.
  - exists i', j'. split; [done|]. split; [done|lia].
Qed.

Section SequentialFlow.

Variable strip : string -> string.
Variable has_edge : string -> string -> bool.

Lemma flow_edges_neighbours (agents part : list string) :
  (forall a, a ∈ agents -> strip a = a /\ without_char "," a = true) ->
  (forall a, a ∈ part -> a ∈ agents) ->
  flow_edges strip agents (neighbours part) = neighbours part.
Proof.
  intros Hids. induction part as [|a [|b rest] IH]; intros Hin; [done..|].
  change (neighbours (a :: b :: rest)) with ((a, b) :: neighbours (b :: rest)).
  unfold flow_edges in *. cbn [flat_map fst snd].
  rewrite IH by (intros x Hx; apply Hin; by right).
  assert (Hb : b ∈ agents) by (apply Hin; right; left).
  rewrite bool_decide_eq_true_2 by (apply Hin; left).
  destruct (Hids b Hb) as [Hstrip Hcomma].
  rewrite str_split_without by done. unfold flow_targets. simpl.
  by rewrite Hstrip, bool_decide_eq_true_2.
Qed.

(** X14.  For distinct agents, whose ids have no comma and no white space
    to strip, the data flow of the sequential mode sends every agent to the
    next one, and the pipeline order of that data flow is the list of
    agents itself. *)
Theorem sequential_flow_order (agents : list string) :
  NoDup agents ->
  (forall a, a ∈ agents -> strip a = a /\ without_char "," a = true) ->
  _build_data_flow has_edge agents SEQUENTIAL = neighbours agents
  /\ _topological_sort strip agents
       (_build_data_flow has_edge agents SEQUENTIAL) = Some (Ok agents).
Proof.
  intros Hnd Hids. unfold _build_data_flow.
  rewrite sequential_flow_neighbours by (done || by intros a _ ?%elem_of_nil).
  cbn [app]. split; [done|].
  pose proof (flow_edges_neighbours agents agents Hids (fun a Ha => Ha))
    as Hedges.
  destruct (ranked_flow_order strip (fun a => position a agents) agents
              (neighbours agents) Hnd)
    as (order & Hsort & Hperm & Hfwd).
  { rewrite Hedges. intros u v (i & Hi & Hsi)%elem_of_neighbours.
    assert (Hpos : forall j x, agents !! j = Some x -> position x agents = j).
    { clear -Hnd. induction agents as [|a agents IH]; intros j x.
      { by rewrite lookup_nil. }
      apply NoDup_cons in Hnd as [Hna Hnd]. destruct j as [|j]; simpl.
      - intros [= ->]. by rewrite String.eqb_refl.
      - intros Hj. destruct (String.eqb_spec x a) as [->|_].
        + exfalso. apply Hna. by eapply list_elem_of_lookup_2.
        + f_equal. by apply IH. }
    rewrite (Hpos _ _ Hi), (Hpos _ _ Hsi). lia. }
  rewrite Hsort. do 2 f_equal.
  apply neighbour_order_unique; [done..|]. by rewrite <- Hedges.
Qed.

End SequentialFlow.

(** X14 on the agents of the back-end chain. *)
Lemma sequential_flow_order_witness :
  let agents :=
    ["sys_design_01"; "backend_arch_01"; "python_pro_01"; "db_opt_01";
     "security_audit_01"; "perf_eng_01"] in
  _build_data_flow collaboration_has_edge agents SEQUENTIAL
  = [("sys_design_01", "backend_arch_01"); ("backend_arch_01", "python_pro_01");
     ("python_pro_01", "db_opt_01"); ("db_opt_01", "security_audit_01");
     ("security_audit_01", "perf_eng_01")]
  /\ _topological_sort strip agents
       (_build_data_flow collaboration_has_edge agents SEQUENTIAL)
     = Some (Ok agents).
Proof.
  intros agents.
  apply (sequential_flow_order strip collaboration_has_edge agents).
  - apply (bool_decide_unpack _). vm_compute. exact I.
  - intros a Ha. each_element Ha; by vm_compute.
Defined.

(** ** What a failed run leaves behind *)

Section FailureReport.

Context {World : Type}.
Variable invoke : string -> string -> PyDict PyVal -> World -> Result PyVal * World.
Variable now : World -> datetime * World.
Variable uuid4 : World -> string * World.
Variable repr_list : list string -> string.

(** The loop over the results raises at the first failure without a retry
    left: that step stays [FAILED], with its error, and its entry is the
    last of the error log. *)
Lemma process_results_raise_state (ready : list loc)
    (results : list (Result PyVal)) (c : gset string) (σ σ' : @RunState World)
    (e : Exc) :
  NoDup ready ->
  (forall l, l ∈ ready -> l < length (rs_heap σ)) ->
  process_results ready results c σ = (Raise e, σ') ->
  exists l prefix,
    l ∈ ready
    /\ status (rs_heap σ' !!! l) = FAILED
    /\ error (rs_heap σ' !!! l) = Some (str e)
    /\ (retry_count (rs_heap σ' !!! l) <= 0)%Z
    /\ error_log (rs_context σ')
       = prefix ++ [step_error_entry (step_id (rs_heap σ' !!! l)) e].
Proof.
  revert results c σ.
  induction ready as [|l ready IH]; intros results c σ Hnd Hb; [done|].
  destruct results as [|r results]; [done|].
  apply NoDup_cons in Hnd as [Hnin Hnd].
  assert (Hb' : forall f l', l' ∈ ready -> l' < length (alter f l (rs_heap σ))).
  { intros f l' Hl'. rewrite length_alter. apply Hb. by right. }
  simpl. destruct r as [v|e0].
  - intros (l0 & prefix & Hl0 & H)%IH; [|done|by apply Hb'].
    exists l0, prefix. split; [by right|done].
  - destruct (0 <? _)%Z eqn:Hretry.
    + intros (l0 & prefix & Hl0 & H)%IH; [|done|]; cycle 1.
      { intros l' Hl'. simpl. rewrite !length_alter. apply Hb. by right. }
      exists l0, prefix. split; [by right|done].
    + clear IH. intros [= <- <-]. simpl.
      exists l, (error_log (rs_context σ)). split; [left|].
      rewrite (alter_field retry_count) in Hretry by done.
      apply Z.ltb_ge in Hretry.
      assert (Hl : l < length (rs_heap σ)) by (apply Hb; left).
      rewrite (alter_field retry_count), (alter_field step_id) by done.
      rewrite list_lookup_total_alter, decide_True by done. done.
Qed.

(** The two ways in which the loop of a run raises. *)
Lemma loop_raise (fuel : nat) (wsteps : list loc) (c : gset string)
    (σ σ' : RunState) (e : Exc) :
  steps_allocated wsteps σ ->
  _execute_workflow_steps invoke now repr_list fuel wsteps c σ
  = Some (Raise e, σ') ->
  (exists remaining,
     remaining <> [] /\ (forall l, l ∈ remaining -> l ∈ wsteps)
     /\ e = mkExc "RuntimeError" (deadlock_message repr_list (rs_heap σ') remaining))
  \/ (exists l prefix,
        l ∈ wsteps
        /\ status (rs_heap σ' !!! l) = FAILED
        /\ error (rs_heap σ' !!! l) = Some (str e)
        /\ (retry_count (rs_heap σ' !!! l) <= 0)%Z
        /\ error_log (rs_context σ')
           = prefix ++ [step_error_entry (step_id (rs_heap σ' !!! l)) e]).
Proof.
  revert c σ. induction fuel as [|fuel IH]; intros c σ Ha; simpl.
  { by destruct (_ <? _). }
  destruct (_ <? _); [|done].
  pose proof (loop_body_frame invoke now repr_list wsteps c σ) as Hframe.
  rewrite loop_body_unfold in Hframe |- *. simpl in Hframe |- *.
  destruct (decide _) as [Hnil|Hnnil].
  { destruct (remaining_steps_of _ _ _) as [|l rest] eqn:Hrem; [done|].
    intros [= <- <-]. left. exists (l :: rest). split; [done|]. split; [|done].
    intros l' Hl'. rewrite <- Hrem in Hl'.
    by apply elem_of_remaining_steps in Hl' as [? _]. }
  destruct (gather _ _ _ σ) as [results σ1] eqn:Hg.
  destruct (process_results _ _ _ _) as [[c'|e'] σ2] eqn:Hp.
  - destruct Hframe as (Hshape & _). apply IH.
    by eapply steps_allocated_shape.
  - intros [= <- <-]. right.
    pose proof (gather_spec _ _ _ _ _ _ Hg) as (_ & [Hlen _] & _).
    destruct Ha as [Hnd Hb].
    assert (Hbr : forall l, l ∈ ready_steps_of wsteps (rs_heap σ) c ->
                    l < length (rs_heap σ1)).
    { intros l [Hl _]%elem_of_ready_steps. rewrite Hlen. by apply Hb. }
    destruct (process_results_raise_state _ _ _ _ _ _
                (NoDup_ready_steps _ _ _ Hnd) Hbr Hp)
      as (l & prefix & Hl & H).
    exists l, prefix. split; [|done].
    by apply elem_of_ready_steps in Hl as [? _].
Qed.

(** X15.  A stored run that is [FAILED] has, as the last entry of its error
    log, the message of the exception that stopped it.  Either that is the
    deadlock [RuntimeError], which names steps of the run; or it is the
    exception of a step of the run with no retry left: the step is [FAILED]
    with that message as its error, the status query counts it among the
    failed steps, and the log ends with the entry of the step followed by
    the message once more. *)
Theorem failed_run_report (workflow_id : string)
    (parameters : option (PyDict PyVal)) (engine engine' : WorkflowEngine)
    (w w' : World) (uid : string) (run : Workflow) :
  execute_workflow invoke now uuid4 repr_list workflow_id parameters engine w
  = Some (Ok uid, engine', w') ->
  dict_get uid (completed_workflows engine') = Some run ->
  wf_status run = WF_FAILED ->
  exists e,
    last (error_log (context run)) = Some (str e)
    /\ ((exists remaining,
           remaining <> [] /\ (forall l, l ∈ remaining -> l ∈ steps run)
           /\ e = mkExc "RuntimeError"
                    (deadlock_message repr_list (objects engine') remaining))
        \/ (exists l prefix,
              l ∈ steps run
              /\ status (objects engine' !!! l) = FAILED
              /\ error (objects engine' !!! l) = Some (str e)
              /\ (retry_count (objects engine' !!! l) <= 0)%Z
              /\ 1 <= count_status FAILED (objects engine') (steps run)
              /\ error_log (context run)
                 = prefix
                   ++ [step_error_entry (step_id (objects engine' !!! l)) e;
                       str e])).
Proof.
  intros Hex Hget Hst.
  destruct (dict_get workflow_id (workflow_templates engine))
    as [template|] eqn:Ht; cycle 1.
  { unfold execute_workflow in Hex. by rewrite Ht in Hex. }
  destruct (instantiate now uuid4 template parameters (objects engine) w)
    as [[instance h1] w3] eqn:Hinst.
  destruct (run_total invoke now uuid4 repr_list _ _ _ _ _ _ _ Hinst)
    as (r & σ & Hrun).
  rewrite (execute_workflow_known invoke now uuid4 repr_list
             _ _ _ _ _ _ _ _ _ _ Ht Hinst Hrun) in Hex.
  injection Hex as <- <- <-. simpl in Hget.
  rewrite dict_get_set_eq in Hget. injection Hget as <-. simpl in Hst |- *.
  destruct r as [[]|e]; [done|]. exists e. simpl.
  split; [by rewrite last_snoc|].
  pose proof (instantiate_inv _ _ _ _ _ _ _ _ _ Hinst) as [Ha _].
  destruct (loop_raise _ _ _ _ _ _ Ha Hrun)
    as [Hdead|(l & prefix & Hl & Hfailed & Herr & Hretry & Hlog)];
    [by left|right].
  exists l, prefix. split; [done|]. split; [done|]. split; [done|].
  split; [done|]. split; [|by rewrite Hlog, <- app_assoc].
  unfold count_status.
  assert (Hin : l ∈ List.filter
                      (fun l => bool_decide (status (rs_heap σ !!! l) = FAILED))
                      (steps instance)).
  { apply elem_of_List_filter. split; [done|]. by apply bool_decide_eq_true. }
  destruct (List.filter _ _); [by apply elem_of_nil in Hin|simpl; lia].
Qed.

End FailureReport.

(** X15 on the chain whose step B fails three times, with two retries. *)
Lemma failed_run_report_witness :
  exists uid engine' w' run e,
    execute_workflow (sample_invoke 3) sample_now sample_uuid4 sample_repr_list
      "chain" None chain_engine (0, 0) = Some (Ok uid, engine', w')
    /\ dict_get uid (completed_workflows engine') = Some run
    /\ wf_status run = WF_FAILED
    /\ last (error_log (context run)) = Some (str e).
Proof.
  destruct (execute_workflow (sample_invoke 3) sample_now sample_uuid4
              sample_repr_list "chain" None chain_engine (0, 0))
    as [[[[uid|] engine'] w']|] eqn:Hex; [|vm_compute in Hex; discriminate..].
  destruct (dict_get uid (completed_workflows engine')) as [run|] eqn:Hget;
    cycle 1.
  { vm_compute in Hex. injection Hex as <- <- <-. discriminate. }
  assert (Hst : wf_status run = WF_FAILED).
  { vm_compute in Hex. injection Hex as <- <- <-.
    vm_compute in Hget. by injection Hget as <-. }
  destruct (failed_run_report (sample_invoke 3) sample_now sample_uuid4
              sample_repr_list "chain" None chain_engine engine' (0, 0) w'
              uid run Hex Hget Hst) as (e & Hlast & _).
  exists uid, engine', w', run, e.
  split; [reflexivity|]. split; [exact Hget|]. split; [exact Hst|exact Hlast].
Defined.

(** ** Runs do not disturb each other *)

Lemma dict_get_del_ne {V} (k k0 : string) (d : PyDict V) :
  k0 <> k -> dict_get k0 (dict_del k d) = dict_get k0 d.
Proof.
  intros Hne. induction d as [|[k' v'] d IH]; simpl; [done|].
  destruct (String.eqb_spec k k') as [<-|Hk]; simpl.
  - destruct (String.eqb_spec k0 k); [done|]. exact IH.
  - destruct (String.eqb k0 k'); [done|]. exact IH.
Qed.

Section Isolation.

Context {World : Type}.
Variable invoke : string -> string -> PyDict PyVal -> World -> Result PyVal * World.
Variable now : World -> datetime * World.
Variable uuid4 : World -> string * World.
Variable repr_list : list string -> string.

(** X16.  A call of [execute_workflow] leaves the status report of every
    other workflow as it was: for an id other than the one it returns, whose
    workflow has its steps in the store, [get_workflow_status] answers after
    the call what it answered before. *)
Theorem other_reports_stable (workflow_id : string)
    (parameters : option (PyDict PyVal)) (engine engine' : WorkflowEngine)
    (w w' : World) (res : Result string) (other : string) :
  execute_workflow invoke now uuid4 repr_list workflow_id parameters engine w
  = Some (res, engine', w') ->
  res <> Ok other ->
  (forall workflow l,
     get_or other (active_workflows engine) (completed_workflows engine)
     = Some workflow ->
     l ∈ steps workflow -> l < length (objects engine)) ->
  get_workflow_status engine' other = get_workflow_status engine other.
Proof.
  intros Hex Hother Halloc.
  destruct (execute_workflow_store invoke now uuid4 repr_list workflow_id
              parameters engine w)
    as (res0 & engine0 & w0 & Hex0 & _ & _ & Hpre & _).
  rewrite Hex in Hex0. injection Hex0 as <- <- <-.
  assert (Hsame : get_or other (active_workflows engine')
                    (completed_workflows engine')
                  = get_or other (active_workflows engine)
                      (completed_workflows engine)).
  { destruct (dict_get workflow_id (workflow_templates engine))
      as [template|] eqn:Ht; cycle 1.
    { unfold execute_workflow in Hex. rewrite Ht in Hex.
      by injection Hex as <- <- <-. }
    destruct (instantiate now uuid4 template parameters (objects engine) w)
      as [[instance h1] w3] eqn:Hinst.
    destruct (run_total invoke now uuid4 repr_list _ _ _ _ _ _ _ Hinst)
      as (r & σ & Hrun).
    rewrite (execute_workflow_known invoke now uuid4 repr_list
               _ _ _ _ _ _ _ _ _ _ Ht Hinst Hrun) in Hex.
    injection Hex as <- <- <-. unfold get_or. simpl.
    assert (Hne : other <> wf_id instance) by congruence.
    by rewrite dict_get_del_ne, !dict_get_set_ne. }
  unfold get_workflow_status. rewrite Hsame.
  destruct (get_or other _ _) as [workflow|] eqn:Hget; [|done].
  assert (Hobj : forall l, l ∈ steps workflow ->
                   objects engine' !!! l = objects engine !!! l).
  { intros l Hl. apply lookup_total_eq, Hpre. by eapply Halloc. }
  f_equal. unfold count_status. f_equal.
  - f_equal. apply filter_ext_in. intros l Hl%list_elem_of_In.
    by rewrite Hobj.
  - f_equal. apply filter_ext_in. intros l Hl%list_elem_of_In.
    by rewrite Hobj.
  - apply map_ext_in. intros l Hl%list_elem_of_In. by rewrite Hobj.
Qed.

End Isolation.

(** X16 on two runs of the chain, the second with a capability that
    fails. *)
Lemma other_reports_stable_witness :
  let uuid4 (w : sample_world) :=
    (if w.1 <? 4 then "run-1" else "run-2", w) in
  exists engine1 w1 engine2 w2 report,
    execute_workflow (sample_invoke 0) sample_now uuid4 sample_repr_list
      "chain" None chain_engine (0, 0) = Some (Ok "run-1", engine1, w1)
    /\ execute_workflow (sample_invoke 9) sample_now uuid4 sample_repr_list
         "chain" None engine1 w1 = Some (Ok "run-2", engine2, w2)
    /\ get_workflow_status engine1 "run-1" = Some report
    /\ get_workflow_status engine2 "run-1" = Some report
    /\ sr_status report = "completed".
Proof.
  intros uuid4.
  destruct (execute_workflow (sample_invoke 0) sample_now uuid4
              sample_repr_list "chain" None chain_engine (0, 0))
    as [[[res1 engine1] w1]|] eqn:Hex1; [|vm_compute in Hex1; discriminate].
  destruct (execute_workflow (sample_invoke 9) sample_now uuid4
              sample_repr_list "chain" None engine1 w1)
    as [[[res2 engine2] w2]|] eqn:Hex2;
    [|vm_compute in Hex1; injection Hex1 as <- <- <-;
      vm_compute in Hex2; discriminate].
  assert (Hres : res1 = Ok "run-1" /\ res2 = Ok "run-2"
                 /\ length (objects engine1) = 6
                 /\ (steps <$> get_or "run-1" (active_workflows engine1)
                                  (completed_workflows engine1))
                    = Some [3; 4; 5]
                 /\ (sr_status <$> get_workflow_status engine1 "run-1")
                    = Some "completed").
  { vm_compute in Hex1. injection Hex1 as <- <- <-.
    vm_compute in Hex2. injection Hex2 as <- <- <-.
    vm_compute. done. }
  destruct Hres as (-> & -> & Hlen & Hsteps & Hstatus).
  pose proof (other_reports_stable (sample_invoke 9) sample_now uuid4
                sample_repr_list "chain" None engine1 engine2 w1 w2
                (Ok "run-2") "run-1" Hex2) as Hstable.
  destruct (get_workflow_status engine1 "run-1") as [report|] eqn:Hreport;
    [|discriminate Hstatus].
  exists engine1, w1, engine2, w2, report.
  split; [reflexivity|]. split; [exact Hex2|]. split; [exact Hreport|].
  split; [|by injection Hstatus].
  apply Hstable; [discriminate|].
  intros workflow l Hget Hl. rewrite Hget in Hsteps. injection Hsteps as Hsteps.
  rewrite Hsteps in Hl. rewrite Hlen.
  apply list_elem_of_In in Hl. simpl in Hl. clear -Hl.
  destruct Hl as [<-|[<-|[<-|[]]]]; lia.
Defined.
